(** * Remote command channel and iSCSI lifecycle controller of qalib

    A shallow embedding of the bounded retry poller
    ([qalib/qabase/polling.py]), of the iSCSI lifecycle controller
    ([qalib/client/iscsi.py]) and of the SSH transport and asynchronous
    command handle ([qalib/corelibs/ssh/__init__.py]), followed by the
    properties of these functions.

    Conventions.  Python code that mutates module globals, reads the clock,
    sleeps, logs or runs a remote command is a function of a [World] in the
    monad [M]; an exception is the result [Raise].  Times are whole seconds
    in [Z].  Exit statuses are [Z].  Text is [string].  [None] is [option]. *)

From Stdlib Require Import ZArith String Ascii List Lia QArith.
From stdpp Require Import gmap strings list fin_maps pretty.

Open Scope string_scope.
Open Scope list_scope.
Open Scope Z_scope.

(* ===================================================================== *)
(** * Part I: the embedding                                               *)
(* ===================================================================== *)

(** ** Python basics: exception classes, truthiness, substring test *)
Module Py.

(** The exception classes the modelled code raises, catches or lets
    through, with Python 2's and paramiko's inheritance. *)
Inductive ExnClass :=
| Exception | StandardError | AssertionError | ValueError | TypeError
| LookupError | KeyError | IndexError | NameError | UnboundLocalError
| ArithmeticError | ZeroDivisionError | OverflowError
| EnvironmentError | IOError | OSError | socket_error
| PollingException | ConnectionError | SubConnectionError
| SSHException | AuthenticationException | BadAuthenticationType
| AggregateFailure.

#[global] Instance ExnClass_eq_dec : EqDecision ExnClass.
Proof. solve_decision. Defined.

(** Method resolution order: the class followed by all its bases. *)
Definition mro (c : ExnClass) : list ExnClass :=
  match c with
  | Exception => [Exception]
  | StandardError => [StandardError; Exception]
  | AssertionError => [AssertionError; StandardError; Exception]
  | ValueError => [ValueError; StandardError; Exception]
  | TypeError => [TypeError; StandardError; Exception]
  | LookupError => [LookupError; StandardError; Exception]
  | KeyError => [KeyError; LookupError; StandardError; Exception]
  | IndexError => [IndexError; LookupError; StandardError; Exception]
  | NameError => [NameError; StandardError; Exception]
  | UnboundLocalError =>
      [UnboundLocalError; NameError; StandardError; Exception]
  | ArithmeticError => [ArithmeticError; StandardError; Exception]
  | ZeroDivisionError =>
      [ZeroDivisionError; ArithmeticError; StandardError; Exception]
  | OverflowError =>
      [OverflowError; ArithmeticError; StandardError; Exception]
  | EnvironmentError => [EnvironmentError; StandardError; Exception]
  | IOError => [IOError; EnvironmentError; StandardError; Exception]
  | OSError => [OSError; EnvironmentError; StandardError; Exception]
  | socket_error =>
      [socket_error; IOError; EnvironmentError; StandardError; Exception]
  | PollingException =>
      [PollingException; AssertionError; StandardError; Exception]
  | ConnectionError =>
      [ConnectionError; EnvironmentError; StandardError; Exception]
  | SubConnectionError =>
      [SubConnectionError; ConnectionError; EnvironmentError;
       StandardError; Exception]
  | SSHException => [SSHException; Exception]
  | AuthenticationException =>
      [AuthenticationException; SSHException; Exception]
  | BadAuthenticationType =>
      [BadAuthenticationType; AuthenticationException; SSHException;
       Exception]
  | AggregateFailure => [AggregateFailure; Exception]
  end.

Definition issubclass (c d : ExnClass) : bool := bool_decide (d ∈ mro c).

(** What [ex[0]] gives, that is the first of the arguments the
    exception was built with: nothing when it was built without
    arguments, a text, a container (a list, tuple, set or dict, of which
    [members] are the strings among its elements or keys), or an object
    that cannot be searched, such as the number in
    [socket.error(errno, text)]; [type_name] is the name of its type. *)
Inductive Item0 :=
| NoItem
| Text (s : string)
| Container (members : list string)
| NotIterable (type_name : string).

(** An exception instance: its class, [str(ex)] and [ex[0]]. *)
Record exn := mkExn {
  exn_class : ExnClass;
  exn_msg : string;
  exn_item0 : Item0 }.

(** [C(msg)], an exception built from one message text, as every
    [raise] of the code modelled here builds it: the text is both
    [str(ex)] and [ex[0]]. *)
Abbreviation Exn c msg := (mkExn c msg (Text msg)).

(** [isinstance(e, (c1, ..., cn))], as an [except] clause tests it. *)
Definition isinstance (e : exn) (cs : list ExnClass) : bool :=
  existsb (issubclass (exn_class e)) cs.

(** [needle in hay] on strings. *)
Fixpoint contains (needle hay : string) : bool :=
  String.prefix needle hay ||
  match hay with
  | EmptyString => false
  | String _ rest => contains needle rest
  end.

(** Truth value of a string, and of a string that may be [None]. *)
Definition truthy (s : string) : bool := negb (String.eqb s "").

Definition truthy_opt (s : option string) : bool :=
  match s with
  | None => false
  | Some s => truthy s
  end.

(** Truth value of a list: non-empty. *)
Definition truthy_list {A} (l : list A) : bool :=
  match l with
  | [] => false
  | _ :: _ => true
  end.

(** [' '.join(words)]. *)
Fixpoint join (sep : string) (words : list string) : string :=
  match words with
  | [] => ""
  | [w] => w
  | w :: ws => w +:+ sep +:+ join sep ws
  end.

(** [unicode(n)] and ["%s" % n] for an integer. *)
Definition str_of_int (n : Z) : string := pretty n.

(** The newline character, and the one-character string of it. *)
Definition LF : ascii := "010"%char.
Definition nl : string := String LF "".

End Py.
Export Py.

(** ** The world: clock, remote host, logs and the module globals of
       [qalib.corelibs.system] *)
Module system.

(** [ISCSIInitiator.IscsiTarget = namedtuple('IscsiTarget',
    ['ip', 'port', 'iqn', 'iface'])].  [login] stores [ip=None] when no
    address was given, and [iface] is [None] when the caller passed
    [iface_name=None]. *)
Record IscsiTarget := mkTarget {
  ip : option string;
  port : Z;
  iqn : string;
  iface : option string }.

#[global] Instance IscsiTarget_eq_dec : EqDecision IscsiTarget.
Proof. solve_decision. Defined.

(** What the remote host answers to one command: exit status, combined
    output, and how long the command ran. *)
Record Reply := mkReply { status : Z; output : string; duration : Z }.

(** The remote host: its answer to the [n]-th command (counted from 0)
    issued in this world, given the command line. *)
Definition Host := nat -> string -> Reply.

Record World := mkWorld {
  now : Z;                          (* time.time() *)
  issued : list string;             (* command lines run, oldest first *)
  warnings : list string;           (* log.warning / LOG.warn records *)
  DISCOVERED_TARGETS : gmap string (list IscsiTarget);
  ISCSI_LOGGEDIN_TARGETS : gmap string (list IscsiTarget) }.

Inductive Result (A : Type) :=
| Ret (a : A)
| Raise (e : exn)
| OutOfFuel.      (* a loop ran out of its recursion budget *)
Arguments Ret {A} a.
Arguments Raise {A} e.
Arguments OutOfFuel {A}.

Definition M (A : Type) : Type := World -> Result A * World.

Definition pure {A} (a : A) : M A := fun w => (Ret a, w).

Definition bind {A B} (m : M A) (k : A -> M B) : M B :=
  fun w =>
    match m w with
    | (Ret a, w') => k a w'
    | (Raise e, w') => (Raise e, w')
    | (OutOfFuel, w') => (OutOfFuel, w')
    end.

Definition raise {A} (c : ExnClass) (msg : string) : M A :=
  fun w => (Raise (Exn c msg), w).

Notation "'let*' x ':=' m 'in' k" := (bind m (fun x => k))
  (at level 10, x pattern, m at level 200, k at level 200).
Notation "m ';;' k" := (bind m (fun _ => k))
  (at level 100, k at level 200, right associativity).

(** [time.time()]. *)
Definition time : M Z := fun w => (Ret (now w), w).

Definition advance (d : Z) (w : World) : World :=
  mkWorld (now w + d) (issued w) (warnings w)
          (DISCOVERED_TARGETS w) (ISCSI_LOGGEDIN_TARGETS w).

(** [time.sleep(d)]: Python 2 refuses a negative duration. *)
Definition sleep (d : Z) : M unit :=
  fun w =>
    if d <? 0 then (Raise (Exn IOError "[Errno 22] Invalid argument"), w)
    else (Ret tt, advance d w).

(** [log.warning(msg)]. *)
Definition warning (msg : string) : M unit :=
  fun w => (Ret tt,
            mkWorld (now w) (issued w) (warnings w ++ [msg])
                    (DISCOVERED_TARGETS w) (ISCSI_LOGGEDIN_TARGETS w)).

(** The part of a [System] object the controller uses. *)
Record System := mkSystem {
  name : string;
  on_hardware : bool;
  host : Host }.

(** [System.run_cmd(cmd)]: returns [(exit_status, output)]; the command
    is appended to the record of issued commands and the clock moves by
    the time the command took. *)
Definition run_cmd (sys : System) (cmd : string) : M (Z * string) :=
  fun w =>
    let r := host sys (List.length (issued w)) cmd in
    (Ret (status r, output r),
     mkWorld (now w + duration r) (issued w ++ [cmd]) (warnings w)
             (DISCOVERED_TARGETS w) (ISCSI_LOGGEDIN_TARGETS w)).

(** The pair [run_cmd] returns in world [w], and the world it leaves. *)
Definition reply_of (sys : System) (cmd : string) (w : World) : Z * string :=
  let r := host sys (List.length (issued w)) cmd in (status r, output r).

Definition after_cmd (sys : System) (cmd : string) (w : World) : World :=
  snd (run_cmd sys cmd w).

(** The pair [run_cmd] returns for [cmd] when [n] commands were issued
    before it. *)
Definition nth_reply (sys : System) (cmd : string) (n : nat) : Z * string :=
  let r := host sys n cmd in (status r, output r).

(** [System.run_cmd_check(cmd)]. *)
Definition run_cmd_check (sys : System) (cmd : string) : M string :=
  let* (exitstatus, out) := run_cmd sys cmd in
  if negb (exitstatus =? 0) then
    raise EnvironmentError
      ("Command failed ($?=" +:+ str_of_int exitstatus +:+ ") on "
       +:+ name sys +:+ ":" +:+ nl +:+ cmd +:+ nl +:+ out)
  else pure out.

Definition set_discovered (d : gmap string (list IscsiTarget)) : M unit :=
  fun w => (Ret tt,
            mkWorld (now w) (issued w) (warnings w) d
                    (ISCSI_LOGGEDIN_TARGETS w)).

Definition set_loggedin (l : gmap string (list IscsiTarget)) : M unit :=
  fun w => (Ret tt,
            mkWorld (now w) (issued w) (warnings w)
                    (DISCOVERED_TARGETS w) l).

Definition get_discovered : M (gmap string (list IscsiTarget)) :=
  fun w => (Ret (DISCOVERED_TARGETS w), w).

Definition get_loggedin : M (gmap string (list IscsiTarget)) :=
  fun w => (Ret (ISCSI_LOGGEDIN_TARGETS w), w).

(** A fresh process: the clock at [t0], nothing run, empty registries. *)
Definition boot (t0 : Z) : World := mkWorld t0 [] [] ∅ ∅.

End system.
Export system.

(** ** [qalib/qabase/polling.py] *)
Module polling.

(** The [args] parameter: absent, a list, or (the flagged user error) a
    string.  The polled functions of this development take command
    lines, so the list holds strings.  [kwargs] is never passed by the
    modelled callers and is left out. *)
Inductive Args :=
| NoArgs
| ArgList (l : list string)
| ArgStr (s : string).

(** One call [poll(function, args, retries=, interval=, timeout=,
    exception=, inspection=)].  [exception] is the tuple of classes to
    suppress ([[]] when it is not given). *)
Record PollCall (R : Type) := mkPoll {
  function : list string -> M R;
  args : Args;
  retries : option Z;
  interval : option Z;
  timeout : option Z;
  exception : list ExnClass;
  inspection : option string }.
Arguments mkPoll {R}.
Arguments function {R}.
Arguments args {R}.
Arguments retries {R}.
Arguments interval {R}.
Arguments timeout {R}.
Arguments exception {R}.
Arguments inspection {R}.

(** Where the generator's frame stands: not started, suspended at a
    [yield] with its local variables, or finished. *)
Inductive Frame :=
| Created
| Suspended (args : list string) (retries : option Z)
            (interval timeout current start_time : Z)
| Finished.

Record Generator (R : Type) := mkGen { call : PollCall R; frame : Frame }.
Arguments mkGen {R}.
Arguments call {R}.
Arguments frame {R}.

(** What [next(gen)] gives: a yielded value, or the end of the
    generator. *)
Inductive Step (Y : Type) :=
| Yield (y : Y)
| StopIteration.
Arguments Yield {Y} y.
Arguments StopIteration {Y}.

(** Calling [poll] only builds the generator: no line of the body runs
    before the first [next]. *)
Definition poll {R} (c : PollCall R) : Generator R := mkGen c Created.

(** [current < retries] in Python 2, where [retries] may still be
    [None]: [None] is smaller than every number. *)
Definition lt_retries (current : Z) (retries : option Z) : bool :=
  match retries with
  | None => false
  | Some r => current <? r
  end.

(** [if not args: args = []]. *)
Definition default_args (a : Args) : list string + string :=
  match a with
  | NoArgs => inl []
  | ArgList l => inl l
  | ArgStr s => if truthy s then inr s else inl []
  end.

(** [a / b] rounded to the nearest integer, ties to the even one, for
    [0 <= a] and [0 < b]. *)
Definition round_half_even (a b : Z) : Z :=
  let k := a / b in
  let r := a mod b in
  if 2 * r <? b then k
  else if b <? 2 * r then k + 1
  else if Z.even k then k else k + 1.

(** [2 ^ e <= n / d], for positive [n] and [d] and any [e]. *)
Definition pow2_le_quotient (e n d : Z) : bool :=
  if 0 <=? e then d * 2 ^ e <=? n else d <=? n * 2 ^ (- e).

(** [int(n / d)] for [0 <= n] and [0 < d] under
    [from __future__ import division]: CPython 2.7 gives the true
    quotient of two integers as the float (IEEE 754 binary64, 53
    significant bits) nearest to [n / d], ties to even, and [int]
    drops the fraction of that float.  A quotient below one half
    rounds to a float below one.  Otherwise [e] is the exponent with
    [2 ^ e <= n / d < 2 ^ (e + 1)] and [m] the 53-bit significand of
    the float.  [None] when the float would lie beyond the largest
    one. *)
Definition float_quotient_floor (n d : Z) : option Z :=
  if 2 * n <? d then Some 0
  else
    let e0 := Z.log2 n - Z.log2 d in
    let e := if pow2_le_quotient e0 n d then e0 else e0 - 1 in
    let s := 52 - e in
    let m := if 0 <=? s then round_half_even (n * 2 ^ s) d
             else round_half_even n (d * 2 ^ (- s)) in
    if 0 <=? s then Some (m / 2 ^ s)
    else if 2 ^ 1024 <=? m * 2 ^ (- s) then None
    else Some (m * 2 ^ (- s)).

(** [int(timeout / interval)]: the quotient goes through a float, so
    from 2^53 on it need not be the exact one; [int] rounds toward
    zero.  (Both arguments are whole seconds.) *)
Definition int_div (timeout interval : Z) : exn + Z :=
  if interval =? 0 then inl (Exn ZeroDivisionError "division by zero")
  else
    match float_quotient_floor (Z.abs timeout) (Z.abs interval) with
    | None =>
        inl (Exn OverflowError
                 "integer division result too large for a float")
    | Some q => inr (Z.sgn timeout * Z.sgn interval * q)
    end.

(** [inspection not in e[0]], for a truthy [inspection]: [e[0]] fails
    with an [IndexError] on an exception built without arguments, the
    test on a text looks for a part of it, the test on a container for
    an element equal to [inspection], and an object that cannot be
    searched fails the test with a [TypeError]. *)
Definition not_in_item0 (inspection : string) (e : exn) : exn + bool :=
  match exn_item0 e with
  | NoItem => inl (Exn IndexError "tuple index out of range")
  | Text s => inr (negb (contains inspection s))
  | Container members => inr (negb (bool_decide (inspection ∈ members)))
  | NotIterable type_name =>
      inl (Exn TypeError
               ("argument of type '" +:+ type_name
                +:+ "' is not iterable"))
  end.

(** The [while] test and one pass of the loop body up to its [yield]. *)
Definition loop_head {R} (c : PollCall R) (a : list string)
    (r : option Z) (i t cur st : Z) : M (Step (option R) * Generator R) :=
  fun w =>
    if lt_retries cur r && (now w - st <? t) then
      match function c a w with
      | (Ret v, w') =>
          (Ret (Yield (Some v), mkGen c (Suspended a r i t cur st)), w')
      | (Raise e, w') =>
          match exception c with
          | [] => (Raise e, w')
          | classes =>
              if isinstance e classes then
                match inspection c with
                | Some insp =>
                    if truthy insp then
                      match not_in_item0 insp e with
                      | inl e0 => (Raise e0, w')
                      | inr true => (Raise e, w')
                      | inr false =>
                          (Ret (Yield None,
                                mkGen c (Suspended a r i t cur st)), w')
                      end
                    else (Ret (Yield None,
                               mkGen c (Suspended a r i t cur st)), w')
                | None =>
                    (Ret (Yield None,
                          mkGen c (Suspended a r i t cur st)), w')
                end
              else (Raise e, w')
          end
      | (OutOfFuel, w') => (OutOfFuel, w')
      end
    else (Ret (StopIteration, mkGen c Finished), w).

(** The statements of [poll] before its [while] loop. *)
Definition prologue {R} (c : PollCall R)
    : M (list string * option Z * Z * Z * Z) :=
  match default_args (args c) with
  | inr _ => raise ValueError "Error: args must be an array, not a string"
  | inl a =>
      let* i := match interval c with
                | None =>
                    warning "poll interval param ought to be specified";;
                    pure 1
                | Some i => pure i
                end in
      let* r := match timeout c, retries c with
                | None, None =>
                    warning
                      "poll timeout or retries param ought to be specified";;
                    pure (Some 20)
                | _, r => pure r
                end in
      let* (r', t) :=
        match timeout c with
        | Some t =>
            if negb (t =? 0) then
              match int_div t i with
              | inl e => fun w => (Raise e, w)
              | inr n => pure (Some n, t)
              end
            else pure (r, 1000000)
        | None => pure (r, 1000000)
        end in
      let* st := time in
      pure (a, r', i, t, st)
  end.

(** The retry count the loop of [poll] works with, read off the
    statements before the loop (it is what [prologue] returns, see
    [prologue_inv]). *)
Definition effective_retries {R} (c : PollCall R) : option Z :=
  match timeout c with
  | Some t =>
      if negb (t =? 0) then
        match int_div t (default 1 (interval c)) with
        | inl _ => None
        | inr n => Some n
        end
      else retries c
  | None =>
      match retries c with
      | None => Some 20
      | Some r => Some r
      end
  end.

(** [next(gen)]. *)
Definition next {R} (g : Generator R) : M (Step (option R) * Generator R) :=
  match frame g with
  | Created =>
      let* (a, r, i, t, st) := prologue (call g) in
      loop_head (call g) a r i t 0 st
  | Suspended a r i t cur st =>
      (* current += 1; sleep(interval); back to the while test *)
      sleep i;;
      loop_head (call g) a r i t (cur + 1) st
  | Finished => pure (StopIteration, g)
  end.

(** How a loop body ends: fall through to the next iteration, [break],
    or [return] from the enclosing function.  [S] is the state of the
    local variables the loop assigns. *)
Inductive Flow (S A : Type) :=
| Next (s : S)
| Break (s : S)
| Return (a : A).
Arguments Next {S A} s.
Arguments Break {S A} s.
Arguments Return {S A} a.

(** How the whole [for] statement ends. *)
Inductive Completion (S A : Type) :=
| Normal (s : S)
| Returned (a : A).
Arguments Normal {S A} s.
Arguments Returned {S A} a.

(** [for y in gen: body / else: orelse], with a recursion budget. *)
Fixpoint for_else_fuel {R S A} (fuel : nat) (g : Generator R) (s : S)
    (body : S -> option R -> M (Flow S A))
    (orelse : S -> M (Completion S A)) : M (Completion S A) :=
  match fuel with
  | O => fun w => (OutOfFuel, w)
  | Datatypes.S n =>
      let* (step, g') := next g in
      match step with
      | StopIteration => orelse s
      | Yield y =>
          let* f := body s y in
          match f with
          | Next s' => for_else_fuel n g' s' body orelse
          | Break s' => pure (Normal s')
          | Return a => pure (Returned a)
          end
      end
  end.

(** An upper bound on the values a generator can still yield. *)
Definition attempts_left {R} (g : Generator R) : nat :=
  match frame g with
  | Created => Z.to_nat (default 0 (effective_retries (call g)))
  | Suspended _ r _ _ cur _ => Z.to_nat (default 0 r - cur - 1)
  | Finished => 0%nat
  end.

(** The [for] statement over a [poll] generator: the budget covers every
    value the generator can yield, and the final [StopIteration]. *)
Definition for_else {R S A} (g : Generator R) (s : S)
    (body : S -> option R -> M (Flow S A))
    (orelse : S -> M (Completion S A)) : M (Completion S A) :=
  for_else_fuel (Datatypes.S (attempts_left g)) g s body orelse.

(** The frames a generator can be in whose call has the argument list
    [a] and the interval [i]. *)
Definition frame_of_call (a : list string) (i : Z) (fr : Frame) : Prop :=
  match fr with
  | Created => True
  | Suspended a' _ i' _ _ _ => a' = a /\ i' = i
  | Finished => True
  end.

(** [list(itertools.islice(gen, n))]: the first [n] values of the
    generator, or all its values when it ends before; used to say what
    a loop over the generator has seen. *)
Fixpoint take_yields {R} (n : nat) (g : Generator R)
    : M (list (option R) * Generator R) :=
  match n with
  | O => pure ([], g)
  | Datatypes.S n' =>
      let* (step, g') := next g in
      match step with
      | StopIteration => pure ([], g')
      | Yield y =>
          let* (ys, g'') := take_yields n' g' in
          pure (y :: ys, g'')
      end
  end.

(** *** result_poll *)

(** One truthy entry of [callback_dict]: its ["func"] applied to its
    ["args"] and ["kwargs"], or nothing when the entry has no ["func"].
    What the function returns only goes to the debug log. *)
Record CallbackEntry := mkEntry { func : option (M unit) }.

(** [callback_dict]: the two entries [result_poll] looks up with
    [.get]; [None] stands for a missing or an empty entry. *)
Record CallbackDict := mkCallbacks {
  success : option CallbackEntry;
  failure : option CallbackEntry }.

(** [if callback_dict and callback_dict.get(key):
       LOG.debug(str(callback_dict[key]["func"](...)))]. *)
Definition run_callback (entry : option CallbackEntry) : M unit :=
  match entry with
  | None => pure tt
  | Some e =>
      match func e with
      | None => raise KeyError "func"
      | Some f => f
      end
  end.

(** [cnt * interval]; [interval] is still [None] here when the caller
    passed [None], although [poll] then works with 1. *)
Definition times_interval (cnt : Z) (interval : option Z) : M Z :=
  match interval with
  | Some i => pure (cnt * i)
  | None =>
      raise TypeError "unsupported operand type(s) for *: 'int' and 'NoneType'"
  end.

(** ["{}".format(args)] for the [args] of the modelled callers: a list
    of unicode strings without characters that [repr] escapes. *)
Definition fmt_args (a : Args) : string :=
  match a with
  | NoArgs => "None"
  | ArgList l => "[" +:+ join ", " (map (fun s => "u'" +:+ s +:+ "'") l)
                 +:+ "]"
  | ArgStr s => s
  end.

(** The body of the loop [for result in poll(...)] of [result_poll];
    the loop state is [cnt]. *)
Definition result_poll_attempt {R} `{EqDecision R} (expected_result : R)
    (interval : option Z) (callback_dict : option CallbackDict)
    (cnt : Z) (result : option R) : M (Flow Z Z) :=
  let cnt := cnt + 1 in
  if bool_decide (result = Some expected_result) then
    run_callback (callback_dict ≫= success);;
    let* elapsed := times_interval cnt interval in
    pure (Return elapsed)
  else pure (Next cnt).

(** [result_poll(function, expected_result, args=None, kwargs=None,
    retries=20, interval=1, timeout=None, callback_dict=None)].
    [show] and [function_repr] give the texts of [expected_result] and
    of the function object in the error message; [kwargs] is not passed
    by the modelled callers. *)
Definition result_poll {R} `{EqDecision R} (show : R -> string)
    (function_repr : string) (function : list string -> M R)
    (expected_result : R) (args : Args) (retries interval timeout : option Z)
    (callback_dict : option CallbackDict) : M Z :=
  let* c :=
    for_else
      (poll (mkPoll function args retries interval timeout [] None))
      0
      (result_poll_attempt expected_result interval callback_dict)
      (fun cnt => pure (Normal cnt)) in
  match c with
  | Returned elapsed => pure elapsed
  | Normal cnt =>
      run_callback (callback_dict ≫= failure);;
      let* elapsed := times_interval cnt interval in
      raise PollingException
        ("Expected Result: '" +:+ show expected_result
         +:+ "' not found for function: '" +:+ function_repr
         +:+ "' after '" +:+ str_of_int elapsed +:+ "' sec. args: "
         +:+ fmt_args args +:+ " , kwargs None")
  end.

End polling.
Export polling.

(** ** [qalib/client/iscsi.py]: class [ISCSIInitiator]

    Every method takes the [System] the initiator was built for.  The
    [with _ISCSIADM_SEMIS[self.system.name]:] blocks only bound how many
    commands run at once on a host; in this sequential embedding they
    have no effect and are left out. *)
Module iscsi.

Definition _DELETE_RETRY_COUNT : Z := 12.
Definition _DISCOVERY_RETRY_COUNT : Z := 5.
Definition _DISCOVERY_TIMEOUT : Z := 100.
Definition _ISCSIADM_RETRY_INTERVAL : Z := 5.
Definition _LOGOUT_RETRY_COUNT : Z := 12.
Definition MAX_ISCSI_WORKER : Z := 10.
Definition _UDEV_TIMEOUT : Z := 960.

Definition max_iscsi_worker (sys : System) : Z :=
  if on_hardware sys then MAX_ISCSI_WORKER else 1.

(** *** Text helpers *)

Definition is_digit (c : ascii) : bool :=
  (Ascii.leb "0" c && Ascii.leb c "9")%char.

(** The text after [p] when [s] starts with [p]. *)
Fixpoint strip_prefix (p s : string) : option string :=
  match p, s with
  | EmptyString, _ => Some s
  | String a p', String b s' =>
      if Ascii.eqb a b then strip_prefix p' s' else None
  | String _ _, EmptyString => None
  end.

(** The regex item [.*] followed by the rest of the pattern [k], which
    is given the text still to match.  [.] matches any character but a
    newline; the star is greedy, so the longest run is tried first and
    shorter ones on backtracking. *)
Fixpoint dot_star {A} (s : string) (k : string -> option A) : option A :=
  match s with
  | EmptyString => k EmptyString
  | String c rest =>
      if Ascii.eqb c LF then k s
      else match dot_star rest k with
           | Some r => Some r
           | None => k s
           end
  end.

(** The text up to the first newline: what a final [.*] captures. *)
Fixpoint to_eol (s : string) : string :=
  match s with
  | EmptyString => EmptyString
  | String c rest => if Ascii.eqb c LF then EmptyString
                     else String c (to_eol rest)
  end.

(** The first [n] characters. *)
Definition take_str (n : nat) (s : string) : string := String.substring 0 n s.

(** The two groups of [re.search(ip_iqn_pattern, line)], where the
    pattern is: start of text, a group made of a digit and [.*], a
    colon and [unicode(port)], [.*], and a group made of [iqn] and
    [.*]. *)
Definition search_ip_iqn (port : Z) (line : string)
    : option (string * string) :=
  match line with
  | EmptyString => None
  | String d rest =>
      if is_digit d then
        dot_star rest (fun s1 =>
          match strip_prefix (":" +:+ str_of_int port) s1 with
          | None => None
          | Some s2 =>
              dot_star s2 (fun s3 =>
                match strip_prefix "iqn" s3 with
                | None => None
                | Some s4 =>
                    Some (take_str (String.length line - String.length s1)
                                   line,
                          "iqn" +:+ to_eol s4)
                end)
          end)
      else None
  end.

(** The matches of [re.finditer(line_pattern, result)], the pattern
    being a group [.*] and a newline: every line that ends in a
    newline, with that newline; text after the last newline matches
    nothing. *)
Fixpoint finditer_lines (cur : string) (s : string) : list string :=
  match s with
  | EmptyString => []
  | String c rest =>
      if Ascii.eqb c LF then (cur +:+ nl) :: finditer_lines "" rest
      else finditer_lines (cur +:+ String c "") rest
  end.

(** [ip_iqn_dict]: keys [(ip, iqn)] with value [iqn], kept in the order
    of first insertion.  (CPython 2 iterates a dict in hash order; the
    properties below do not depend on the order.) *)
Definition ip_iqn_dict := list ((string * string) * string).

Definition setdefault (k : string * string) (v : string) (d : ip_iqn_dict)
    : ip_iqn_dict :=
  if bool_decide (k ∈ d.*1) then d else d ++ [(k, v)].

(** [_parse_discovery_result(result, port=3260)].  The two [assert]s of
    the source cannot fail: the first group holds at least the leading
    digit and the second starts with [iqn]. *)
Definition _parse_discovery_result (result : string) (port : Z)
    : ip_iqn_dict :=
  foldl (fun d line =>
           match search_ip_iqn port line with
           | Some (discovered_ip, discovered_iqn) =>
               setdefault (discovered_ip, discovered_iqn) discovered_iqn d
           | None => d
           end)
        [] (finditer_lines "" result).

(** [bool(set(iqns) <= set(discovered_iqns))]. *)
Definition _is_iqn_subset_of_discovered_iqns
    (iqns discovered_iqns : list string) : bool :=
  forallb (fun q => bool_decide (q ∈ discovered_iqns)) iqns.

(** *** The registries *)

(** [lst.remove(x)] for an [x] that occurs in [lst]: drops the first
    element equal to [x]. *)
Fixpoint remove_first (x : IscsiTarget) (l : list IscsiTarget)
    : list IscsiTarget :=
  match l with
  | [] => []
  | y :: l' => if bool_decide (y = x) then l' else y :: remove_first x l'
  end.

(** [for target in lst[:]: if test(target): lst.remove(target)]: the
    loop runs over the copy and mutates the list [cur] itself. *)
Definition remove_where (test : IscsiTarget -> bool)
    (copy cur : list IscsiTarget) : list IscsiTarget :=
  foldl (fun cur target => if test target then remove_first target cur
                           else cur) cur copy.
Arguments remove_where : simpl never.

(** The registration step shared by [discover], [login] and
    [_is_target_discovery_needed]: create the host's list on first use,
    append the target unless an equal one is there. *)
Definition register (host_name : string) (target : IscsiTarget)
    (reg : gmap string (list IscsiTarget)) : gmap string (list IscsiTarget) :=
  match reg !! host_name with
  | None => <[host_name := [target]]> reg
  | Some l => if bool_decide (target ∈ l) then reg
              else <[host_name := l ++ [target]]> reg
  end.

(** [remove_target_from_iscsi_loggedin_targets(iface_name)]. *)
Definition remove_target_from_iscsi_loggedin_targets (sys : System)
    (iface_name : option string) : M unit :=
  let* reg := get_loggedin in
  match reg !! name sys with
  | None => raise KeyError (name sys)
  | Some l =>
      set_loggedin
        (<[name sys :=
             remove_where (fun t => bool_decide (iface t = iface_name)) l l]>
           reg)
  end.

(** The loop of [remove_iscsi_loggedin_target_using_iqn] over the copy
    of the host's list; [cur] is the list being mutated.  With an
    address given, the first target matching both ends the loop. *)
Fixpoint remove_using_iqn_loop (ip : option string) (iqn_ : string)
    (copy cur : list IscsiTarget) : list IscsiTarget :=
  match copy with
  | [] => cur
  | target :: rest =>
      if String.eqb (iqn target) iqn_ then
        if truthy_opt ip then
          if bool_decide (system.ip target = ip)
          then remove_first target cur                       (* break *)
          else remove_using_iqn_loop ip iqn_ rest cur
        else remove_using_iqn_loop ip iqn_ rest (remove_first target cur)
      else remove_using_iqn_loop ip iqn_ rest cur
  end.

(** [remove_iscsi_loggedin_target_using_iqn(ip, iqn)].  The guard is
    [name in ISCSI_LOGGEDIN_TARGETS and not ISCSI_LOGGEDIN_TARGETS[name]]:
    the loop is entered when the host's list is empty. *)
Definition remove_iscsi_loggedin_target_using_iqn (sys : System)
    (ip : option string) (iqn_ : string) : M unit :=
  let* reg := get_loggedin in
  match reg !! name sys with
  | Some l =>
      if negb (truthy_list l) then
        set_loggedin (<[name sys := remove_using_iqn_loop ip iqn_ l l]> reg)
      else pure tt
  | None => pure tt
  end.

(** *** logout and delete *)

(** ["%s" % x] for a value that is still [None] before the first
    iteration of a loop. *)
Definition fmt_status (last : option (Z * string)) : string :=
  match last with
  | None => "None"
  | Some (ret, _) => str_of_int ret
  end.

Definition fmt_output (last : option (Z * string)) : string :=
  match last with
  | None => "None"
  | Some (_, output) => output
  end.

(** [self.system.run_cmd] applied to the unpacked [args] list, as
    [poll] calls it. *)
Definition run_cmd_args (sys : System) (args : list string)
    : M (Z * string) :=
  match args with
  | [cmd] => run_cmd sys cmd
  | _ => raise TypeError "run_cmd() takes exactly 2 arguments"
  end.

(** A [for ret, output in poll(...)] loop unpacks each yielded value; a
    yielded [None] cannot be unpacked. *)
Definition unpack {S A} (y : option (Z * string))
    (k : Z -> string -> M (Flow S A)) : M (Flow S A) :=
  match y with
  | None => raise TypeError "'NoneType' object is not iterable"
  | Some (ret, output) => k ret output
  end.

(** [poll(self.system.run_cmd, args=[cmd_str], retries=..., interval=...)],
    the way every method of this class calls [poll]. *)
Definition cmd_call (sys : System) (cmd_str : string) (retries interval : Z)
    : PollCall (Z * string) :=
  mkPoll (run_cmd_args sys) (ArgList [cmd_str]) (Some retries)
         (Some interval) None [] None.

(** The frames a generator of [cmd_call sys cmd_str retries interval]
    goes through. *)
Definition cmd_frame (cmd_str : string) (retries interval : Z) (fr : Frame)
    : Prop :=
  fr = Created \/ fr = Finished \/
  exists t cur st,
    fr = Suspended [cmd_str] (Some retries) interval t cur st.

Definition logout_cmd (iqn_ : string) (ip : option string) (port : Z)
    (iface_name : option string) : string :=
  join " "
    (["iscsiadm"; "-m"; "node"; "-T"; iqn_]
     ++ (if truthy_opt ip
         then ["-p"; default "" ip +:+ ":" +:+ str_of_int port] else [])
     ++ match iface_name with
        | Some i => ["-I"; i]
        | None => []
        end
     ++ ["--logout"]).

Definition logout_error_response : list string :=
  ["No matching sessions found"; "Could not read iface info for"].

Definition logout_error_code : list Z := [3; 7; 21].

Definition failed_msg (sys : System) (cmd_str : string)
    (last : option (Z * string)) : string :=
  name sys +:+ ": cmd:" +:+ cmd_str +:+ " failed with exit status:"
  +:+ fmt_status last +:+ ",output:" +:+ fmt_output last.

(** The body of the [for ret, output in poll(...)] loop of [logout]. *)
Definition logout_attempt (sys : System) (iqn_ : string)
    (ip : option string) (y : option (Z * string))
    : M (Flow (option (Z * string)) unit) :=
  unpack y (fun ret output =>
    let last := Some (ret, output) in
    if ret =? 0 then
      remove_iscsi_loggedin_target_using_iqn sys ip iqn_;;
      pure (Break last)
    else if bool_decide (ret ∈ logout_error_code)
            || bool_decide (output ∈ logout_error_response) then
      pure (Break last)                             (* already logged out *)
    else
      (if ret =? 6 then
         warning ("System " +:+ name sys
                  +:+ " temporary iSCSI DB logout error")
       else pure tt);;
      pure (Next last)).

(** The [else] clause of the loops of [logout] and [delete]. *)
Definition raise_failed (sys : System) (cmd_str : string)
    (last : option (Z * string)) : M (Completion (option (Z * string)) unit) :=
  raise EnvironmentError (failed_msg sys cmd_str last).

(** [logout(iqn, ip=None, port=3260, iface_name="default")]. *)
Definition logout (sys : System) (iqn_ : string) (ip : option string)
    (port : Z) (iface_name : option string) : M unit :=
  let cmd_str := logout_cmd iqn_ ip port iface_name in
  for_else
    (poll (cmd_call sys cmd_str _LOGOUT_RETRY_COUNT _ISCSIADM_RETRY_INTERVAL))
    None
    (fun _ y => logout_attempt sys iqn_ ip y)
    (raise_failed sys cmd_str);;
  pure tt.

Definition delete_cmd (iqn_ : string) (ip : option string) : string :=
  join " "
    (["iscsiadm"; "-m"; "node"; "-T"; iqn_]
     ++ (if truthy_opt ip then ["-p"; default "" ip] else [])
     ++ ["--op"; "delete"]).

(** The body of the [for ret, output in poll(...)] loop of [delete]. *)
Definition delete_attempt (sys : System) (y : option (Z * string))
    : M (Flow (option (Z * string)) unit) :=
  unpack y (fun ret output =>
    let last := Some (ret, output) in
    if ret =? 0 then pure (Break last)                          (* success *)
    else if (ret =? 21) || contains "No records found" output then
      pure (Break last)                                 (* already deleted *)
    else
      (if ret =? 6 then
         warning ("System " +:+ name sys
                  +:+ " temporary iSCSI DB delete error")
       else pure tt);;
      pure (Next last)).

(** The book-keeping at the end of [delete]: every target of the host
    with this IQN leaves [DISCOVERED_TARGETS]. *)
Definition delete_bookkeeping (sys : System) (iqn_ : string) : M unit :=
  let* reg := get_discovered in
  match reg !! name sys with
  | Some ((_ :: _) as l) =>
      set_discovered
        (<[name sys := remove_where (fun t => String.eqb (iqn t) iqn_) l l]>
           reg)
  | _ => pure tt
  end.

(** [delete(iqn, ip=None)]. *)
Definition delete (sys : System) (iqn_ : string) (ip : option string)
    : M unit :=
  let cmd_str := delete_cmd iqn_ ip in
  for_else
    (poll (cmd_call sys cmd_str _DELETE_RETRY_COUNT _ISCSIADM_RETRY_INTERVAL))
    None
    (fun _ y => delete_attempt sys y)
    (raise_failed sys cmd_str);;
  delete_bookkeeping sys iqn_.

(** *** discover *)

(** The [iqn] parameter of [discover]: absent, one IQN, or a list. *)
Inductive IqnArg :=
| IqnNone
| IqnStr (s : string)
| IqnList (l : list string).

(** ["%s" % iqn]; for a list, Python's [repr] of a list of unicode
    strings (written here for IQNs without quotes, backslashes or
    non-ASCII characters, which [repr] would escape). *)
Definition fmt_iqn (iqn_ : IqnArg) : string :=
  match iqn_ with
  | IqnNone => "None"
  | IqnStr s => s
  | IqnList l => "[" +:+ join ", " (map (fun s => "u'" +:+ s +:+ "'") l)
                 +:+ "]"
  end.

(** The registration loop of a successful attempt: every item of the
    dict whose IQN was asked for becomes a target of the host. *)
Definition register_matching (host_name : string) (iqns : list string)
    (port : Z) (iface_name : option string) (d : ip_iqn_dict)
    (reg : gmap string (list IscsiTarget)) : gmap string (list IscsiTarget) :=
  foldl (fun reg item =>
           match item with
           | ((ip, iqn_), v) =>
               if bool_decide (v ∈ iqns)
               then register host_name
                             (mkTarget (Some ip) port iqn_ iface_name) reg
               else reg
           end)
        reg d.

(** The end of an iteration that did not succeed: the test of
    [discover]'s own timeout. *)
Definition discover_retry_or_break (start_time timeout : Z)
    (last : option (Z * string)) : M (Flow (option (Z * string)) unit) :=
  let* t := time in
  if t - start_time >? timeout then pure (Break last)
  else pure (Next last).

(** The body of the [for status, result in gen] loop of [discover]. *)
Definition discover_attempt (sys : System) (iqns : list string) (port : Z)
    (iface_name : option string) (start_time timeout : Z)
    (y : option (Z * string)) : M (Flow (option (Z * string)) unit) :=
  unpack y (fun status result =>
    let last := Some (status, result) in
    if (status =? 0) && truthy result then
      let ip_iqn_dict := _parse_discovery_result result 3260 in
      if (List.length ip_iqn_dict =? 0)%nat then
        pure (Next last)                                     (* continue *)
      else if _is_iqn_subset_of_discovered_iqns iqns (ip_iqn_dict.*2) then
        let* reg := get_discovered in
        set_discovered
          (register_matching (name sys) iqns port iface_name ip_iqn_dict reg);;
        pure (Return tt)
      else discover_retry_or_break start_time timeout last
    else discover_retry_or_break start_time timeout last).



Definition discover_cmd (ip : string) (port : Z) : list string :=
  ["iscsiadm"; "-m"; "discovery"; "-t"; "sendtargets"; "-p";
   ip +:+ ":" +:+ str_of_int port].

(** [discover(ip, iqn=None, port=3260, iface_name="default",
    timeout=_DISCOVERY_TIMEOUT)]. *)
Definition discover (sys : System) (ip : string) (iqn_ : IqnArg) (port : Z)
    (iface_name : option string) (timeout : Z) : M unit :=
  let* (cmd, iqns) :=
    match iqn_ with
    | IqnList (q :: l) => pure (discover_cmd ip port, q :: l)
    | IqnStr s =>
        if truthy s then
          pure (discover_cmd ip port
                ++ (if truthy_opt iface_name
                    then ["-I"; default "" iface_name] else [])
                ++ ["|"; "grep"; s],
                [s])
        else raise EnvironmentError "iqn is required"
    | _ => raise EnvironmentError "iqn is required"
    end in
  let cmd_str := join " " cmd in
  let* start_time := time in
  for_else
    (poll (cmd_call sys cmd_str _DISCOVERY_RETRY_COUNT
                    _ISCSIADM_RETRY_INTERVAL))
    None
    (fun _ y =>
       discover_attempt sys iqns port iface_name start_time timeout y)
    (fun last =>
       raise EnvironmentError
         (name sys +:+ ": IQN:" +:+ fmt_iqn iqn_
          +:+ " not found in discovery result:" +:+ nl
          +:+ fmt_output last +:+ nl +:+ "with cmd: " +:+ cmd_str));;
  pure tt.

(** *** login *)

Definition login_cmd (iqn_ : string) (ip : option string) (port : Z)
    (iface_name : option string) : string :=
  join " "
    (["iscsiadm -m node -T"; iqn_]
     ++ (if truthy_opt ip
         then ["-p"; default "" ip +:+ ":" +:+ str_of_int port] else [])
     ++ (if truthy_opt iface_name
         then ["-I"; default "" iface_name] else [])
     ++ ["--login"]).

(** The body of the [for status, result in gen] loop of [login]. *)
Definition login_attempt (sys : System) (iqn_ : string)
    (ip : option string) (port : Z) (iface_name : option string)
    (y : option (Z * string)) : M (Flow (option (Z * string)) unit) :=
  unpack y (fun status result =>
    if status =? 0 then
      let* reg := get_loggedin in
      set_loggedin
        (register (name sys) (mkTarget ip port iqn_ iface_name) reg);;
      pure (Return tt)
    else if bool_decide (status ∈ [3; 8; 21]) then pure (Return tt)
    else pure (Next (Some (status, result)))).

(** [login(iqn, ip=None, port=3260, iface_name="default", timeout=20)].
    The loop has no [else]: the error after it reads [status] and
    [result], which are unbound when the generator yielded nothing. *)
Definition login (sys : System) (iqn_ : string) (ip : option string)
    (port : Z) (iface_name : option string) (timeout : Z) : M unit :=
  let cmd_str := login_cmd iqn_ ip port iface_name in
  let* c :=
    for_else
      (poll (cmd_call sys cmd_str timeout 1))
      None
      (fun _ y => login_attempt sys iqn_ ip port iface_name y)
      (fun last => pure (Normal last)) in
  match c with
  | Returned _ => pure tt
  | Normal None =>
      raise UnboundLocalError
        "local variable 'status' referenced before assignment"
  | Normal (Some (status, result)) =>
      raise EnvironmentError
        (name sys +:+ ": iSCSI login to IQN:" +:+ iqn_ +:+ " FAILED with"
         +:+ " status:" +:+ str_of_int status +:+ ", output=" +:+ result
         +:+ " using cmd:" +:+ cmd_str)
  end.

(** *** The task runner used by the batch operations *)

(** One task of the runner: its exception, if any, is caught and
    kept. *)
Definition run_task (task : M unit) : M (option exn) :=
  fun w =>
    match task w with
    | (Ret _, w') => (Ret None, w')
    | (Raise e, w') => (Ret (Some e), w')
    | (OutOfFuel, w') => (OutOfFuel, w')
    end.

Fixpoint run_tasks (tasks : list (M unit)) : M (list exn) :=
  match tasks with
  | [] => pure []
  | task :: rest =>
      let* failure := run_task task in
      let* failures := run_tasks rest in
      pure (match failure with
            | Some e => e :: failures
            | None => failures
            end)
  end.

(** Modelled from the spec: [Parallel(...).run_threads()] of
    [qalib/qabase/threading.py], which is not among the sources.  The
    runner attempts every task even when one fails and surfaces the
    failures afterwards as one aggregate error (the spec does not name
    its class; it is [AggregateFailure] here).  The tasks run here one
    after the other in list order, the schedule of a pool of one
    worker; the spec leaves the order within a batch open. *)
Definition run_threads (tasks : list (M unit)) (max_workers : Z) : M unit :=
  let* failures := run_tasks tasks in
  match failures with
  | [] => pure tt
  | _ => raise AggregateFailure (join "; " (map exn_msg failures))
  end.

(** *** login_all_targets *)

(** The [args_list] built by [login_all_targets]: one entry per target
    of the host's discovered list. *)
Definition login_args_list (discovered : list IscsiTarget)
    : list (string * option string * Z * option string) :=
  map (fun target => (iqn target, ip target, 3260, iface target)) discovered.

Definition fmt_opt (s : option string) : string := default "None" s.

(** [login_all_targets(udev_timeout=_UDEV_TIMEOUT,
    iface_name="default")]. *)
Definition login_all_targets (sys : System) (udev_timeout : Z)
    (iface_name : option string) : M unit :=
  let* reg := get_discovered in
  match reg !! name sys with
  | None => raise KeyError (name sys)
  | Some discovered =>
      let targets :=
        List.filter (fun target => bool_decide (iface target = iface_name))
                    discovered in
      (if (List.length targets =? 0)%nat then
         warning ("Num of discovered targets with iface_name "
                  +:+ fmt_opt iface_name +:+ " is 0")
       else pure tt);;
      run_threads
        (map (fun a => match a with
                       | (iqn_, ip, port, iface_name) =>
                           login sys iqn_ ip port iface_name 20
                       end)
             (login_args_list discovered))
        (max_iscsi_worker sys);;
      run_cmd_check sys
        ("sleep 1 ; udevadm trigger ; sleep 1 ; udevadm settle --timeout="
         +:+ str_of_int udev_timeout);;
      pure tt
  end.

(** *** force_logout_all and destroy_iface *)

(** [("No matching sessions found" or
      "Could not read iface info for" in output)]: Python reads it as
    [A or (B in output)], and [A or X] is [A] when [A] is true. *)
Definition force_logout_benign (output : string) : bool :=
  truthy "No matching sessions found"
  || contains "Could not read iface info for" output.

(** [force_logout_all(iface_name="default")]. *)
Definition force_logout_all (sys : System) (iface_name : option string)
    : M unit :=
  let cmd_str :=
    join " " (["iscsiadm"; "-m"; "node"]
              ++ (if truthy_opt iface_name
                  then ["-I"; default "" iface_name] else [])
              ++ ["-u"; "all"]) in
  let* (ret, output) := run_cmd sys cmd_str in
  if negb (ret =? 0) then
    if force_logout_benign output then pure tt
    else raise EnvironmentError (failed_msg sys cmd_str (Some (ret, output)))
  else if truthy_opt iface_name then
    let* reg := get_loggedin in
    match reg !! name sys with
    | Some (_ :: _) =>
        remove_target_from_iscsi_loggedin_targets sys iface_name
    | _ => pure tt
    end
  else
    let* reg := get_loggedin in
    match reg !! name sys with
    | Some _ => set_loggedin (base.delete (name sys) reg)
    | None => raise KeyError (name sys)
    end.

(** [("Could not delete iface" or "Could not read iface info" in out)]. *)
Definition destroy_iface_benign (out : string) : bool :=
  truthy "Could not delete iface" || contains "Could not read iface info" out.

(** The [while retries > 0] loop of [destroy_iface]; [retries] only
    goes down on the busy status 6, and every other status leaves the
    loop. *)
Fixpoint destroy_iface_loop (sys : System) (cmd : string) (retries : nat)
    : M (Completion unit unit) :=
  match retries with
  | O => pure (Normal tt)
  | Datatypes.S retries' =>
      let* (ret, out) := run_cmd sys cmd in
      if ret =? 0 then pure (Normal tt)                          (* break *)
      else if ret =? 6 then
        sleep 5;;
        destroy_iface_loop sys cmd retries'
      else if destroy_iface_benign out then pure (Returned tt)
      else
        raise EnvironmentError
          ("Command failed ($?=" +:+ str_of_int ret +:+ " on" +:+ name sys
           +:+ ":" +:+ nl +:+ " " +:+ cmd +:+ " " +:+ nl +:+ " " +:+ out)
  end.

Definition destroy_iface_cmd (iface_name : string) : string :=
  "iscsiadm -m iface -I " +:+ iface_name +:+ " -o delete".

(** [destroy_iface(iface_name)]. *)
Definition destroy_iface (sys : System) (iface_name : string) : M unit :=
  force_logout_all sys (Some iface_name);;
  let* c := destroy_iface_loop sys (destroy_iface_cmd iface_name) 10 in
  match c with
  | Returned _ => pure tt
  | Normal _ =>
      (* remove the targets from discovered list *)
      let* reg := get_discovered in
      match reg !! name sys with
      | Some ((_ :: _) as l) =>
          set_discovered
            (<[name sys :=
                 remove_where
                   (fun t => bool_decide (iface t = Some iface_name)) l l]>
               reg)
      | _ => pure tt
      end
  end.

(** What a run of [login] for [target] may have done to the registries
    of world [w] when it has reached world [w0]: the discovered targets
    and the other hosts' lists are as they were, the host's logged-in
    list has lost nothing, has gained at most [target], and has no
    duplicate if it had none. *)
Definition login_frame (sys : System) (target : IscsiTarget) (w w0 : World)
    : Prop :=
  DISCOVERED_TARGETS w0 = DISCOVERED_TARGETS w /\
  (forall h, h <> name sys ->
     ISCSI_LOGGEDIN_TARGETS w0 !! h = ISCSI_LOGGEDIN_TARGETS w !! h) /\
  (forall t, t ∈ default [] (ISCSI_LOGGEDIN_TARGETS w !! name sys) ->
     t ∈ default [] (ISCSI_LOGGEDIN_TARGETS w0 !! name sys)) /\
  (forall t, t ∈ default [] (ISCSI_LOGGEDIN_TARGETS w0 !! name sys) ->
     t ∈ default [] (ISCSI_LOGGEDIN_TARGETS w !! name sys) \/ t = target) /\
  (NoDup (default [] (ISCSI_LOGGEDIN_TARGETS w !! name sys)) ->
   NoDup (default [] (ISCSI_LOGGEDIN_TARGETS w0 !! name sys))).

(** The command line [force_logout_all] builds. *)
Definition force_logout_all_cmd (iface_name : option string) : string :=
  join " " (["iscsiadm"; "-m"; "node"]
            ++ (if truthy_opt iface_name
                then ["-I"; default "" iface_name] else [])
            ++ ["-u"; "all"]).

(** *** The batch operations on the registries *)

(** [list(set(ifaces))]: the distinct elements of [ifaces], in the
    order in which the interpreter's set hands them out.  The order is
    left open: a [SetOrder] is any function from the list to the list
    iterated over, and what is proved of the batch operations holds for
    every such function. *)
Definition SetOrder : Type := list (option string) -> list (option string).

(** The interfaces collected by [logout_all_targets] and
    [delete_all_targets]: [target.iface] of every target whose
    interface is not ["default"] (an interface of [None] is not). *)
Definition non_default_ifaces (targets : list IscsiTarget)
    : list (option string) :=
  map iface
      (List.filter (fun target =>
                      negb (bool_decide (iface target = Some "default")))
                   targets).

(** The loop [for iface in unique_ifaces] of [delete_all_targets]:
    ["default" not in iface] is a substring test, and fails on
    [None]. *)
Fixpoint destroy_ifaces (sys : System) (unique_ifaces : list (option string))
    : M unit :=
  match unique_ifaces with
  | [] => pure tt
  | iface :: rest =>
      match iface with
      | None =>
          raise TypeError "argument of type 'NoneType' is not iterable"
      | Some i =>
          (if negb (contains "default" i) then destroy_iface sys i
           else pure tt);;
          destroy_ifaces sys rest
      end
  end.

(** The loop [for target in DISCOVERED_TARGETS[name][:]] of
    [delete_all_targets], over the copy of the list. *)
Fixpoint delete_each (sys : System) (copy : list IscsiTarget) : M unit :=
  match copy with
  | [] => pure tt
  | target :: rest =>
      delete sys (iqn target) (ip target);;
      delete_each sys rest
  end.

(** [delete_all_targets()]. *)
Definition delete_all_targets (set_order : SetOrder) (sys : System) : M unit :=
  let* reg := get_discovered in
  match reg !! name sys with
  | None => pure tt
  | Some discovered =>
      destroy_ifaces sys (set_order (non_default_ifaces discovered));;
      let* reg := get_discovered in
      match reg !! name sys with
      | Some ((_ :: _) as l) => delete_each sys l
      | _ => pure tt
      end
  end.

(** The loop [for iface in unique_ifaces] of [logout_all_targets];
    [' '.join(cmd)] fails on an interface of [None]. *)
Fixpoint logout_ifaces (sys : System) (unique_ifaces : list (option string))
    : M unit :=
  match unique_ifaces with
  | [] => pure tt
  | iface :: rest =>
      match iface with
      | None =>
          raise TypeError
            "sequence item 3: expected string or Unicode, NoneType found"
      | Some i =>
          let cmd_str := join " " ["iscsiadm"; "-m node"; "-I"; i; "-u"] in
          let* (ret, out) := run_cmd sys cmd_str in
          let* reg := get_loggedin in
          (if (ret =? 0) && bool_decide (is_Some (reg !! name sys))
           then remove_target_from_iscsi_loggedin_targets sys (Some i)
           else pure tt);;
          logout_ifaces sys rest
      end
  end.

(** The [args_list] built by [logout_all_targets]. *)
Definition logout_args_list (loggedin : list IscsiTarget)
    : list (string * option string * Z * option string) :=
  map (fun target => (iqn target, ip target, 3260, iface target)) loggedin.

(** [logout_all_targets()]. *)
Definition logout_all_targets (set_order : SetOrder) (sys : System) : M unit :=
  let* reg := get_loggedin in
  match reg !! name sys with
  | None => pure tt
  | Some loggedin =>
      logout_ifaces sys (set_order (non_default_ifaces loggedin));;
      let* reg := get_loggedin in
      match reg !! name sys with
      | Some ((_ :: _) as l) =>
          set_loggedin (base.delete (name sys) reg);;
          run_threads
            (map (fun a => match a with
                           | (iqn_, ip, port, iface_name) =>
                               logout sys iqn_ ip port iface_name
                           end)
                 (logout_args_list l))
            (max_iscsi_worker sys)
      | _ => pure tt
      end
  end.

(** [discover_all_targets(targets, iface_name="default",
    iscsi_redirect=None)]; [targets] holds tuples [(ip, port, iqn)].
    With [iscsi_redirect is True] the one call of [discover] uses
    [tgt_ip] and [tgt_port] as the loop over [targets] left them: those
    of the last target, and unbound when the list is empty.  The other
    branch gives the runner no [max_workers]; the runner modelled here
    does not use it. *)
Definition discover_all_targets (sys : System)
    (targets : list (string * Z * string)) (iface_name : option string)
    (iscsi_redirect : bool) : M unit :=
  if iscsi_redirect then
    let tgt_iqns := map (fun target => target.2) targets in
    match last targets with
    | None =>
        raise UnboundLocalError
          "local variable 'tgt_ip' referenced before assignment"
    | Some (tgt_ip, tgt_port, _) =>
        discover sys tgt_ip (IqnList tgt_iqns) tgt_port iface_name
                 _DISCOVERY_TIMEOUT
    end
  else
    run_threads
      (map (fun target => match target with
                          | (tgt_ip, tgt_port, tgt_iqn) =>
                              discover sys tgt_ip (IqnStr tgt_iqn) tgt_port
                                       iface_name _DISCOVERY_TIMEOUT
                          end)
           targets)
      (Z.of_nat (List.length targets)).

End iscsi.
Export iscsi.

(** ** [qalib/corelibs/ssh/__init__.py] *)
Module ssh.

(** *** [SSH._open_transport] *)

Record SSH := mkSSH {
  _hname : string;
  _uname : option string;
  _passwd : option string;
  _port : Z }.

(** What one pass through the [try] block meets: paramiko builds and
    connects a transport (named here by a number), or one of
    [paramiko.Transport(hostname)], [set_keepalive], [connect] raises. *)
Inductive Outcome :=
| Connected (transport : nat)
| Failed (e : exn).

(** The network and the server: the outcome of the [attempt]-th try,
    given the host string, user name and password handed to paramiko. *)
Definition Network :=
  nat -> string -> option string -> option string -> Outcome.

(** What [_open_transport] leaves behind: the host strings it tried to
    connect to, the naps it took (seconds), and its log records. *)
Record Trace := mkTrace {
  tried : list string;
  slept : list Q;
  errors : list string;
  warned : list string }.

Definition no_trace : Trace := mkTrace [] [] [] [].

Definition banner_error : string := "Error reading SSH protocol banner".

(** The one outcome [_open_transport] answers with a new try: an
    exception that reaches the [except paramiko.SSHException] clause
    (so neither a [socket.error] nor a [BadAuthenticationType], which
    the clauses before it take) and whose text holds the banner
    error. *)
Definition is_banner_failure (o : Outcome) : bool :=
  match o with
  | Connected _ => false
  | Failed ex =>
      negb (isinstance ex [socket_error])
      && negb (isinstance ex [BadAuthenticationType])
      && isinstance ex [SSHException]
      && contains banner_error (exn_msg ex)
  end.

(** What the call gives back when a try ends it. *)
Definition final_result (o : Outcome) : Result nat :=
  match o with
  | Connected transport => Ret transport
  | Failed ex => Raise ex
  end.

Definition retry_warning : string :=
  "Paramiko will log s stacktrace for this.  " +:+ "We will retry this call.".

(** [hostname] as the [try] block computes it. *)
Definition transport_hostname (self : SSH) : string :=
  if negb (_port self =? 22)
  then _hname self +:+ ":" +:+ str_of_int (_port self)
  else _hname self.

(** [for attempt in xrange(retry_attemps)] from [attempt] on, with
    [remaining] passes left; [uniform k] is the [k]-th value drawn by
    [random.uniform(.100, .200)]. *)
Fixpoint open_transport_loop (self : SSH) (net : Network)
    (uniform : nat -> Q) (remaining attempt : nat) (tr : Trace)
    : Result nat * Trace :=
  match remaining with
  | O =>
      (Raise (Exn ConnectionError
                  ("After 100 attempts, failed to connect to "
                   +:+ _hname self)), tr)
  | Datatypes.S remaining' =>
      let hostname := transport_hostname self in
      let tr1 := mkTrace (tried tr ++ [hostname]) (slept tr) (errors tr)
                         (warned tr) in
      match net attempt hostname (_uname self) (_passwd self) with
      | Connected transport => (Ret transport, tr1)
      | Failed ex =>
          if isinstance ex [socket_error] then
            (Raise ex,
             mkTrace (tried tr1) (slept tr1)
                     (errors tr1 ++
                      ["Could not connect: hostname: " +:+ _hname self
                       +:+ " username: " +:+ default "None" (_uname self)
                       +:+ ", port "
                       +:+ str_of_int (_port self)])
                     (warned tr1))
          else if isinstance ex [BadAuthenticationType] then
            (Raise ex,
             mkTrace (tried tr1) (slept tr1)
                     (errors tr1 ++
                      ["Bad Authentication: username: "
                       +:+ default "None" (_uname self)
                       +:+ ", password: ******"])
                     (warned tr1))
          else if isinstance ex [SSHException] then
            if contains banner_error (exn_msg ex) then
              open_transport_loop self net uniform remaining'
                (Datatypes.S attempt)
                (mkTrace (tried tr1)
                         (slept tr1 ++ [uniform (List.length (slept tr1))])
                         (errors tr1)
                         (warned tr1 ++ [retry_warning]))
            else (Raise ex, tr1)
          else (Raise ex, tr1)
      end
  end.

Definition retry_attemps : nat := 100.

(** [SSH._open_transport()]. *)
Definition _open_transport (self : SSH) (net : Network) (uniform : nat -> Q)
    : Result nat * Trace :=
  open_transport_loop self net uniform retry_attemps 0 no_trace.

(** *** [Async]: the output cache and its read cursor *)

(** The two attributes [read] and [output] use.  [_output_cache] is the
    one list object shared with the background thread [_recv_thread],
    which appends a block [[data]] for every chunk it receives. *)
Record Async := mkAsync {
  _output_cache : list (list string);
  _last_read_pointer : nat }.

(** [Async.__init__]: empty cache, cursor at 0. *)
Definition started : Async := mkAsync [] 0.

(** One pass of the loop of [_recv_thread] that received [data]:
    [self._output_cache.append([data])]. *)
Definition recv_block (data : string) (self : Async) : Async :=
  mkAsync (_output_cache self ++ [[data]]) (_last_read_pointer self).

Definition recv_blocks (chunks : list string) (self : Async) : Async :=
  foldl (fun a data => recv_block data a) self chunks.

(** [''.join(parts)]. *)
Definition concat_str (parts : list string) : string :=
  foldr String.append "" parts.

(** The [output] property. *)
Definition output_of (self : Async) : string :=
  concat_str (List.concat (_output_cache self)).

(** The chunks the background thread appends while one [read] call is
    running: after the test [if self._output_cache], after the test of
    the cursor against [len(local_cache)], and after the slice was
    taken but before the cursor is stored.  When [read] leaves early,
    the chunks of the points it did not reach arrive as it returns. *)
Record Arrivals := mkArrivals {
  before_test : list string;
  before_slice : list string;
  before_store : list string }.

Definition quiet : Arrivals := mkArrivals [] [] [].

(** [Async.read()].  [local_cache = self._output_cache] binds a second
    name to the shared list, it does not copy it: the slice and the
    later [len(local_cache)] both look at the list as it is at that
    moment. *)
Definition read (during : Arrivals) (self : Async) : string * Async :=
  if bool_decide (_output_cache self = []) then
    ("", recv_blocks (before_test during ++ before_slice during
                      ++ before_store during) self)
  else
    let a1 := recv_blocks (before_test during) self in
    if (_last_read_pointer a1 <? List.length (_output_cache a1))%nat then
      let a2 := recv_blocks (before_slice during) a1 in
      let out :=
        List.concat (drop (_last_read_pointer a2) (_output_cache a2)) in
      let output := concat_str out in
      let a3 := recv_blocks (before_store during) a2 in
      (output, mkAsync (_output_cache a3) (List.length (_output_cache a3)))
    else ("", recv_blocks (before_slice during ++ before_store during) a1).

(** What happens to a handle, as seen from outside: the thread receives
    a chunk, or the owner calls [read]. *)
Inductive Event :=
| Recv (data : string)
| Read (during : Arrivals).

(** Runs the events in order; gives the values returned by the [read]
    calls, oldest first, and the handle afterwards. *)
Fixpoint run (events : list Event) (self : Async) : list string * Async :=
  match events with
  | [] => ([], self)
  | Recv data :: rest => run rest (recv_block data self)
  | Read during :: rest =>
      let (value, self') := read during self in
      let (values, final) := run rest self' in
      (value :: values, final)
  end.

(** *** [Async._recv_pid_line] *)

Definition CR : ascii := "013"%char.

(** A byte below 128. *)
Definition is_ascii (c : ascii) : bool :=
  match c with
  | Ascii _ _ _ _ _ _ _ b7 => negb b7
  end.

(** How [_recv_pid_line] ends: it returns [buf] and leaves the rest of
    the bytes in the channel; or [buf += data] fails, [buf] being a
    unicode string and [data] a byte that the ascii codec cannot
    decode. *)
Inductive PidLine :=
| Line (buf : string) (channel : string)
| UnicodeDecodeError (data : ascii).

(** The loop of [_recv_pid_line]; [channel] holds the bytes still to
    come, [channel.recv(1)] takes the first of them and gives the empty
    string when there is none. *)
Fixpoint recv_pid_loop (buf : string) (channel : string) : PidLine :=
  match channel with
  | EmptyString => Line buf EmptyString
  | String data rest =>
      if Ascii.eqb data LF || Ascii.eqb data CR then Line buf rest
      else if is_ascii data then recv_pid_loop (buf +:+ String data "") rest
      else UnicodeDecodeError data
  end.

Definition _recv_pid_line (channel : string) : PidLine :=
  recv_pid_loop "" channel.

(** *** [InteractiveSSH]: cleaning the text read from the shell *)

(** [re.sub("\r+", "\r", data)]: every run of carriage returns becomes
    one; written as dropping each carriage return that another one
    follows. *)
Fixpoint collapse_cr (data : string) : string :=
  match data with
  | EmptyString => EmptyString
  | String c rest =>
      if Ascii.eqb c CR then
        match rest with
        | String c' _ =>
            if Ascii.eqb c' CR then collapse_cr rest
            else String CR (collapse_cr rest)
        | EmptyString => String CR EmptyString
        end
      else String c (collapse_cr rest)
  end.

(** [re.sub("\r\n", "\n", output)]. *)
Fixpoint crlf_to_lf (output : string) : string :=
  match output with
  | EmptyString => EmptyString
  | String c rest =>
      if Ascii.eqb c CR then
        match rest with
        | String c' rest' =>
            if Ascii.eqb c' LF then String LF (crlf_to_lf rest')
            else String c (crlf_to_lf rest)
        | EmptyString => String c EmptyString
        end
      else String c (crlf_to_lf rest)
  end.

(** [_cleanup_line_feeds(data)]. *)
Definition _cleanup_line_feeds (data : string) : string :=
  crlf_to_lf (collapse_cr data).

Definition ESC : ascii := "027"%char.

(** The regex class [\w] without the UNICODE and LOCALE flags: letters,
    digits and the underscore. *)
Definition is_word (c : ascii) : bool :=
  is_digit c
  || (Ascii.leb "a" c && Ascii.leb c "z")%char
  || (Ascii.leb "A" c && Ascii.leb c "Z")%char
  || Ascii.eqb c "_".

(** The length of the longest run of digits at the head of the text. *)
Fixpoint digits_run (s : string) : nat :=
  match s with
  | EmptyString => O
  | String c rest => if is_digit c then Datatypes.S (digits_run rest) else O
  end.

(** The length of the match of the pattern of [_strip_ansi_sequences]
    at the head of the text, if it matches there: the escape character,
    an opening square bracket, an optional group of one or more digits,
    and one [\w].  The group is greedy: it takes the whole run of [n]
    digits when a [\w] follows the run; otherwise the regex engine
    backs off by one digit and lets the [\w] match the last digit of
    the run. *)
Definition ansi_match (s : string) : option nat :=
  match s with
  | String e (String b rest) =>
      if Ascii.eqb e ESC && Ascii.eqb b "[" then
        let n := digits_run rest in
        match String.get n rest with
        | Some c =>
            if is_word c then Some (2 + n + 1)%nat
            else if (0 <? n)%nat then Some (2 + n)%nat else None
        | None => if (0 <? n)%nat then Some (2 + n)%nat else None
        end
      else None
  | _ => None
  end.

(** [ansi_escape.sub('', data)] from left to right: [skip] counts the
    characters of the current match that are still to be dropped. *)
Fixpoint strip_from (skip : nat) (data : string) : string :=
  match data with
  | EmptyString => EmptyString
  | String c rest =>
      match skip with
      | Datatypes.S k => strip_from k rest
      | O =>
          match ansi_match data with
          | Some len => strip_from (len - 1) rest
          | None => String c (strip_from 0 rest)
          end
      end
  end.

(** [_strip_ansi_sequences(data)]. *)
Definition _strip_ansi_sequences (data : string) : string :=
  strip_from 0 data.

(** [_cleanup_buffer_output(data)]. *)
Definition _cleanup_buffer_output (data : string) : string :=
  _cleanup_line_feeds (_strip_ansi_sequences data).

(** *** Predicates on text used to state what these functions do *)

(** Every byte of the text is ASCII and none ends a line. *)
Fixpoint pid_text (line : string) : bool :=
  match line with
  | EmptyString => true
  | String c rest =>
      is_ascii c && negb (Ascii.eqb c LF) && negb (Ascii.eqb c CR)
      && pid_text rest
  end.

(** Every character of the text is a digit. *)
Fixpoint all_digits (s : string) : bool :=
  match s with
  | EmptyString => true
  | String c rest => is_digit c && all_digits rest
  end.

(** The text starts with the character [b]. *)
Definition head_is (b : ascii) (s : string) : bool :=
  match s with
  | EmptyString => false
  | String c _ => Ascii.eqb c b
  end.

(** Somewhere in the text the character [a] is directly followed by
    [b]. *)
Fixpoint follows (a b : ascii) (s : string) : bool :=
  match s with
  | EmptyString => false
  | String c rest => (Ascii.eqb c a && head_is b rest) || follows a b rest
  end.

(** The character occurs in the text. *)
Fixpoint occurs (a : ascii) (s : string) : bool :=
  match s with
  | EmptyString => false
  | String c rest => Ascii.eqb c a || occurs a rest
  end.

(** *** [Async]: kill, wait and the clean-up *)

(** The attributes of an [Async] object that [kill] and [wait] use.
    [_thread] says whether [self._thread] is a thread (and not
    [None]); transport and session are named by numbers. *)
Record Handle := mkHandle {
  _tp : option nat;
  _session : option nat;
  _thread : bool;
  _pid : option Z;
  _exit_status : option Z }.

(** What the object asks of the connection, in order: a new session
    that runs the kill command and is closed, the exit status of the
    command's session, the end of the output thread, the closing of
    the command's session and of the transport. *)
Inductive Op :=
| KillCmd (killcmd : string)
| RecvExitStatus
| JoinThread
| CloseSession
| CloseTransport.

(** How a call on the object can fail: an attribute of [None] is used,
    or [_open_session_with_timeout] raises. *)
Inductive AsyncError :=
| AttributeError
| SessionError (e : exn).

Definition AsyncState : Type := Handle * list Op.

(** [_wait_for_exit_status()]: asks the session only while no status
    is stored; [remote_status] is what the session answers. *)
Definition _wait_for_exit_status (remote_status : Z) (st : AsyncState)
    : AsyncError + (Z * AsyncState) :=
  let (self, ops) := st in
  match _exit_status self with
  | Some s => inr (s, st)
  | None =>
      match _session self with
      | None => inl AttributeError
      | Some _ =>
          inr (remote_status,
               (mkHandle (_tp self) (_session self) (_thread self)
                         (_pid self) (Some remote_status),
                ops ++ [RecvExitStatus]))
      end
  end.

(** [str(self._pid)]. *)
Definition fmt_pid (pid : option Z) : string :=
  match pid with
  | None => "None"
  | Some p => str_of_int p
  end.

(** [_kill_cmd()]; [open_session] is how its calls on the connection
    end: [None] when the session opens, runs the kill command and is
    closed, else the exception of the call that raised. *)
Definition _kill_cmd (open_session : option exn) (st : AsyncState)
    : AsyncError + AsyncState :=
  let (self, ops) := st in
  match open_session with
  | Some e => inl (SessionError e)
  | None =>
      inr (self,
           ops ++ [KillCmd ("kill -9 $(pstree " +:+ fmt_pid (_pid self)
                            +:+ " -p -a -l"
                            +:+ " | cut -d, -f2 | cut -d' ' -f1)")])
  end.

(** [_close_and_cleanup()]. *)
Definition _close_and_cleanup (st : AsyncState) : AsyncState :=
  let (self, ops) := st in
  let ops1 := if _thread self then ops ++ [JoinThread] else ops in
  let ops2 := match _session self with
              | Some _ => ops1 ++ [CloseSession]
              | None => ops1
              end in
  let ops3 := match _tp self with
              | Some _ => ops2 ++ [CloseTransport]
              | None => ops2
              end in
  (mkHandle None None false None (_exit_status self), ops3).

(** [kill()]. *)
Definition kill (open_session : option exn) (remote_status : Z)
    (st : AsyncState) : AsyncError + AsyncState :=
  if negb (_thread (fst st)) then inr st                 (* already killed *)
  else
    match _kill_cmd open_session st with
    | inl err => inl err
    | inr st1 =>
        match _wait_for_exit_status remote_status st1 with
        | inl err => inl err
        | inr (_, st2) => inr (_close_and_cleanup st2)
        end
    end.

(** [wait()]: gives [self._exit_status]. *)
Definition wait (remote_status : Z) (st : AsyncState)
    : AsyncError + (option Z * AsyncState) :=
  match _wait_for_exit_status remote_status st with
  | inl err => inl err
  | inr (_, st1) =>
      let st2 := _close_and_cleanup st1 in
      inr (_exit_status (fst st2), st2)
  end.

(** The calls a user of the object makes after it was started. *)
Inductive Call :=
| Kill
| Wait.

(** Runs the calls in order, as long as none fails; gives what the
    [wait] calls returned, oldest first. *)
Fixpoint calls (open_session : option exn) (remote_status : Z)
    (cs : list Call) (st : AsyncState)
    : AsyncError + (list (option Z) * AsyncState) :=
  match cs with
  | [] => inr ([], st)
  | Kill :: rest =>
      match kill open_session remote_status st with
      | inl err => inl err
      | inr st1 => calls open_session remote_status rest st1
      end
  | Wait :: rest =>
      match wait remote_status st with
      | inl err => inl err
      | inr (value, st1) =>
          match calls open_session remote_status rest st1 with
          | inl err => inl err
          | inr (values, st2) => inr (value :: values, st2)
          end
      end
  end.

(** The object as [__init__] leaves it when [_exec_command] went
    through; [cached] is the exit status, if the output thread has
    reached the end of the stream and stored it already. *)
Definition running (tp session : nat) (pid : Z) (cached : option Z)
    : AsyncState :=
  (mkHandle (Some tp) (Some session) true (Some pid) cached, []).

End ssh.
Export ssh.

(** ** [qalib/qabase/networking.py] *)
Module networking.

(** How one call of [socket.gethostbyname(hostname)] ends: with the
    address, or with an exception and the [errno] attribute it carries
    ([None] when it has none).  [socket.gaierror] is a [socket.error];
    both are the class [socket_error] here. *)
Inductive Lookup :=
| Resolved (ip : string)
| LookupFailed (errno : option Z) (e : exn).

(** The name service: the outcome of the [attempts]-th lookup (counted
    from 1, as the function counts them) of a host name. *)
Definition Resolver : Type := nat -> string -> Lookup.

(** [socket.EAI_AGAIN] on Linux. *)
Definition EAI_AGAIN : Z := -3.

Definition attempts_max : nat := 30.

(** The failure the function answers with a new lookup two seconds
    later: a [socket.error] whose [errno] is [EAI_AGAIN]. *)
Definition is_transient (l : Lookup) : bool :=
  match l with
  | Resolved _ => false
  | LookupFailed errno e =>
      isinstance e [socket_error] && bool_decide (errno = Some EAI_AGAIN)
  end.

(** What the call gives back when a lookup ends it. *)
Definition lookup_result (l : Lookup) : Result string :=
  match l with
  | Resolved ip => Ret ip
  | LookupFailed _ e => Raise e
  end.

(** The [while True] loop of [gethostbyname_retry], entered with
    [attempts] lookups done. *)
Fixpoint gethostbyname_loop (resolver : Resolver) (hostname : string)
    (fuel attempts : nat) : M string :=
  match fuel with
  | O => fun w => (OutOfFuel, w)
  | Datatypes.S fuel' =>
      let attempts := Datatypes.S attempts in
      match resolver attempts hostname with
      | Resolved ip => pure ip
      | LookupFailed errno e =>
          if isinstance e [socket_error] then
            if bool_decide (errno = Some EAI_AGAIN)
               && (attempts <=? attempts_max)%nat
            then sleep 2;;
                 gethostbyname_loop resolver hostname fuel' attempts
            else fun w => (Raise e, w)
          else fun w => (Raise e, w)
      end
  end.

(** [gethostbyname_retry(hostname)].  The loop has no bound of its own
    in the source; the budget given here is never used up (see
    [gethostbyname_retry_bounded]). *)
Definition gethostbyname_retry (resolver : Resolver) (hostname : string)
    : M string :=
  gethostbyname_loop resolver hostname (Datatypes.S attempts_max) 0.

End networking.
Export networking.

(** ** [qalib/qabase/algorithms.py] *)
Module algorithms.

Section round_robin.
(** Workers are any hashable objects, targets any objects. *)
Context {K T : Type} `{Countable K}.
(** [repr(worker)], for the text of a [KeyError]. *)
Variable repr : K -> string.
(** [random.shuffle] on the copy of the worker list: the order the
    random generator leaves it in. *)
Variable shuffle : list K -> list K.

(** [for worker in worker_list: ret[worker] = []], from [ret = {}]. *)
Definition empty_hands (worker_list : list K) : gmap K (list T) :=
  foldl (fun ret worker => <[worker := []]> ret) ∅ worker_list.

(** [for index, target in enumerate(target_list)], entered at [index]
    with the targets still to come.  Each of the three operations in
    the body can raise: [%] on zero, the index into the list and the
    key into the dictionary. *)
Fixpoint deal (worker_list : list K) (num_workers index : nat)
    (target_list : list T) (ret : gmap K (list T))
    : exn + gmap K (list T) :=
  match target_list with
  | [] => inr ret
  | target :: rest =>
      if (num_workers =? 0)%nat
      then inl (Exn ZeroDivisionError
                    "integer division or modulo by zero")
      else
        match worker_list !! (index mod num_workers)%nat with
        | None => inl (Exn IndexError "list index out of range")
        | Some worker =>
            match ret !! worker with
            | None => inl (Exn KeyError (repr worker))
            | Some l =>
                deal worker_list num_workers (Datatypes.S index) rest
                     (<[worker := l ++ [target]]> ret)
            end
        end
  end.

(** [round_robin(worker_list, target_list, randomize, no_empty)]. *)
Definition round_robin (worker_list : list K) (target_list : list T)
    (randomize no_empty : bool) : exn + gmap K (list T) :=
  if (List.length worker_list =? 0)%nat
  then inl (Exn ValueError "Error: worker_list cannot be empty")
  else if no_empty
          && (List.length target_list <? List.length worker_list)%nat
  then inl (Exn ValueError
      "Length of worker_list must be >= target_list unless no_empty is set to False")
  else
    let worker_list :=
      if randomize then shuffle worker_list else worker_list in
    let ret := empty_hands worker_list in
    let num_workers := List.length worker_list in
    deal worker_list num_workers 0 target_list ret.

End round_robin.

End algorithms.
Export algorithms.

(** ** Concrete hosts, handles and calls used in the examples *)
Module scenarios.

(** A host on which every command succeeds at once with no output. *)
Definition true_host : Host := fun _ _ => mkReply 0 "" 0.

Definition client1 : System := mkSystem "client1" true true_host.

(** [poll(run_cmd, args=["true"], retries=5, interval=1, timeout=0)]. *)
Definition call_timeout_0 : PollCall (Z * string) :=
  mkPoll (run_cmd_args client1) (ArgList ["true"])
         (Some 5) (Some 1) (Some 0) [] None.

(** [for _ in gen: n += 1], giving [n]. *)
Definition count_yields {R} (g : Generator R) : M (Completion nat unit) :=
  for_else g 0%nat (fun n _ => pure (Next (Datatypes.S n)))
           (fun n => pure (Normal n)).

(** Stubs that always answer with the busy status 6. *)
Definition busy_host : Host :=
  fun _ _ => mkReply 6 "iscsiadm: encountered iSCSI database failure" 0.

Definition busy_no_sessions_host : Host :=
  fun _ _ => mkReply 6 "No matching sessions found" 0.

Definition busy_no_records_host : Host :=
  fun _ _ => mkReply 6 "iscsiadm: No records found" 0.

(** A busy stub whose every call takes 1,000,000 seconds. *)
Definition busy_slow_host : Host :=
  fun _ _ => mkReply 6 "iscsiadm: encountered iSCSI database failure"
                     1000000.

Definition on_host (h : Host) : System := mkSystem "client1" true h.

(** One target, and a world in which [client1] has discovered it and
    is logged in to it. *)
Definition target_a : IscsiTarget :=
  mkTarget (Some "10.0.0.1") 3260 "iqn.a" (Some "default").

Definition attached_world : World :=
  mkWorld 0 [] [] {["client1" := [target_a]]} {["client1" := [target_a]]}.

(** A host on which the first command succeeds and every later one
    reports, with status 21, that there is nothing left to act on. *)
Definition gone_host : Host :=
  fun n _ => if (n =? 0)%nat then mkReply 0 "" 0
             else mkReply 21 "iscsiadm: No matching sessions found" 0.

(** A host that fails every command with status 1 and the text of a
    missing session, as [iscsiadm] prints it. *)
Definition no_session_text_host : Host :=
  fun _ _ => mkReply 1 ("iscsiadm: No matching sessions found" +:+ nl) 0.

(** Discovery outputs: only [iqn.a]; and [iqn.a], [iqn.b] and an
    unrelated IQN. *)
Definition out_a : string := "10.0.0.1:3260,1 iqn.a" +:+ nl.

Definition out_a_b_extra : string :=
  out_a +:+ "10.0.0.2:3260,1 iqn.b" +:+ nl
        +:+ "10.0.0.9:3260,1 iqn.other" +:+ nl.

(** The stub of the spec's scenario: the first two discovery attempts
    report [iqn.a] only, the later ones both targets (and one more). *)
Definition third_attempt_host : Host :=
  fun n _ => if (n <? 2)%nat then mkReply 0 out_a 1
             else mkReply 0 out_a_b_extra 1.


(** A host whose discovery command takes a minute to fail, as against
    a portal that does not answer. *)
Definition unreachable_host : Host := fun _ _ => mkReply 1 "" 60.

(** A host on which the blanket logout of an interface succeeds and
    the deletion of the interface record fails with status 1 and a text
    that names neither "already deleted" condition. *)
Definition iface_delete_fails_host : Host :=
  fun n _ => if (n =? 0)%nat then mkReply 0 "" 0
             else mkReply 1 "iscsiadm: Could not execute operation" 0.

(** A target on the interface [ifaceABCDE], and a world in which
    [client1] has discovered it. *)
Definition target_x : IscsiTarget :=
  mkTarget (Some "10.0.0.1") 3260 "iqn.a" (Some "ifaceABCDE").

Definition iface_world : World :=
  mkWorld 0 [] [] {["client1" := [target_x]]} ∅.

(** An SSH client object, a server that never gets past the banner
    exchange, and a server that refuses the authentication type. *)
Definition ssh_client : SSH :=
  mkSSH "10.0.0.5" (Some "root") (Some "secret") 22.

Definition banner_net : Network :=
  fun _ _ _ _ => Failed (Exn SSHException "Error reading SSH protocol banner").

Definition bad_auth_net : Network :=
  fun _ _ _ _ => Failed (Exn BadAuthenticationType "Bad authentication type").

(** A host whose discovery command lists a target on port 3261. *)
Definition port_3261_host : Host :=
  fun _ _ => mkReply 0 ("10.0.0.1:3261,1 iqn.a" +:+ nl) 0.

(** Targets on two more interfaces, and a world in which [client1] has
    discovered five targets (one of them twice over its portal) and is
    logged in to four. *)
Definition target_a2 : IscsiTarget :=
  mkTarget (Some "10.0.0.2") 3260 "iqn.a" (Some "ifaceX").

Definition target_b : IscsiTarget :=
  mkTarget (Some "10.0.0.1") 3260 "iqn.b" (Some "ifaceX").

Definition target_c : IscsiTarget :=
  mkTarget (Some "10.0.0.3") 3260 "iqn.c" (Some "ifaceY").

Definition batch_world : World :=
  mkWorld 0 [] []
          {["client1" := [target_a; target_b; target_a2; target_c; target_a]]}
          {["client1" := [target_a; target_b; target_a2; target_c]]}.

(** One way a set of interface names is iterated: first occurrences,
    in list order. *)
Definition first_seen : SetOrder := remove_dups.

(** [str((status, output))] for the pair a command gives, written for
    outputs without characters that [repr] escapes. *)
Definition show_reply (reply : Z * string) : string :=
  "(" +:+ str_of_int reply.1 +:+ ", u'" +:+ reply.2 +:+ "')".

(** [result_poll(run_cmd, (0, u''), args=["true"], retries=20,
    interval=1)] on a given host. *)
Definition result_poll_true (sys : System) : M Z :=
  result_poll show_reply "<bound method System.run_cmd>" (run_cmd_args sys)
              (0, "") (ArgList ["true"]) (Some 20) (Some 1) None None.

End scenarios.
Export scenarios.

(* ===================================================================== *)
(** * Part II: properties                                                 *)
(* ===================================================================== *)

(** ** The world monad *)

Lemma bind_ret {A B} (m : M A) (k : A -> M B) w a w' :
  m w = (Ret a, w') -> bind m k w = k a w'.
Proof. intros H. unfold bind. now rewrite H. Qed.

Lemma bind_raise {A B} (m : M A) (k : A -> M B) w e w' :
  m w = (Raise e, w') -> bind m k w = (Raise e, w').
Proof. intros H. unfold bind. now rewrite H. Qed.

Lemma bind_inv_ret {A B} (m : M A) (k : A -> M B) w b w' :
  bind m k w = (Ret b, w') ->
  exists a w1, m w = (Ret a, w1) /\ k a w1 = (Ret b, w').
Proof.
  unfold bind. destruct (m w) as [[a | e |] w1]; intros H; try discriminate.
  eauto.
Qed.

Lemma bind_inv_raise {A B} (m : M A) (k : A -> M B) w e w' :
  bind m k w = (Raise e, w') ->
  m w = (Raise e, w') \/
  exists a w1, m w = (Ret a, w1) /\ k a w1 = (Raise e, w').
Proof.
  unfold bind. destruct (m w) as [[a | e1 |] w1]; intros H; try discriminate.
  - right. eauto.
  - left. congruence.
Qed.

(** Unfolds the primitive actions of the monad. *)
Ltac unfold_m :=
  unfold bind, pure, raise, time, sleep, warning, run_cmd_check,
    run_cmd, set_discovered, set_loggedin, get_discovered, get_loggedin,
    advance in *.

(** ** The division of [poll] on times below 2^53 *)

Lemma round_half_even_bounds (a b : Z) :
  0 <= a -> 0 < b ->
  let k := a / b in
  let r := a mod b in
  round_half_even a b = k \/ (round_half_even a b = k + 1 /\ b <= 2 * r).
Proof.
  intros Ha Hb k r. unfold round_half_even. fold k r.
  destruct (Z.ltb_spec (2 * r) b) as [H1 | H1]; [now left |].
  destruct (Z.ltb_spec b (2 * r)) as [H2 | H2]; [right; lia |].
  destruct (Z.even k); [now left | right; lia].
Qed.

(** Below 2^53 the float quotient loses nothing that [int] keeps:
    the result is the exact quotient without its fraction. *)
Lemma float_quotient_floor_exact (n d : Z) :
  0 <= n < 2 ^ 53 -> 0 < d < 2 ^ 53 ->
  float_quotient_floor n d = Some (n / d).
Proof.
  intros Hn Hd. unfold float_quotient_floor.
  destruct (Z.ltb_spec (2 * n) d) as [Hsmall | Hbig].
  { rewrite Z.div_small by lia. reflexivity. }
  assert (Hn1 : 1 <= n) by lia.
  pose proof (Z.log2_spec n ltac:(lia)) as [Hln1 Hln2].
  pose proof (Z.log2_spec d ltac:(lia)) as [Hld1 Hld2].
  pose proof (Z.log2_nonneg n) as Hln0.
  pose proof (Z.log2_nonneg d) as Hld0.
  assert (Hln53 : Z.log2 n < 53) by (apply Z.log2_lt_pow2; lia).
  assert (He0 : -1 <= Z.log2 n - Z.log2 d).
  { assert (Z.log2 d <= Z.log2 (2 * n)) by (apply Z.log2_le_mono; lia).
    rewrite Z.log2_double in H by lia. lia. }
  set (e0 := Z.log2 n - Z.log2 d) in *.
  set (e := if pow2_le_quotient e0 n d then e0 else e0 - 1).
  assert (He : -1 <= e <= 52 /\ (0 <= e -> d * 2 ^ e <= n)).
  { unfold e, pow2_le_quotient.
    destruct (Z.leb_spec 0 e0) as [Hpos | Hneg].
    - destruct (Z.leb_spec (d * 2 ^ e0) n) as [Hle | Hgt].
      + split; [lia | auto].
      + split; [lia |]. intros He1.
        assert (Hpow : 2 ^ (Z.log2 d + 1) * 2 ^ (e0 - 1) = 2 ^ Z.log2 n).
        { rewrite <- Z.pow_add_r by lia. f_equal. unfold e0. lia. }
        assert (0 < 2 ^ (e0 - 1)) by (apply Z.pow_pos_nonneg; lia).
        nia.
    - assert (e0 = -1) as Heq by lia. rewrite Heq.
      change (2 ^ (- -1)) with 2.
      destruct (Z.leb_spec d (n * 2)) as [Hle | Hgt]; [| lia].
      split; [lia |]. intros; lia. }
  destruct He as [Hebound He1].
  cbv zeta. fold e.
  set (s := 52 - e).
  destruct (Z.leb_spec 0 s) as [_ | Hs]; [| unfold s in Hs; lia].
  set (P := 2 ^ s).
  assert (HP : 0 < P) by (apply Z.pow_pos_nonneg; unfold s; lia).
  f_equal.
  assert (Hk : n / d = n * P / d / P).
  { rewrite Z.div_div by lia.
    rewrite Z.div_mul_cancel_r by lia. reflexivity. }
  rewrite Hk.
  destruct (round_half_even_bounds (n * P) d ltac:(nia) ltac:(lia))
    as [-> | [-> Hr]]; [reflexivity |].
  set (k := n * P / d) in *. set (r := (n * P) mod d) in *.
  pose proof (Z.div_mod (n * P) d ltac:(lia)) as Hdm.
  fold k r in Hdm.
  pose proof (Z.mod_pos_bound (n * P) d ltac:(lia)) as Hrb. fold r in Hrb.
  (* rounding up never reaches the next multiple of [P] *)
  destruct (Z.eq_dec ((k + 1) mod P) 0) as [Hmult | Hnot].
  - exfalso.
    apply Z.mod_divide in Hmult; [| lia]. destruct Hmult as [j Hj].
    assert (Hgap : P * (j * d - n) = d - r) by nia.
    assert (Hj1 : 1 <= j * d - n) by nia.
    assert (H2P : 2 * P <= d) by nia.
    destruct (Z.leb_spec 0 e) as [Hepos | Heneg].
    + specialize (He1 Hepos).
      assert (Hpow : P * 2 ^ e = 2 ^ 52).
      { unfold P, s. rewrite <- Z.pow_add_r by lia. f_equal. lia. }
      assert (0 < 2 ^ e) by (apply Z.pow_pos_nonneg; lia).
      assert (2 ^ 53 = 2 * 2 ^ 52) by reflexivity.
      nia.
    + assert (e = -1) by lia. subst e.
      assert (P = 2 ^ 53) by (unfold P, s; f_equal; lia).
      lia.
  - pose proof (Z.div_mod k P ltac:(lia)) as Hk1.
    pose proof (Z.div_mod (k + 1) P ltac:(lia)) as Hk2.
    pose proof (Z.mod_pos_bound k P ltac:(lia)) as Hb1.
    pose proof (Z.mod_pos_bound (k + 1) P ltac:(lia)) as Hb2.
    nia.
Qed.

(** For times below 2^53 seconds, [int(timeout / interval)] is the
    exact quotient rounded toward zero. *)
Lemma int_div_exact (timeout interval : Z) :
  Z.abs timeout < 2 ^ 53 -> Z.abs interval < 2 ^ 53 -> interval <> 0 ->
  int_div timeout interval = inr (Z.quot timeout interval).
Proof.
  intros Ht Hi Hnz. unfold int_div.
  destruct (Z.eqb_spec interval 0) as [-> | _]; [congruence |].
  rewrite float_quotient_floor_exact by lia.
  rewrite (Z.quot_div timeout interval Hnz). reflexivity.
Qed.

(** ** [poll]: the generator *)
Section poll_facts.
Context {R : Type}.
Implicit Types (c : PollCall R) (g : Generator R) (w : World).

Lemma prologue_inv c w a r i t st w' :
  prologue c w = (Ret (a, r, i, t, st), w') ->
  default_args (args c) = inl a /\ r = effective_retries c /\
  i = default 1 (interval c) /\ st = now w /\ now w' = now w /\
  issued w' = issued w /\
  DISCOVERED_TARGETS w' = DISCOVERED_TARGETS w /\
  ISCSI_LOGGEDIN_TARGETS w' = ISCSI_LOGGEDIN_TARGETS w.
Proof.
  unfold prologue, effective_retries.
  destruct (default_args (args c)) as [a0 | s]; [| discriminate].
  destruct (interval c) as [i0 |], (timeout c) as [t0 |],
    (retries c) as [r0 |]; unfold_m; simpl;
    repeat match goal with
      | |- context [negb (?x =? 0)] => destruct (x =? 0); simpl
      | |- context [int_div ?x ?y] => destruct (int_div x y); simpl
      end;
    intros H; inversion H; subst; simpl; auto 10.
Qed.

Lemma int_div_raises (t i : Z) (e : exn) :
  int_div t i = inl e ->
  exn_class e = ZeroDivisionError \/ exn_class e = OverflowError.
Proof.
  unfold int_div. destruct (i =? 0).
  - intros [= <-]. now left.
  - destruct (float_quotient_floor _ _); [discriminate |].
    intros [= <-]. now right.
Qed.

Lemma prologue_raise_inv c w e w' :
  prologue c w = (Raise e, w') ->
  exn_class e = ValueError \/ exn_class e = ZeroDivisionError \/
  exn_class e = OverflowError.
Proof.
  unfold prologue.
  destruct (default_args (args c)) as [a0 | s].
  - destruct (interval c) as [i0 |], (timeout c) as [t0 |],
      (retries c) as [r0 |]; unfold_m; simpl;
      repeat match goal with
        | |- context [negb (?x =? 0)] => destruct (x =? 0); simpl
        | |- context [int_div ?x ?y] =>
            let Hd := fresh "Hd" in
            destruct (int_div x y) eqn:Hd; simpl
        end;
      intros H; inversion H; subst; simpl;
      try match goal with
        | Hd : int_div _ _ = inl _ |- _ =>
            apply int_div_raises in Hd; tauto
        end; auto.
  - unfold_m. intros H; inversion H; subst; simpl; auto.
Qed.

Lemma prologue_no_fuel c w w' : prologue c w <> (OutOfFuel, w').
Proof.
  unfold prologue.
  destruct (default_args (args c)) as [a0 | s]; [| unfold_m; discriminate].
  destruct (interval c) as [i0 |], (timeout c) as [t0 |],
    (retries c) as [r0 |]; unfold_m; simpl;
    repeat match goal with
      | |- context [negb (?x =? 0)] => destruct (x =? 0); simpl
      | |- context [int_div ?x ?y] => destruct (int_div x y); simpl
      end; discriminate.
Qed.

(** What a pass through the loop head can do. *)
Lemma loop_head_cases c a r i t cur st w res w' :
  loop_head c a r i t cur st w = (res, w') ->
  (lt_retries cur r && (now w - st <? t) = false /\
   res = Ret (StopIteration, mkGen c Finished) /\ w' = w) \/
  (lt_retries cur r && (now w - st <? t) = true /\
   exists fr, function c a w = (fr, w') /\
     match fr with
     | Ret v => res = Ret (Yield (Some v),
                           mkGen c (Suspended a r i t cur st))
     | Raise e =>
         res = Raise e \/
         (exists insp e0,
            isinstance e (exception c) = true /\
            inspection c = Some insp /\ truthy insp = true /\
            not_in_item0 insp e = inl e0 /\ res = Raise e0) \/
         (exception c <> [] /\
          res = Ret (Yield None, mkGen c (Suspended a r i t cur st)))
     | OutOfFuel => res = OutOfFuel
     end).
Proof.
  unfold loop_head.
  destruct (lt_retries cur r && (now w - st <? t)) eqn:Hgo.
  - intros H. right. split; [reflexivity |].
    destruct (function c a w) as [[v | e |] w1] eqn:Hf.
    + inversion H; subst. eexists; split; [reflexivity | reflexivity].
    + exists (Raise e).
      destruct (exception c) as [| x xs] eqn:Hex.
      * inversion H; subst. split; [reflexivity | now left].
      * destruct (isinstance e (x :: xs)) eqn:Hisi.
        -- destruct (inspection c) as [insp |].
           ++ destruct (truthy insp) eqn:Htr.
              ** destruct (not_in_item0 insp e) as [e0 | []] eqn:Hitem;
                   inversion H; subst; (split; [reflexivity |]).
                 --- right; left. exists insp, e0. auto.
                 --- now left.
                 --- right; right; split; congruence.
              ** inversion H; subst. split; [reflexivity |].
                 right; right; split; congruence.
           ++ inversion H; subst. split; [reflexivity |].
              right; right; split; congruence.
        -- inversion H; subst. split; [reflexivity | now left].
    + inversion H; subst. exists OutOfFuel. split; reflexivity.
  - intros H. inversion H; subst. left. auto.
Qed.

(** A yield leaves strictly fewer attempts. *)
Lemma next_yield_decreases g w y g' w' :
  next g w = (Ret (Yield y, g'), w') ->
  (attempts_left g' < attempts_left g)%nat.
Proof.
  unfold next. destruct g as [c fr]; simpl.
  destruct fr as [| a r i t cur st |].
  - intros H. apply bind_inv_ret in H as ([[[[a r] i] t] st] & w1 & Hp & Hl).
    apply prologue_inv in Hp as (_ & Hr & Hi & _).
    apply loop_head_cases in Hl as [(_ & Hres & _) | (Hgo & fr & _ & Hres)];
      [discriminate |].
    assert (Hg' : g' = mkGen c (Suspended a r i t 0 st)).
    { destruct fr as [v | e |]; [congruence | | discriminate].
      destruct Hres as [Hres | [(? & ? & _ & _ & _ & _ & Hres) | [_ Hres]]];
        congruence. }
    subst g'. clear Hres. unfold attempts_left; simpl.
    apply andb_true_iff in Hgo as [Hlt _].
    rewrite <- Hr. destruct r as [rv |]; simpl in *; [| discriminate].
    apply Z.ltb_lt in Hlt. lia.
  - intros H. apply bind_inv_ret in H as ([] & w1 & _ & Hl).
    apply loop_head_cases in Hl as [(_ & Hres & _) | (Hgo & fr & _ & Hres)];
      [discriminate |].
    assert (Hg' : g' = mkGen c (Suspended a r i t (cur + 1) st)).
    { destruct fr as [v | e |]; [congruence | | discriminate].
      destruct Hres as [Hres | [(? & ? & _ & _ & _ & _ & Hres) | [_ Hres]]];
        congruence. }
    subst g'. unfold attempts_left; simpl.
    apply andb_true_iff in Hgo as [Hlt _].
    destruct r as [r0 |]; simpl in *; [| discriminate].
    apply Z.ltb_lt in Hlt. lia.
  - unfold_m. intros H. inversion H.
Qed.

(** Any budget above [attempts_left] gives the same run of the [for]
    statement: the budget of [for_else] is never the reason a loop
    ends. *)
Lemma for_else_fuel_irrelevant {S A} (n m : nat) g (s : S)
    (body : S -> option R -> M (Flow S A))
    (orelse : S -> M (Completion S A)) w :
  (attempts_left g < n)%nat -> (attempts_left g < m)%nat ->
  for_else_fuel n g s body orelse w = for_else_fuel m g s body orelse w.
Proof.
  revert m g s w. induction n as [| n IH]; intros m g s w Hn Hm; [lia |].
  destruct m as [| m]; [lia |]. simpl.
  unfold bind at 1 3.
  destruct (next g w) as [[[step g'] | e |] w1] eqn:Hnext; try reflexivity.
  destruct step as [y |]; [| reflexivity].
  apply next_yield_decreases in Hnext.
  unfold bind. destruct (body s y w1) as [[f | e |] w2]; try reflexivity.
  destruct f as [s' | s' | a]; try reflexivity.
  apply IH; lia.
Qed.

Lemma for_else_unfold {S A} g (s : S)
    (body : S -> option R -> M (Flow S A))
    (orelse : S -> M (Completion S A)) w :
  for_else g s body orelse w =
  match next g w with
  | (Ret (StopIteration, _), w1) => orelse s w1
  | (Ret (Yield y, g'), w1) =>
      match body s y w1 with
      | (Ret (Next s'), w2) => for_else g' s' body orelse w2
      | (Ret (Break s'), w2) => (Ret (Normal s'), w2)
      | (Ret (Return a), w2) => (Ret (Returned a), w2)
      | (Raise e, w2) => (Raise e, w2)
      | (OutOfFuel, w2) => (OutOfFuel, w2)
      end
  | (Raise e, w1) => (Raise e, w1)
  | (OutOfFuel, w1) => (OutOfFuel, w1)
  end.
Proof.
  unfold for_else at 1. simpl. unfold bind at 1.
  destruct (next g w) as [[[step g'] | e |] w1] eqn:Hnext; try reflexivity.
  destruct step as [y |]; [| reflexivity].
  apply next_yield_decreases in Hnext.
  unfold bind. destruct (body s y w1) as [[f | e |] w2]; try reflexivity.
  destruct f as [s' | s' | a]; try reflexivity.
  unfold for_else. apply for_else_fuel_irrelevant; lia.
Qed.

End poll_facts.

Section poll_contract.
Context {R : Type}.
Implicit Types (c : PollCall R) (g : Generator R) (w : World).

(** A non-zero timeout decides the retry count, whatever [retries]
    says. *)
Lemma prologue_timeout c t a n w :
  timeout c = Some t -> t <> 0 ->
  int_div t (default 1 (interval c)) = inr n ->
  default_args (args c) = inl a ->
  effective_retries c = Some n /\
  exists w',
    prologue c w = (Ret (a, Some n, default 1 (interval c), t, now w), w').
Proof.
  intros Ht Hnz Hdiv Ha. apply Z.eqb_neq in Hnz. split.
  - unfold effective_retries. now rewrite Ht, Hnz, Hdiv.
  - unfold prologue. rewrite Ha, Ht.
    destruct (interval c) as [i |]; simpl in *; unfold_m; simpl;
      rewrite Hnz; simpl; rewrite Hdiv; eexists; reflexivity.
Qed.

(** A timeout of 0 counts as no timeout: the [retries] argument stays
    in force and the loop gets the limit of 1,000,000 seconds. *)
Lemma prologue_timeout_zero c a w :
  timeout c = Some 0 -> default_args (args c) = inl a ->
  effective_retries c = retries c /\
  exists w',
    prologue c w
    = (Ret (a, retries c, default 1 (interval c), 1000000, now w), w').
Proof.
  intros Ht Ha. split.
  - unfold effective_retries. now rewrite Ht.
  - unfold prologue. rewrite Ha, Ht.
    destruct (interval c) as [i |]; simpl; unfold_m; simpl;
      eexists; reflexivity.
Qed.

Lemma not_in_item0_raises (insp : string) (e e0 : exn) :
  not_in_item0 insp e = inl e0 ->
  exn_class e0 = IndexError \/ exn_class e0 = TypeError.
Proof.
  unfold not_in_item0. destruct (exn_item0 e); intros [= <-]; auto.
Qed.

(** One [next] applies the polled function at most once, and what it
    gives back is that application's result (or [None] for a
    suppressed exception).  The exceptions of [poll]'s own are the
    [ValueError] for string [args], the two errors of the division
    and the error of a negative [sleep], all before the function is
    called, and the [IndexError] or [TypeError] of [e[0]] when it
    inspects an exception of the function. *)
Lemma next_one_call g w res w' :
  next g w = (res, w') ->
  (exists g', res = Ret (StopIteration, g')) \/
  (exists e, res = Raise e /\
             exn_class e ∈ [ValueError; ZeroDivisionError; OverflowError;
                            IOError]) \/
  (exists a w1 fr, function (call g) a w1 = (fr, w') /\
     match fr with
     | Ret v => exists g', res = Ret (Yield (Some v), g')
     | Raise e =>
         res = Raise e \/
         (exists e0, res = Raise e0 /\
                     exn_class e0 ∈ [IndexError; TypeError]) \/
         exists g', res = Ret (Yield None, g')
     | OutOfFuel => res = OutOfFuel
     end).
Proof.
  unfold next. destruct g as [c fr]; simpl.
  assert (Hloop : forall a r i t cur st w1,
    loop_head c a r i t cur st w1 = (res, w') ->
    (exists g', res = Ret (StopIteration, g')) \/
    (exists e, res = Raise e /\
               exn_class e ∈ [ValueError; ZeroDivisionError; OverflowError;
                              IOError]) \/
    (exists a w1 fr, function c a w1 = (fr, w') /\
       match fr with
       | Ret v => exists g', res = Ret (Yield (Some v), g')
       | Raise e =>
           res = Raise e \/
           (exists e0, res = Raise e0 /\
                       exn_class e0 ∈ [IndexError; TypeError]) \/
           exists g', res = Ret (Yield None, g')
       | OutOfFuel => res = OutOfFuel
       end)).
  { intros a r i t cur st w1 Hl.
    apply loop_head_cases in Hl as [(_ & Hres & _) | (_ & fr1 & Hf & Hres)].
    - left. eauto.
    - right. right. exists a, w1, fr1. split; [exact Hf |].
      destruct fr1 as [v | e |]; eauto.
      destruct Hres
        as [Hres | [(insp & e0 & _ & _ & _ & Hitem & Hres) | [_ Hres]]];
        eauto.
      right. left. exists e0. split; [exact Hres |].
      apply not_in_item0_raises in Hitem as [-> | ->]; set_solver. }
  destruct fr as [| a r i t cur st |].
  - unfold bind at 1.
    destruct (prologue c w) as [[[[[[a r] i] t] st] | e |] w1] eqn:Hp.
    + apply Hloop.
    + intros H; inversion H; subst. right. left. exists e. split; [done |].
      apply prologue_raise_inv in Hp as [-> | [-> | ->]]; set_solver.
    + now apply prologue_no_fuel in Hp.
  - unfold bind at 1, sleep. destruct (i <? 0).
    + intros H; inversion H; subst. right. left.
      eexists; split; [reflexivity |]. simpl. set_solver.
    + apply Hloop.
  - unfold_m. intros H; inversion H; subst. left. eauto.
Qed.

(** Once the budget is used up the generator just ends. *)
Lemma next_exhausted c a r i t cur st w :
  0 <= i ->
  lt_retries (cur + 1) r && (now w + i - st <? t) = false ->
  next (mkGen c (Suspended a r i t cur st)) w =
  (Ret (StopIteration, mkGen c Finished), advance i w).
Proof.
  intros Hi Hgo. unfold next; simpl. unfold bind, sleep.
  destruct (i <? 0) eqn:Hneg; [apply Z.ltb_lt in Hneg; lia |].
  unfold loop_head. simpl. now rewrite Hgo.
Qed.

Lemma next_finished c w :
  next (mkGen c Finished) w = (Ret (StopIteration, mkGen c Finished), w).
Proof. reflexivity. Qed.

(** An exception that comes out of [next] is a [PollingException]
    only if the polled function raised it. *)
Lemma next_raises_no_PollingException g w e w' :
  next g w = (Raise e, w') ->
  exn_class e = PollingException ->
  exists a w1, function (call g) a w1 = (Raise e, w').
Proof.
  intros Hn Hcls.
  apply next_one_call in Hn as [[g' Hg] | [(e' & He & Hin) | Hcall]].
  - discriminate.
  - inversion He; subst e'. rewrite Hcls in Hin.
    repeat (apply elem_of_cons in Hin as [Hin | Hin]; [discriminate |]).
    inversion Hin.
  - destruct Hcall as (a & w1 & fr & Hf & Hres).
    destruct fr as [v | e' |].
    + destruct Hres as [g' Hres]. discriminate.
    + destruct Hres as [Hres | [(e0 & Hres & Hin) | [g' Hres]]].
      * inversion Hres; subst. eauto.
      * inversion Hres; subst e0. rewrite Hcls in Hin.
        repeat (apply elem_of_cons in Hin as [Hin | Hin];
                [discriminate |]).
        inversion Hin.
      * discriminate.
    + discriminate.
Qed.

End poll_contract.

(** C5 at a failing input: [poll(run_cmd, args=["true"], retries=5,
    interval=1, timeout=0)].  A timeout is supplied, so the retries
    should be ignored and the retry count be [int(0 / 1)], which is 0:
    the generator should yield nothing.  But the test is [if timeout:],
    which takes 0 for "no timeout": the loop is entered with
    [retries=5] and the limit of 1,000,000 seconds that the [else]
    branch means for a timeout of [None], the command is run five
    times and five results are yielded. *)
Theorem poll_timeout_zero_runs_retries :
  timeout call_timeout_0 = Some 0 /\
  retries call_timeout_0 = Some 5 /\
  int_div 0 (default 1 (interval call_timeout_0)) = inr 0 /\
  prologue call_timeout_0 (boot 0)
  = (Ret (["true"], Some 5, 1, 1000000, 0), boot 0) /\
  exists w',
    count_yields (poll call_timeout_0) (boot 0) = (Ret (Normal 5%nat), w') /\
    issued w' = ["true"; "true"; "true"; "true"; "true"].
Proof.
  repeat split; try reflexivity.
  eexists. split; reflexivity.
Qed.

(** ** The generators the controller polls *)
Section cmd_generators.
Variables (sys : System) (cmd : string) (r i : Z).

Lemma run_cmd_eq w :
  run_cmd sys cmd w = (Ret (reply_of sys cmd w), after_cmd sys cmd w).
Proof. reflexivity. Qed.

(** The first [next]: the command runs at once if any retry is
    allowed. *)
Lemma next_cmd_created w :
  next (poll (cmd_call sys cmd r i)) w =
  if 0 <? r then
    (Ret (Yield (Some (reply_of sys cmd w)),
          mkGen (cmd_call sys cmd r i)
                (Suspended [cmd] (Some r) i 1000000 0 (now w))),
     after_cmd sys cmd w)
  else (Ret (StopIteration, mkGen (cmd_call sys cmd r i) Finished), w).
Proof.
  unfold next, poll, cmd_call, prologue, loop_head; simpl.
  unfold_m; simpl. rewrite Z.sub_diag. simpl.
  destruct (0 <? r); reflexivity.
Qed.

(** A later [next]: sleep, then run the command again if the retry
    count and poll's time limit allow it. *)
Lemma next_cmd_suspended t cur st w :
  0 <= i ->
  next (mkGen (cmd_call sys cmd r i) (Suspended [cmd] (Some r) i t cur st))
       w =
  if (cur + 1 <? r) && (now w + i - st <? t) then
    (Ret (Yield (Some (reply_of sys cmd (advance i w))),
          mkGen (cmd_call sys cmd r i)
                (Suspended [cmd] (Some r) i t (cur + 1) st)),
     after_cmd sys cmd (advance i w))
  else (Ret (StopIteration, mkGen (cmd_call sys cmd r i) Finished),
        advance i w).
Proof.
  intros Hi. unfold next; simpl. unfold bind, sleep.
  destruct (i <? 0) eqn:Hneg; [apply Z.ltb_lt in Hneg; lia |].
  unfold loop_head; simpl.
  destruct ((cur + 1 <? r) && (now w + i - st <? t)); reflexivity.
Qed.

Lemma issued_after_cmd w :
  issued (after_cmd sys cmd w) = issued w ++ [cmd].
Proof. reflexivity. Qed.

Lemma now_after_cmd w :
  now (after_cmd sys cmd w)
  = now w + duration (host sys (List.length (issued w)) cmd).
Proof. reflexivity. Qed.

End cmd_generators.

(** ** Loops in which every attempt asks for another one *)
Section loop_runs_out.
Variables (sys : System) (cmd : string) (r i D : Z).
Variable body :
  option (Z * string) -> option (Z * string) ->
  M (Flow (option (Z * string)) unit).
Variable orelse :
  option (Z * string) -> M (Completion (option (Z * string)) unit).

Hypothesis Hi : 0 <= i.
Hypothesis Hdur : forall n c, 0 <= duration (host sys n c) <= D.
Hypothesis Hfit : (r - 1) * (D + i) < 1000000.
Hypothesis Hbody : forall last w1,
  exists w2,
    body last (Some (reply_of sys cmd w1)) (after_cmd sys cmd w1)
    = (Ret (Next (Some (reply_of sys cmd w1))), w2) /\
    issued w2 = issued (after_cmd sys cmd w1) /\
    now w2 = now (after_cmd sys cmd w1).

Lemma suspended_loop_runs_out (k : nat) : forall cur st w last,
  0 <= cur -> cur + 1 + Z.of_nat k = r ->
  now w - st <= (cur + 1) * D + cur * i ->
  exists w1 last',
    for_else (mkGen (cmd_call sys cmd r i)
                    (Suspended [cmd] (Some r) i 1000000 cur st))
             last body orelse w
    = orelse last' w1 /\
    issued w1 = issued w ++ repeat cmd k /\
    (k = 0%nat -> last' = last) /\
    (k <> 0%nat ->
     last' = Some (nth_reply sys cmd (List.length (issued w) + k - 1))).
Proof.
  assert (HD : 0 <= D) by (specialize (Hdur 0%nat ""); lia).
  induction k as [| k IH]; intros cur st w last Hcur Hk Hnow.
  - exists (advance i w), last. rewrite for_else_unfold.
    rewrite next_cmd_suspended by assumption.
    replace (cur + 1 <? r) with false by (symmetry; apply Z.ltb_ge; lia).
    simpl. rewrite app_nil_r. repeat split; congruence.
  - rewrite for_else_unfold. rewrite next_cmd_suspended by assumption.
    replace (cur + 1 <? r) with true by (symmetry; apply Z.ltb_lt; lia).
    replace (now w + i - st <? 1000000) with true
      by (symmetry; apply Z.ltb_lt; nia).
    simpl andb. cbv iota.
    destruct (Hbody last (advance i w)) as (w2 & Hb & Hiss & Hclock).
    rewrite Hb.
    destruct (IH (cur + 1) st w2 (Some (reply_of sys cmd (advance i w))))
      as (w1 & last' & Hrun & Hiss1 & Hk0 & Hkn).
    + lia.
    + lia.
    + rewrite Hclock, now_after_cmd. simpl.
      specialize (Hdur (List.length (issued w)) cmd). nia.
    + exists w1, last'. split; [exact Hrun |]. split.
      * rewrite Hiss1, Hiss, issued_after_cmd. simpl.
        now rewrite <- app_assoc.
      * split; [discriminate |]. intros _.
        destruct k as [| k'].
        -- rewrite Hk0 by reflexivity. unfold reply_of, nth_reply.
           cbn [issued advance].
           replace (List.length (issued w) + 1 - 1)%nat
             with (List.length (issued w)) by lia.
           reflexivity.
        -- rewrite Hkn by discriminate. rewrite Hiss, issued_after_cmd.
           cbn [issued advance]. rewrite length_app. cbn [List.length].
           do 2 f_equal. lia.
Qed.

(** From the call of [poll] on: [r] attempts, then the [else]
    clause, with the reply to the last of them in hand. *)
Lemma created_loop_runs_out w :
  0 < r ->
  exists w1,
    for_else (poll (cmd_call sys cmd r i)) None body orelse w
    = orelse (Some (nth_reply sys cmd
                      (List.length (issued w) + Z.to_nat r - 1))) w1 /\
    issued w1 = issued w ++ repeat cmd (Z.to_nat r).
Proof.
  intros Hr. rewrite for_else_unfold, next_cmd_created.
  replace (0 <? r) with true by (symmetry; apply Z.ltb_lt; lia).
  destruct (Hbody None w) as (w2 & Hb & Hiss & Hclock). rewrite Hb.
  destruct (suspended_loop_runs_out (Z.to_nat (r - 1)) 0 (now w) w2
              (Some (reply_of sys cmd w)))
    as (w1 & last' & Hrun & Hiss1 & Hk0 & Hkn).
  - lia.
  - lia.
  - rewrite Hclock, now_after_cmd.
    specialize (Hdur (List.length (issued w)) cmd). lia.
  - assert (Hlast : last' = Some (nth_reply sys cmd
                                    (List.length (issued w) + Z.to_nat r
                                     - 1))).
    { destruct (Z.to_nat (r - 1)) as [| k'] eqn:Hk.
      - rewrite Hk0 by reflexivity. unfold reply_of, nth_reply.
        replace (List.length (issued w) + Z.to_nat r - 1)%nat
          with (List.length (issued w)) by lia.
        reflexivity.
      - rewrite Hkn by discriminate. rewrite Hiss, issued_after_cmd.
        rewrite length_app. cbn [List.length]. do 2 f_equal. lia. }
    subst last'. exists w1. split; [exact Hrun |].
    rewrite Hiss1, Hiss, issued_after_cmd, <- app_assoc.
    replace (Z.to_nat r) with (Datatypes.S (Z.to_nat (r - 1))) by lia.
    reflexivity.
Qed.

End loop_runs_out.

(** ** Loops never run more attempts than the retry count *)
Section loop_bounded.
Variables (sys : System) (cmd : string) (r i : Z).
Context {S A : Type}.
Variable body : S -> option (Z * string) -> M (Flow S A).
Variable orelse : S -> M (Completion S A).

Hypothesis Hi : 0 <= i.
Hypothesis Hbody : forall s y w res w',
  body s y w = (res, w') -> issued w' = issued w.
Hypothesis Horelse : forall s w res w',
  orelse s w = (res, w') -> issued w' = issued w.

Lemma cmd_loop_bounded (n : nat) : forall fr s w res w',
  cmd_frame cmd r i fr ->
  (attempts_left (mkGen (cmd_call sys cmd r i) fr) <= n)%nat ->
  for_else (mkGen (cmd_call sys cmd r i) fr) s body orelse w = (res, w') ->
  exists k, (k <= n)%nat /\ issued w' = issued w ++ repeat cmd k.
Proof.
  induction n as [n IH] using lt_wf_ind.
  intros fr s w res w' Hfr Hleft Hrun.
  rewrite for_else_unfold in Hrun.
  assert (Hstop : forall w1, orelse s w1 = (res, w') ->
                             issued w1 = issued w ->
            exists k, (k <= n)%nat /\ issued w' = issued w ++ repeat cmd k).
  { intros w1 Ho Hw1. exists 0%nat. split; [lia |].
    apply Horelse in Ho. simpl. rewrite app_nil_r. congruence. }
  assert (Hyield : forall y g' w1,
    cmd_frame cmd r i (frame g') -> call g' = cmd_call sys cmd r i ->
    (attempts_left g' < n)%nat ->
    issued w1 = issued w ++ [cmd] ->
    match body s y w1 with
    | (Ret (Next s'), w2) => for_else g' s' body orelse w2
    | (Ret (Break s'), w2) => (Ret (Normal s'), w2)
    | (Ret (Return a), w2) => (Ret (Returned a), w2)
    | (Raise e, w2) => (Raise e, w2)
    | (OutOfFuel, w2) => (OutOfFuel, w2)
    end = (res, w') ->
    exists k, (k <= n)%nat /\ issued w' = issued w ++ repeat cmd k).
  { intros y g' w1 Hfr' Hcall Hlt Hw1 Hb.
    destruct (body s y w1) as [[f | e |] w2] eqn:Hbs;
      pose proof (Hbody _ _ _ _ _ Hbs) as Hw2.
    - destruct f as [s' | s' | a].
      + destruct g' as [c' fr']; simpl in *; subst c'.
        destruct (IH (attempts_left (mkGen (cmd_call sys cmd r i) fr'))
                     Hlt fr' s' w2 res w' Hfr' (le_n _) Hb)
          as (k & Hk & Hiss).
        exists (Datatypes.S k). split; [lia |].
        rewrite Hiss, Hw2, Hw1, <- app_assoc. reflexivity.
      + inversion Hb; subst. exists 1%nat. split; [lia |].
        simpl. congruence.
      + inversion Hb; subst. exists 1%nat. split; [lia |].
        simpl. congruence.
    - inversion Hb; subst. exists 1%nat. split; [lia |]. simpl. congruence.
    - inversion Hb; subst. exists 1%nat. split; [lia |]. simpl. congruence. }
  destruct Hfr as [-> | [-> | (t & cur & st & ->)]].
  - change (mkGen (cmd_call sys cmd r i) Created)
      with (poll (cmd_call sys cmd r i)) in Hrun.
    rewrite next_cmd_created in Hrun.
    destruct (0 <? r) eqn:Hr.
    + apply Z.ltb_lt in Hr.
      eapply Hyield; [| | | | exact Hrun]; simpl.
      * right. right. eauto.
      * reflexivity.
      * unfold attempts_left in *; simpl in *. lia.
      * reflexivity.
    + eapply Hstop; [exact Hrun | reflexivity].
  - simpl in Hrun. eapply Hstop; [exact Hrun | reflexivity].
  - rewrite next_cmd_suspended in Hrun by assumption.
    destruct ((cur + 1 <? r) && (now w + i - st <? t)) eqn:Hgo.
    + apply andb_true_iff in Hgo as [Hlt _]. apply Z.ltb_lt in Hlt.
      eapply Hyield; [| | | | exact Hrun]; simpl.
      * right. right. eauto.
      * reflexivity.
      * unfold attempts_left in *; simpl in *. lia.
      * reflexivity.
    + eapply Hstop; [exact Hrun | reflexivity].
Qed.

End loop_bounded.

(** ** logout and delete *)

(** Splits on every test a monadic run in [H] depends on, innermost
    first. *)
Ltac split_cases H :=
  repeat match type of H with
    | context [match ?x with _ => _ end] =>
        lazymatch x with
        | context [match _ with _ => _ end] => fail
        | _ => destruct x eqn:?; simpl in H
        end
    end.

(** Closes goals of the form [m w = (res, w') -> field w' = field w]
    for straight-line monadic code. *)
Ltac straight_line :=
  let H := fresh "Hrun" in
  unfold_m; simpl; intros H; split_cases H;
  inversion H; subst; simpl; auto.

Lemma remove_iscsi_loggedin_target_using_iqn_issued sys ip iqn_ w res w' :
  remove_iscsi_loggedin_target_using_iqn sys ip iqn_ w = (res, w') ->
  issued w' = issued w /\ now w' = now w.
Proof. unfold remove_iscsi_loggedin_target_using_iqn. straight_line. Qed.

Lemma logout_attempt_issued sys iqn_ ip y w res w' :
  logout_attempt sys iqn_ ip y w = (res, w') -> issued w' = issued w.
Proof.
  unfold logout_attempt, unpack,
    remove_iscsi_loggedin_target_using_iqn. straight_line.
Qed.

Lemma delete_attempt_issued sys y w res w' :
  delete_attempt sys y w = (res, w') -> issued w' = issued w.
Proof. unfold delete_attempt, unpack. straight_line. Qed.

Lemma raise_failed_issued sys cmd last w res w' :
  raise_failed sys cmd last w = (res, w') -> issued w' = issued w.
Proof. unfold raise_failed. straight_line. Qed.

Lemma delete_bookkeeping_issued sys iqn_ w res w' :
  delete_bookkeeping sys iqn_ w = (res, w') -> issued w' = issued w.
Proof. unfold delete_bookkeeping. straight_line. Qed.

(** Whatever the host answers, [logout] runs its command at most 12
    times. *)
Lemma logout_at_most_12 sys iqn_ ip port iface_name w res w' :
  logout sys iqn_ ip port iface_name w = (res, w') ->
  exists k, (k <= 12)%nat /\
    issued w' = issued w ++ repeat (logout_cmd iqn_ ip port iface_name) k.
Proof.
  unfold logout. unfold bind at 1.
  destruct (for_else _ _ _ _ w) as [r1 w1] eqn:Hrun. intros H.
  assert (Hw : w' = w1) by (destruct r1; inversion H; reflexivity).
  subst w1.
  eapply (cmd_loop_bounded sys _ _LOGOUT_RETRY_COUNT
                           _ISCSIADM_RETRY_INTERVAL) with (n := 12%nat);
    [ | | | left; reflexivity | | exact Hrun].
  - unfold _ISCSIADM_RETRY_INTERVAL. lia.
  - intros s y w0 res0 w0'. apply logout_attempt_issued.
  - intros s w0 res0 w0'. apply raise_failed_issued.
  - vm_compute. lia.
Qed.

(** Whatever the host answers, [delete] runs its command at most 12
    times. *)
Lemma delete_at_most_12 sys iqn_ ip w res w' :
  delete sys iqn_ ip w = (res, w') ->
  exists k, (k <= 12)%nat /\
    issued w' = issued w ++ repeat (delete_cmd iqn_ ip) k.
Proof.
  unfold delete. unfold bind at 1.
  destruct (for_else _ _ _ _ w) as [r1 w1] eqn:Hrun. intros H.
  assert (Hw : issued w' = issued w1).
  { destruct r1; try (inversion H; reflexivity).
    now apply delete_bookkeeping_issued in H. }
  rewrite Hw.
  eapply (cmd_loop_bounded sys _ _DELETE_RETRY_COUNT
                           _ISCSIADM_RETRY_INTERVAL) with (n := 12%nat);
    [ | | | left; reflexivity | | exact Hrun].
  - unfold _ISCSIADM_RETRY_INTERVAL. lia.
  - intros s y w0 res0 w0'. apply delete_attempt_issued.
  - intros s w0 res0 w0'. apply raise_failed_issued.
  - vm_compute. lia.
Qed.

(** On a stub that answers 6 with a text [logout] does not take for
    "already logged out", an attempt logs the warning and asks for the
    next one. *)
Lemma logout_attempt_busy sys iqn_ ip out w :
  bool_decide (out ∈ logout_error_response) = false ->
  logout_attempt sys iqn_ ip (Some (6, out)) w =
  (Ret (Next (Some (6, out))),
   snd (warning ("System " +:+ name sys
                 +:+ " temporary iSCSI DB logout error") w)).
Proof.
  intros Hout. unfold logout_attempt, unpack. simpl.
  rewrite Hout. reflexivity.
Qed.

Lemma delete_attempt_busy sys out w :
  contains "No records found" out = false ->
  delete_attempt sys (Some (6, out)) w =
  (Ret (Next (Some (6, out))),
   snd (warning ("System " +:+ name sys
                 +:+ " temporary iSCSI DB delete error") w)).
Proof.
  intros Hout. unfold delete_attempt, unpack. simpl.
  rewrite Hout. reflexivity.
Qed.

(** C4, as stated, fails for some stubs that always answer 6: when the
    output is one of the texts taken for "already gone" the first
    attempt ends the call with success, and when the calls are so slow
    that [poll]'s own limit of 1,000,000 seconds passes the loop ends
    before the 12th attempt. *)
Lemma busy_stub_counterexample :
  (forall n c, status (busy_no_sessions_host n c) = 6) /\
  (forall n c, status (busy_no_records_host n c) = 6) /\
  (forall n c, status (busy_slow_host n c) = 6) /\
  (let (res, w') := logout (on_host busy_no_sessions_host) "iqn.a"
                      (Some "10.0.0.1") 3260 (Some "default") (boot 0) in
   res = Ret tt /\ List.length (issued w') = 1%nat) /\
  (let (res, w') := delete (on_host busy_no_records_host) "iqn.a"
                      (Some "10.0.0.1") (boot 0) in
   res = Ret tt /\ List.length (issued w') = 1%nat) /\
  (let (res, w') := logout (on_host busy_slow_host) "iqn.a"
                      (Some "10.0.0.1") 3260 (Some "default") (boot 0) in
   List.length (issued w') = 1%nat).
Proof. repeat split; reflexivity. Qed.

Lemma prefix_refl (s : string) : String.prefix s s = true.
Proof.
  induction s as [| c s IH]; [reflexivity |]. simpl.
  destruct (Ascii.ascii_dec c c); [exact IH | congruence].
Qed.

Lemma contains_refl (s : string) : contains s s = true.
Proof.
  destruct s as [| c s]; [reflexivity |].
  cbn [contains]. now rewrite prefix_refl.
Qed.

(** An output that holds none of the texts [logout] looks for is none
    of them. *)
Lemma not_in_logout_error_response (out : string) :
  (forall text, text ∈ logout_error_response -> contains text out = false) ->
  bool_decide (out ∈ logout_error_response) = false.
Proof.
  intros Hno. apply bool_decide_eq_false_2. intros Hin.
  specialize (Hno out Hin). rewrite contains_refl in Hno. discriminate.
Qed.

(** C4 (amended): given a command stub that always returns the busy
    exit code 6 and whose calls each return within a day: when its
    output holds none of the texts [logout] takes for "already logged
    out", [logout] runs the command exactly 12 times and then raises
    an [EnvironmentError] naming the command and the status and output
    of the 12th run; when its output does not hold "No records found",
    [delete] does the same with its command; and whatever the host
    answers, neither runs the command more than 12 times. *)
Theorem busy_stub_twelve_attempts_then_raise
    (sys : System) (iqn_ : string) (ip : option string) (port : Z)
    (iface_name : option string) (w : World) :
  (forall n c, status (host sys n c) = 6) ->
  (forall n c, 0 <= duration (host sys n c) <= 86400) ->
  ((forall n c text, text ∈ logout_error_response ->
                     contains text (output (host sys n c)) = false) ->
   exists w',
     logout sys iqn_ ip port iface_name w
     = (Raise (Exn EnvironmentError
                   (failed_msg sys (logout_cmd iqn_ ip port iface_name)
                      (Some (nth_reply sys
                               (logout_cmd iqn_ ip port iface_name)
                               (List.length (issued w) + 11))))), w') /\
     issued w'
     = issued w ++ repeat (logout_cmd iqn_ ip port iface_name) 12) /\
  ((forall n c, contains "No records found" (output (host sys n c)) = false) ->
   exists w',
     delete sys iqn_ ip w
     = (Raise (Exn EnvironmentError
                   (failed_msg sys (delete_cmd iqn_ ip)
                      (Some (nth_reply sys (delete_cmd iqn_ ip)
                               (List.length (issued w) + 11))))), w') /\
     issued w' = issued w ++ repeat (delete_cmd iqn_ ip) 12) /\
  (forall (any : System) w0 res w1,
     logout any iqn_ ip port iface_name w0 = (res, w1) ->
     exists k, (k <= 12)%nat /\
       issued w1
       = issued w0 ++ repeat (logout_cmd iqn_ ip port iface_name) k) /\
  (forall (any : System) w0 res w1,
     delete any iqn_ ip w0 = (res, w1) ->
     exists k, (k <= 12)%nat /\
       issued w1 = issued w0 ++ repeat (delete_cmd iqn_ ip) k).
Proof.
  intros Hbusy Hdur.
  assert (Hreply : forall cmd w0,
            reply_of sys cmd w0
            = (6, output (host sys (List.length (issued w0)) cmd))).
  { intros cmd w0. unfold reply_of. now rewrite Hbusy. }
  split; [| split; [| split]].
  - intros Hlogout_text.
    destruct (created_loop_runs_out sys (logout_cmd iqn_ ip port iface_name)
                _LOGOUT_RETRY_COUNT _ISCSIADM_RETRY_INTERVAL 86400
                (fun _ y => logout_attempt sys iqn_ ip y)
                (raise_failed sys (logout_cmd iqn_ ip port iface_name)))
      with (w := w) as (w1 & Hrun & Hiss).
    + unfold _ISCSIADM_RETRY_INTERVAL. lia.
    + exact Hdur.
    + vm_compute. reflexivity.
    + intros last w1. rewrite Hreply.
      rewrite logout_attempt_busy
        by (apply not_in_logout_error_response; intros text Hin;
            now apply Hlogout_text).
      eexists. split; [reflexivity |]. split; reflexivity.
    + unfold _LOGOUT_RETRY_COUNT. lia.
    + exists w1. unfold logout. unfold bind. rewrite Hrun.
      replace (List.length (issued w) + Z.to_nat _LOGOUT_RETRY_COUNT - 1)%nat
        with (List.length (issued w) + 11)%nat
        by (unfold _LOGOUT_RETRY_COUNT; lia).
      split; [reflexivity | exact Hiss].
  - intros Hdelete_text.
    destruct (created_loop_runs_out sys (delete_cmd iqn_ ip)
                _DELETE_RETRY_COUNT _ISCSIADM_RETRY_INTERVAL 86400
                (fun _ y => delete_attempt sys y)
                (raise_failed sys (delete_cmd iqn_ ip)))
      with (w := w) as (w1 & Hrun & Hiss).
    + unfold _ISCSIADM_RETRY_INTERVAL. lia.
    + exact Hdur.
    + vm_compute. reflexivity.
    + intros last w1. rewrite Hreply.
      rewrite delete_attempt_busy by apply Hdelete_text.
      eexists. split; [reflexivity |]. split; reflexivity.
    + unfold _DELETE_RETRY_COUNT. lia.
    + exists w1. unfold delete. unfold bind. rewrite Hrun.
      replace (List.length (issued w) + Z.to_nat _DELETE_RETRY_COUNT - 1)%nat
        with (List.length (issued w) + 11)%nat
        by (unfold _DELETE_RETRY_COUNT; lia).
      split; [reflexivity | exact Hiss].
  - intros any w0 res w1. apply logout_at_most_12.
  - intros any w0 res w1. apply delete_at_most_12.
Qed.

(** The amended C4 on [busy_host], and its [logout] half on a stub whose
    output holds the text that only [delete] looks for. *)
Lemma busy_stub_twelve_attempts_witness :
  (exists w',
     logout (on_host busy_host) "iqn.a" (Some "10.0.0.1") 3260
            (Some "default") (boot 0)
     = (Raise (Exn EnvironmentError
                   (failed_msg (on_host busy_host)
                      (logout_cmd "iqn.a" (Some "10.0.0.1") 3260
                                  (Some "default"))
                      (Some (6, "iscsiadm: encountered iSCSI database failure")))),
        w') /\
     issued w'
     = repeat (logout_cmd "iqn.a" (Some "10.0.0.1") 3260 (Some "default"))
              12) /\
  (exists w',
     delete (on_host busy_host) "iqn.a" (Some "10.0.0.1") (boot 0)
     = (Raise (Exn EnvironmentError
                   (failed_msg (on_host busy_host)
                      (delete_cmd "iqn.a" (Some "10.0.0.1"))
                      (Some (6, "iscsiadm: encountered iSCSI database failure")))),
        w') /\
     issued w' = repeat (delete_cmd "iqn.a" (Some "10.0.0.1")) 12) /\
  (exists w',
     logout (on_host busy_no_records_host) "iqn.a" (Some "10.0.0.1") 3260
            (Some "default") (boot 0)
     = (Raise (Exn EnvironmentError
                   (failed_msg (on_host busy_no_records_host)
                      (logout_cmd "iqn.a" (Some "10.0.0.1") 3260
                                  (Some "default"))
                      (Some (6, "iscsiadm: No records found")))), w') /\
     issued w'
     = repeat (logout_cmd "iqn.a" (Some "10.0.0.1") 3260 (Some "default"))
              12).
Proof.
  destruct (busy_stub_twelve_attempts_then_raise (on_host busy_host) "iqn.a"
              (Some "10.0.0.1") 3260 (Some "default") (boot 0))
    as (Hlogout & Hdelete & _).
  { intros n c. reflexivity. }
  { intros n c. simpl. lia. }
  destruct (busy_stub_twelve_attempts_then_raise
              (on_host busy_no_records_host) "iqn.a"
              (Some "10.0.0.1") 3260 (Some "default") (boot 0))
    as (Hlogout' & _).
  { intros n c. reflexivity. }
  { intros n c. simpl. lia. }
  split; [| split].
  - apply Hlogout. intros n c text Hin.
    repeat (apply elem_of_cons in Hin as [-> | Hin]; [reflexivity |]).
    inversion Hin.
  - apply Hdelete. intros n c. reflexivity.
  - apply Hlogout'. intros n c text Hin.
    repeat (apply elem_of_cons in Hin as [-> | Hin]; [reflexivity |]).
    inversion Hin.
Defined.

(** ** Invariants of a [for] loop over a generator *)
Section for_else_invariant.
Context {R S A : Type}.
Variable c : PollCall R.
Variable I : World -> Prop.
Variable body : S -> option R -> M (Flow S A).
Variable orelse : S -> M (Completion S A).

Hypothesis Hnext : forall fr w res w',
  I w -> next (mkGen c fr) w = (res, w') -> I w'.
Hypothesis Hbody : forall s y w res w',
  I w -> body s y w = (res, w') -> I w'.
Hypothesis Horelse : forall s w res w',
  I w -> orelse s w = (res, w') -> I w'.

Lemma next_call (g g' : Generator R) step w w' :
  next g w = (Ret (step, g'), w') -> call g' = call g.
Proof.
  unfold next. destruct g as [c0 fr]; simpl.
  destruct fr as [| a r i t cur st |].
  - intros H.
    apply bind_inv_ret in H as ([[[[a r] i] t] st] & w1 & _ & Hl).
    apply loop_head_cases in Hl
      as [(_ & Hres & _) | (_ & fr & _ & Hres)].
    + now inversion Hres.
    + destruct fr as [v | e |]; [now inversion Hres | | discriminate].
      destruct Hres as [Hres | [(? & ? & _ & _ & _ & _ & Hres) | [_ Hres]]];
        now inversion Hres.
  - intros H. apply bind_inv_ret in H as ([] & w1 & _ & Hl).
    apply loop_head_cases in Hl
      as [(_ & Hres & _) | (_ & fr & _ & Hres)].
    + now inversion Hres.
    + destruct fr as [v | e |]; [now inversion Hres | | discriminate].
      destruct Hres as [Hres | [(? & ? & _ & _ & _ & _ & Hres) | [_ Hres]]];
        now inversion Hres.
  - unfold_m. intros H; now inversion H.
Qed.

Lemma for_else_fuel_invariant (n : nat) : forall fr s w res w',
  I w -> for_else_fuel n (mkGen c fr) s body orelse w = (res, w') -> I w'.
Proof.
  induction n as [| n IH]; intros fr s w res w' HI; simpl.
  - intros H; inversion H; subst; assumption.
  - unfold bind at 1.
    destruct (next (mkGen c fr) w) as [[[step g'] | e |] w1] eqn:Hn;
      pose proof (Hnext _ _ _ _ HI Hn) as HI1.
    + destruct step as [y |].
      * unfold bind.
        destruct (body s y w1) as [[f | e |] w2] eqn:Hb;
          pose proof (Hbody _ _ _ _ _ HI1 Hb) as HI2.
        -- destruct f as [s' | s' | a].
           ++ apply next_call in Hn. destruct g' as [c' fr']; simpl in Hn.
              subst c'. now apply IH.
           ++ unfold pure. intros H; inversion H; subst; assumption.
           ++ unfold pure. intros H; inversion H; subst; assumption.
        -- intros H; inversion H; subst; assumption.
        -- intros H; inversion H; subst; assumption.
      * now apply Horelse.
    + intros H; inversion H; subst; assumption.
    + intros H; inversion H; subst; assumption.
Qed.

Lemma for_else_invariant fr s w res w' :
  I w -> for_else (mkGen c fr) s body orelse w = (res, w') -> I w'.
Proof. unfold for_else. apply for_else_fuel_invariant. Qed.

End for_else_invariant.

(** Polling a command touches neither registry. *)
Lemma next_cmd_registries sys cmd r i fr w res w' :
  next (mkGen (cmd_call sys cmd r i) fr) w = (res, w') ->
  DISCOVERED_TARGETS w' = DISCOVERED_TARGETS w /\
  ISCSI_LOGGEDIN_TARGETS w' = ISCSI_LOGGEDIN_TARGETS w.
Proof.
  unfold next, cmd_call, prologue, loop_head, run_cmd_args; simpl.
  destruct fr as [| a r0 i0 t cur st |]; simpl; straight_line.
Qed.

(** The guard of [remove_iscsi_loggedin_target_using_iqn] lets the
    loop run only over an empty list: the call never changes the
    world. *)
Lemma remove_iscsi_loggedin_target_using_iqn_noop sys ip iqn_ w :
  remove_iscsi_loggedin_target_using_iqn sys ip iqn_ w = (Ret tt, w).
Proof.
  unfold remove_iscsi_loggedin_target_using_iqn. unfold_m.
  destruct (ISCSI_LOGGEDIN_TARGETS w !! name sys) as [l |] eqn:Hl;
    [| reflexivity].
  destruct l as [| t l]; simpl; [| reflexivity].
  rewrite insert_id by exact Hl. now destruct w.
Qed.

Lemma logout_attempt_loggedin sys iqn_ ip y w res w' :
  logout_attempt sys iqn_ ip y w = (res, w') ->
  ISCSI_LOGGEDIN_TARGETS w' = ISCSI_LOGGEDIN_TARGETS w.
Proof.
  unfold logout_attempt, unpack.
  destruct y as [[ret out] |]; [| straight_line].
  destruct (ret =? 0).
  - unfold bind. rewrite remove_iscsi_loggedin_target_using_iqn_noop.
    straight_line.
  - straight_line.
Qed.

(** [logout] leaves [ISCSI_LOGGEDIN_TARGETS] as it found it, whatever
    the host answers. *)
Lemma logout_never_unregisters sys iqn_ ip port iface_name w res w' :
  logout sys iqn_ ip port iface_name w = (res, w') ->
  ISCSI_LOGGEDIN_TARGETS w' = ISCSI_LOGGEDIN_TARGETS w.
Proof.
  unfold logout. unfold bind at 1.
  destruct (for_else _ _ _ _ w) as [r1 w1] eqn:Hrun. intros H.
  assert (Hw : w' = w1) by (destruct r1; inversion H; reflexivity).
  subst w1. clear H.
  eapply (for_else_invariant _
            (fun w0 => ISCSI_LOGGEDIN_TARGETS w0 = ISCSI_LOGGEDIN_TARGETS w));
    [ | | | reflexivity | exact Hrun].
  - intros fr w0 res0 w0' HI Hn.
    apply next_cmd_registries in Hn as [_ Hn]. congruence.
  - intros s y w0 res0 w0' HI Hb.
    apply logout_attempt_loggedin in Hb. congruence.
  - intros s w0 res0 w0' HI Ho. unfold raise_failed, raise in Ho.
    inversion Ho; subst. exact HI.
Qed.

(** C2 at a failing input: [client1] is logged in to [target_a]; the
    first [logout] gets exit status 0, the second the already-gone
    status 21.  Both calls succeed, but the target is still in the
    logged-in registry after each of them.  ([delete] called twice in
    the same way does empty the discovered registry.) *)
Lemma logout_twice_keeps_target_logged_in :
  let sys := on_host gone_host in
  let (res1, w1) := logout sys "iqn.a" (Some "10.0.0.1") 3260
                           (Some "default") attached_world in
  let (res2, w2) := logout sys "iqn.a" (Some "10.0.0.1") 3260
                           (Some "default") w1 in
  let (res3, w3) := delete sys "iqn.a" (Some "10.0.0.1")
                           (mkWorld 0 [] [] (DISCOVERED_TARGETS w2)
                                    (ISCSI_LOGGEDIN_TARGETS w2)) in
  let (res4, w4) := delete sys "iqn.a" (Some "10.0.0.1") w3 in
  res1 = Ret tt /\ res2 = Ret tt /\
  ISCSI_LOGGEDIN_TARGETS attached_world !! "client1" = Some [target_a] /\
  ISCSI_LOGGEDIN_TARGETS w1 !! "client1" = Some [target_a] /\
  ISCSI_LOGGEDIN_TARGETS w2 !! "client1" = Some [target_a] /\
  res3 = Ret tt /\ res4 = Ret tt /\
  DISCOVERED_TARGETS w3 !! "client1" = Some [] /\
  DISCOVERED_TARGETS w4 !! "client1" = Some [].
Proof. vm_compute. repeat split; reflexivity. Qed.

(** C3 at a failing input: every attempt fails with status 1 and the
    output "iscsiadm: No matching sessions found".  The output names
    the missing session, yet it is not equal to an entry of
    [error_response], so [logout] retries 12 times and raises. *)
Lemma logout_no_session_text_raises :
  let sys := on_host no_session_text_host in
  let out := "iscsiadm: No matching sessions found" +:+ nl in
  let cmd := logout_cmd "iqn.a" (Some "10.0.0.1") 3260 (Some "default") in
  let (res, w') := logout sys "iqn.a" (Some "10.0.0.1") 3260
                          (Some "default") (boot 0) in
  contains "No matching sessions found" out = true /\
  bool_decide (out ∈ logout_error_response) = false /\
  res = Raise (Exn EnvironmentError (failed_msg sys cmd (Some (1, out)))) /\
  issued w' = repeat cmd 12.
Proof. vm_compute. repeat split; reflexivity. Qed.

(** ** discover *)



(** The targets of a host in a registry; an absent host has none. *)
Lemma register_lookup host_name x reg t :
  t ∈ default [] (register host_name x reg !! host_name) <->
  t = x \/ t ∈ default [] (reg !! host_name).
Proof.
  unfold register.
  destruct (reg !! host_name) as [l |] eqn:Hl; simpl.
  - case_bool_decide as Hin.
    + rewrite Hl; simpl. split; [auto |]. intros [-> | H]; assumption.
    + rewrite lookup_insert_eq; simpl. rewrite elem_of_app.
      rewrite list_elem_of_singleton. tauto.
  - rewrite lookup_insert_eq; simpl. rewrite list_elem_of_singleton.
    split; [auto |]. intros [H | H]; [exact H | inversion H].
Qed.

Lemma register_other host_name x reg h :
  h <> host_name -> register host_name x reg !! h = reg !! h.
Proof.
  intros Hne. unfold register.
  destruct (reg !! host_name) as [l |].
  - case_bool_decide; [reflexivity |]. now rewrite lookup_insert_ne.
  - now rewrite lookup_insert_ne.
Qed.




Lemma discover_retry_or_break_flow start_time timeout last w :
  exists f,
    discover_retry_or_break start_time timeout last w = (Ret f, w) /\
    (f = Break last \/ f = Next last).
Proof.
  unfold discover_retry_or_break. unfold_m.
  destruct (now w - start_time >? timeout); eauto.
Qed.

(** The two ways an attempt of [discover] can go. *)
Lemma discover_attempt_cases sys iqns port_ iface_name start_time timeout
    status_ result w :
  let d := _parse_discovery_result result 3260 in
  let run := discover_attempt sys iqns port_ iface_name start_time timeout
                              (Some (status_, result)) w in
  (status_ = 0 /\ d <> [] /\ truthy result = true /\
   _is_iqn_subset_of_discovered_iqns iqns d.*2 = true /\
   run = (Ret (Return tt),
          mkWorld (now w) (issued w) (warnings w)
            (register_matching (name sys) iqns port_ iface_name d
                               (DISCOVERED_TARGETS w))
            (ISCSI_LOGGEDIN_TARGETS w))) \/
  ((status_ <> 0 \/ truthy result = false \/ d = [] \/
    _is_iqn_subset_of_discovered_iqns iqns d.*2 = false) /\
   exists f, run = (Ret f, w) /\ f <> Return tt).
Proof.
  intros d run. subst run. unfold discover_attempt, unpack.
  assert (Hfail : forall last,
    exists f, discover_retry_or_break start_time timeout last w = (Ret f, w)
              /\ f <> Return tt).
  { intros last.
    destruct (discover_retry_or_break_flow start_time timeout last w)
      as (f & Hf & [-> | ->]); eexists; (split; [exact Hf | discriminate]). }
  destruct (status_ =? 0) eqn:Hst; simpl andb.
  2:{ apply Z.eqb_neq in Hst. right. split; [auto | apply Hfail]. }
  apply Z.eqb_eq in Hst.
  destruct (truthy result) eqn:Htr.
  2:{ right. split; [auto | apply Hfail]. }
  fold d.
  destruct (List.length d =? 0)%nat eqn:Hlen.
  { apply Nat.eqb_eq in Hlen. right. split.
    - right. right. left. now destruct d.
    - eexists. split; [reflexivity | discriminate]. }
  destruct (_is_iqn_subset_of_discovered_iqns iqns d.*2) eqn:Hsub.
  2:{ right. split; [auto | apply Hfail]. }
  left. repeat split; try assumption.
  intros Hd. rewrite Hd in Hlen. discriminate.
Qed.



(** *** The whole call *)



(** The attempts of [discover] for a non-empty list of IQNs, from any
    frame of its generator on: either no attempt is made any more, or
    the attempts go on until one succeeds or the loop is left. *)
Section discover_loop.
Variables (sys : System) (cmd : string) (iqns : list string) (port_ : Z).
Variables (iface_name : option string) (start_time timeout : Z).
Variable orelse :
  option (Z * string) -> M (Completion (option (Z * string)) unit).

Hypothesis Hiqns : iqns <> [].
Hypothesis Horelse : forall last w res w',
  orelse last w = (res, w') ->
  w' = w /\ exists msg, res = Raise (Exn EnvironmentError msg).


End discover_loop.



(** The scenario of the spec: two attempts that report [iqn.a] only,
    then one that reports both targets and an unrelated one.  The call
    returns on the third attempt, having registered the two requested
    targets with their own addresses, and not the third. *)
Lemma discover_third_attempt_scenario :
  let sys := on_host third_attempt_host in
  let (res, w') := discover sys "10.0.0.1" (IqnList ["iqn.a"; "iqn.b"]) 3260
                            (Some "default") 100 (boot 0) in
  res = Ret tt /\
  List.length (issued w') = 3%nat /\
  DISCOVERED_TARGETS w' !! "client1"
  = Some [mkTarget (Some "10.0.0.1") 3260 "iqn.a" (Some "default");
          mkTarget (Some "10.0.0.2") 3260 "iqn.b" (Some "default")].
Proof. vm_compute. repeat split; reflexivity. Qed.

(** C7 at a failing input: the portal does not answer, every discovery
    command fails after a minute.  After the second attempt 125
    seconds have passed, more than the timeout of 100: the loop is left
    by [break], which skips the [else] clause with its
    [EnvironmentError], and [discover] returns normally with nothing
    registered. *)
Lemma discover_timeout_returns_without_targets :
  let sys := on_host unreachable_host in
  let (res, w') := discover sys "10.0.0.1" (IqnStr "iqn.a") 3260
                            (Some "default") _DISCOVERY_TIMEOUT (boot 0) in
  res = Ret tt /\
  List.length (issued w') = 2%nat /\
  now w' = 125 /\
  DISCOVERED_TARGETS w' = ∅.
Proof. vm_compute. repeat split; reflexivity. Qed.

(** ** destroy_iface *)

(** The test written as [("..." or "..." in out)] is true for every
    output: its first operand is a non-empty string. *)
Lemma destroy_iface_benign_always out : destroy_iface_benign out = true.
Proof. reflexivity. Qed.

Lemma force_logout_benign_always out : force_logout_benign out = true.
Proof. reflexivity. Qed.

(** The loop of [destroy_iface] never raises, and runs the command at
    most [retries] times. *)
Lemma destroy_iface_loop_returns sys cmd (retries : nat) : forall w,
  exists c w' k,
    destroy_iface_loop sys cmd retries w = (Ret c, w') /\
    (k <= retries)%nat /\ issued w' = issued w ++ repeat cmd k.
Proof.
  induction retries as [| n IH]; intros w; simpl.
  - exists (Normal tt), w, 0%nat. unfold pure. simpl.
    rewrite app_nil_r. auto.
  - unfold bind at 1. rewrite run_cmd_eq.
    destruct (reply_of sys cmd w) as [ret out].
    destruct (ret =? 0).
    + exists (Normal tt), (after_cmd sys cmd w), 1%nat.
      split; [reflexivity |]. split; [lia |]. apply issued_after_cmd.
    + destruct (ret =? 6).
      * unfold bind, sleep. simpl.
        destruct (IH (advance 5 (after_cmd sys cmd w)))
          as (c & w' & k & Hrun & Hk & Hiss).
        exists c, w', (Datatypes.S k). split; [exact Hrun |].
        split; [lia |]. rewrite Hiss. simpl.
        now rewrite <- app_assoc.
      * rewrite ?destroy_iface_benign_always.
        exists (Returned tt), (after_cmd sys cmd w), 1%nat.
        split; [reflexivity |]. split; [lia |]. apply issued_after_cmd.
Qed.

(** C8 at a failing input: the interface-delete command exits with
    status 1 and an output that mentions neither "Could not delete
    iface" nor "Could not read iface info".  [destroy_iface] returns
    normally instead of raising, after a single try, and leaves the
    interface's target in the discovered registry. *)
Lemma destroy_iface_other_status_returns :
  let sys := on_host iface_delete_fails_host in
  let out := "iscsiadm: Could not execute operation" in
  let (res, w') := destroy_iface sys "ifaceABCDE" iface_world in
  reply_of sys (destroy_iface_cmd "ifaceABCDE")
           (after_cmd sys "iscsiadm -m node -I ifaceABCDE -u all" iface_world)
  = (1, out) /\
  contains "Could not delete iface" out = false /\
  contains "Could not read iface info" out = false /\
  res = Ret tt /\
  issued w' = ["iscsiadm -m node -I ifaceABCDE -u all";
               "iscsiadm -m iface -I ifaceABCDE -o delete"] /\
  DISCOVERED_TARGETS w' !! "client1" = Some [target_x].
Proof. vm_compute. repeat split; reflexivity. Qed.

(** ** The recursion budget of [for_else] always suffices *)
Section for_else_total.
Context {R S A : Type}.
Variable c : PollCall R.
Variable body : S -> option R -> M (Flow S A).
Variable orelse : S -> M (Completion S A).

Hypothesis Hfunction : forall a w w', function c a w <> (OutOfFuel, w').
Hypothesis Hbody : forall s y w w', body s y w <> (OutOfFuel, w').
Hypothesis Horelse : forall s w w', orelse s w <> (OutOfFuel, w').

Lemma next_never_out_of_fuel fr w w' :
  next (mkGen c fr) w <> (OutOfFuel, w').
Proof.
  intros Hn.
  apply next_one_call in Hn
    as [[g' Hg] | [(e & He & _) | (a & w1 & r & Hf & Hres)]];
    try discriminate.
  simpl in Hf. destruct r as [v | e |].
  - destruct Hres as [g' Hres]. discriminate.
  - destruct Hres as [Hres | [(e0 & Hres & _) | [g' Hres]]]; discriminate.
  - now apply Hfunction in Hf.
Qed.

Lemma for_else_fuel_enough (n : nat) : forall fr s w w',
  (attempts_left (mkGen c fr) < n)%nat ->
  for_else_fuel n (mkGen c fr) s body orelse w <> (OutOfFuel, w').
Proof.
  induction n as [| n IH]; intros fr s w w' Hlt; [lia |]. simpl.
  unfold bind at 1.
  destruct (next (mkGen c fr) w) as [[[step g'] | e |] w1] eqn:Hn.
  - destruct step as [y |]; [| apply Horelse].
    pose proof (next_call _ _ _ _ _ Hn) as Hcall.
    apply next_yield_decreases in Hn.
    destruct g' as [c' fr']; simpl in Hcall; subst c'.
    unfold bind.
    destruct (body s y w1) as [[f | e |] w2] eqn:Hb.
    + destruct f as [s' | s' | a]; try discriminate.
      apply IH. lia.
    + discriminate.
    + now apply Hbody in Hb.
  - discriminate.
  - now apply next_never_out_of_fuel in Hn.
Qed.

(** A [for] statement over a [poll] generator returns or raises: its
    budget does not run out. *)
Lemma for_else_total fr s w w' :
  for_else (mkGen c fr) s body orelse w <> (OutOfFuel, w').
Proof. unfold for_else. apply for_else_fuel_enough. lia. Qed.

End for_else_total.

(** ** The first attempt of a loop always runs *)
Section loop_first.
Variables (sys : System) (cmd : string) (r i : Z).
Context {S A : Type}.
Variable body : S -> option (Z * string) -> M (Flow S A).
Variable orelse : S -> M (Completion S A).

Hypothesis Hi : 0 <= i.
Hypothesis Hr : 0 < r.
Hypothesis Hbody : forall s y w res w',
  body s y w = (res, w') -> issued w' = issued w.
Hypothesis Horelse : forall s w res w',
  orelse s w = (res, w') -> issued w' = issued w.

Lemma created_loop_at_least_once s w res w' :
  for_else (poll (cmd_call sys cmd r i)) s body orelse w = (res, w') ->
  exists k, (1 <= k <= Z.to_nat r)%nat /\
            issued w' = issued w ++ repeat cmd k.
Proof.
  rewrite for_else_unfold, next_cmd_created.
  replace (0 <? r) with true by (symmetry; apply Z.ltb_lt; lia).
  destruct (body s (Some (reply_of sys cmd w)) (after_cmd sys cmd w))
    as [[f | e |] w2] eqn:Hb;
    pose proof (Hbody _ _ _ _ _ Hb) as Hw2;
    rewrite issued_after_cmd in Hw2.
  - destruct f as [s' | s' | a].
    + intros Hrun.
      eapply (cmd_loop_bounded sys cmd r i body orelse Hi Hbody Horelse
                (Z.to_nat (r - 1))) in Hrun as (k & Hk & Hiss).
      * exists (Datatypes.S k). split; [lia |].
        rewrite Hiss, Hw2, <- app_assoc. reflexivity.
      * right. right. eauto.
      * unfold attempts_left; simpl. lia.
    + intros H; inversion H; subst. exists 1%nat. split; [lia | auto].
    + intros H; inversion H; subst. exists 1%nat. split; [lia | auto].
  - intros H; inversion H; subst. exists 1%nat. split; [lia | auto].
  - intros H; inversion H; subst. exists 1%nat. split; [lia | auto].
Qed.

End loop_first.

(** ** login and login_all_targets *)

Lemma next_cmd_warnings sys cmd r i fr w res w' :
  next (mkGen (cmd_call sys cmd r i) fr) w = (res, w') ->
  warnings w' = warnings w.
Proof.
  unfold next, cmd_call, prologue, loop_head, run_cmd_args; simpl.
  destruct fr as [| a r0 i0 t cur st |]; simpl; straight_line.
Qed.

Lemma run_cmd_args_total sys a w w' :
  run_cmd_args sys a w <> (OutOfFuel, w').
Proof.
  unfold run_cmd_args. destruct a as [| c [| c' a]]; discriminate.
Qed.

Lemma login_attempt_quiet sys iqn_ ip_ port_ iface_name y w res w' :
  login_attempt sys iqn_ ip_ port_ iface_name y w = (res, w') ->
  issued w' = issued w /\ warnings w' = warnings w /\ res <> OutOfFuel.
Proof.
  unfold login_attempt, unpack. unfold_m; simpl. intros Hrun.
  split_cases Hrun; inversion Hrun; subst; simpl; repeat split;
    discriminate.
Qed.

(** One [login] with the default 20 retries: it returns or raises,
    runs its command at least once and at most 20 times, and logs no
    warning. *)
Lemma login_runs_its_command sys iqn_ ip_ port_ iface_name w :
  exists res w' k,
    login sys iqn_ ip_ port_ iface_name 20 w = (res, w') /\
    res <> OutOfFuel /\
    (1 <= k <= 20)%nat /\
    issued w' = issued w ++ repeat (login_cmd iqn_ ip_ port_ iface_name) k /\
    warnings w' = warnings w.
Proof.
  unfold login. unfold bind at 1.
  destruct (for_else _ _ _ _ w) as [r1 w1] eqn:Hrun.
  assert (Hfuel : r1 <> OutOfFuel).
  { intros ->. revert Hrun. apply for_else_total.
    - intros a w0 w0'. apply run_cmd_args_total.
    - intros s y w0 w0' Hb. apply login_attempt_quiet in Hb as (_ & _ & Hb).
      congruence.
    - discriminate. }
  assert (Hwarn : warnings w1 = warnings w).
  { eapply (for_else_invariant _ (fun w0 => warnings w0 = warnings w));
      [ | | | reflexivity | exact Hrun].
    - intros fr w0 res0 w0' HI Hn. apply next_cmd_warnings in Hn. congruence.
    - intros s y w0 res0 w0' HI Hb.
      apply login_attempt_quiet in Hb as (_ & Hb & _). congruence.
    - intros s w0 res0 w0' HI Ho. inversion Ho; subst. exact HI. }
  apply created_loop_at_least_once in Hrun as (k & Hk & Hiss).
  - assert (Hend : exists res,
      match r1 with
      | Ret a =>
          match a with
          | Normal None =>
              raise UnboundLocalError
                "local variable 'status' referenced before assignment"
          | Normal (Some (status, result)) =>
              raise EnvironmentError
                (name sys +:+ ": iSCSI login to IQN:" +:+ iqn_
                 +:+ " FAILED with" +:+ " status:" +:+ str_of_int status
                 +:+ ", output=" +:+ result +:+ " using cmd:"
                 +:+ login_cmd iqn_ ip_ port_ iface_name)
          | Returned _ => pure tt
          end w1
      | Raise e => (Raise e, w1)
      | OutOfFuel => (OutOfFuel, w1)
      end = (res, w1) /\ res <> OutOfFuel).
    { destruct r1 as [[[[st rs] |] | []] | e |]; unfold_m;
        try (eexists; split; [reflexivity | discriminate]).
      contradiction. }
    destruct Hend as (res & Hres & Hne).
    exists res, w1, k. rewrite Hres. repeat split; try assumption; lia.
  - lia.
  - lia.
  - intros s y w0 res0 w0' Hb. now apply login_attempt_quiet in Hb.
  - intros s w0 res0 w0' Ho. now inversion Ho.
Qed.

(** The logins of a batch, run by the task runner: every target's
    login command is issued, whatever the earlier logins did. *)
Lemma run_tasks_logins sys (targets : list IscsiTarget) : forall w,
  exists failures w' cmds,
    run_tasks (map (fun a => match a with
                             | (iqn_, ip_, port_, iface_name) =>
                                 login sys iqn_ ip_ port_ iface_name 20
                             end)
                   (login_args_list targets)) w
    = (Ret failures, w') /\
    issued w' = issued w ++ cmds /\
    (forall t, t ∈ targets ->
               login_cmd (iqn t) (ip t) 3260 (iface t) ∈ cmds) /\
    warnings w' = warnings w.
Proof.
  induction targets as [| t targets IH]; intros w; simpl.
  - exists [], w, []. unfold pure. rewrite app_nil_r.
    repeat split. intros t Ht. inversion Ht.
  - destruct (login_runs_its_command sys (iqn t) (ip t) 3260 (iface t) w)
      as (res & w1 & k & Hlogin & Hne & Hk & Hiss & Hwarn).
    destruct (IH w1) as (failures & w2 & cmds & Hrest & Hiss2 & Hall & Hwarn2).
    unfold bind at 1. unfold run_task. rewrite Hlogin.
    destruct res as [[] | e |]; [| | contradiction].
    + unfold bind. rewrite Hrest. unfold pure.
      exists failures, w2,
        (repeat (login_cmd (iqn t) (ip t) 3260 (iface t)) k ++ cmds).
      split; [reflexivity |]. split; [| split].
      * rewrite Hiss2, Hiss. now rewrite <- app_assoc.
      * intros t' Ht'. apply elem_of_app.
        apply elem_of_cons in Ht' as [-> | Ht']; [left | right; auto].
        destruct k as [| k']; [lia |]. simpl. left.
      * congruence.
    + unfold bind. rewrite Hrest. unfold pure.
      exists (e :: failures), w2,
        (repeat (login_cmd (iqn t) (ip t) 3260 (iface t)) k ++ cmds).
      split; [reflexivity |]. split; [| split].
      * rewrite Hiss2, Hiss. now rewrite <- app_assoc.
      * intros t' Ht'. apply elem_of_app.
        apply elem_of_cons in Ht' as [-> | Ht']; [left | right; auto].
        destruct k as [| k']; [lia |]. simpl. left.
      * congruence.
Qed.

(** C10: [login_all_targets(iface_name=I)] issues the login command of
    every target in the host's discovered-targets registry, those on
    other interfaces included: the list of logins is built from the
    whole registry entry, and [iface_name] only decides whether the
    zero-targets warning is logged. *)
Theorem login_all_targets_ignores_iface_name
    (sys : System) (udev_timeout : Z) (iface_name : option string)
    (w : World) (discovered : list IscsiTarget) :
  DISCOVERED_TARGETS w !! name sys = Some discovered ->
  exists res w',
    login_all_targets sys udev_timeout iface_name w = (res, w') /\
    res <> OutOfFuel /\
    (forall t, t ∈ discovered ->
       (iqn t, ip t, 3260, iface t) ∈ login_args_list discovered /\
       login_cmd (iqn t) (ip t) 3260 (iface t) ∈ issued w') /\
    warnings w' =
      warnings w ++
      (if (List.length
             (List.filter (fun t => bool_decide (iface t = iface_name))
                          discovered) =? 0)%nat
       then ["Num of discovered targets with iface_name "
             +:+ fmt_opt iface_name +:+ " is 0"]
       else []).
Proof.
  intros Hreg. unfold login_all_targets. unfold bind at 1.
  unfold get_discovered. rewrite Hreg.
  set (msg := "Num of discovered targets with iface_name "
              +:+ fmt_opt iface_name +:+ " is 0").
  set (none := (List.length
                  (List.filter (fun t => bool_decide (iface t = iface_name))
                               discovered) =? 0)%nat).
  set (w0 := if none then snd (warning msg w) else w).
  assert (Hw0 : (if none then warning msg else pure tt) w = (Ret tt, w0)).
  { subst w0. now destruct none. }
  assert (Hw0i : issued w0 = issued w) by (subst w0; now destruct none).
  assert (Hw0w : warnings w0 = warnings w ++ (if none then [msg] else [])).
  { subst w0. destruct none; simpl; [reflexivity | now rewrite app_nil_r]. }
  unfold bind at 1. rewrite Hw0.
  destruct (run_tasks_logins sys discovered w0)
    as (failures & w1 & cmds & Hrun & Hiss & Hall & Hwarn).
  assert (Hmem : forall t, t ∈ discovered ->
            (iqn t, ip t, 3260, iface t) ∈ login_args_list discovered).
  { intros t Ht. unfold login_args_list.
    apply (list_elem_of_fmap_2
             (fun target => (iqn target, ip target, 3260, iface target))).
    exact Ht. }
  unfold bind at 1. unfold run_threads. unfold bind at 1. rewrite Hrun.
  destruct failures as [| e failures].
  - unfold pure at 1. unfold bind at 1.
    unfold run_cmd_check. unfold bind at 1. rewrite run_cmd_eq.
    match goal with
    | |- context [reply_of sys ?c w1] =>
        destruct (reply_of sys c w1) as [st out] eqn:Hreply;
        set (udev := c) in *
    end.
    destruct (negb (st =? 0)); unfold_m; simpl;
      (eexists; eexists; split; [reflexivity |]);
      (split; [discriminate |]); (split; [| simpl; congruence]);
      intros t Ht; (split; [now apply Hmem |]); simpl;
      rewrite Hiss, Hw0i; apply elem_of_app; left;
      apply elem_of_app; right; now apply Hall.
  - unfold raise. eexists; eexists. split; [reflexivity |].
    split; [discriminate |]. split; [| congruence].
    intros t Ht. split; [now apply Hmem |].
    rewrite Hiss, Hw0i. apply elem_of_app. right. now apply Hall.
Qed.

(** C10 on a registry whose only target is on [ifaceABCDE], with the
    default interface asked for. *)
Lemma login_all_targets_witness :
  exists res w',
    login_all_targets client1 960 (Some "default") iface_world = (res, w') /\
    res <> OutOfFuel /\
    (forall t, t ∈ [target_x] ->
       (iqn t, ip t, 3260, iface t) ∈ login_args_list [target_x] /\
       login_cmd (iqn t) (ip t) 3260 (iface t) ∈ issued w') /\
    warnings w' =
      warnings iface_world ++
      (if (List.length
             (List.filter (fun t => bool_decide (iface t = Some "default"))
                          [target_x]) =? 0)%nat
       then ["Num of discovered targets with iface_name "
             +:+ fmt_opt (Some "default") +:+ " is 0"]
       else []).
Proof.
  apply (login_all_targets_ignores_iface_name client1 960 (Some "default")
           iface_world [target_x]).
  reflexivity.
Defined.

(** ** [SSH._open_transport] *)
Section open_transport.
Variables (self : SSH) (net : Network) (uniform : nat -> Q).

Let hostname := transport_hostname self.
Let outcome (k : nat) := net k hostname (_uname self) (_passwd self).

(** A banner failure costs one nap and leads to the next try. *)
Lemma open_transport_loop_retry remaining attempt tr :
  is_banner_failure (outcome attempt) = true ->
  open_transport_loop self net uniform (Datatypes.S remaining) attempt tr
  = open_transport_loop self net uniform remaining (Datatypes.S attempt)
      (mkTrace (tried tr ++ [hostname])
               (slept tr ++ [uniform (List.length (slept tr))])
               (errors tr) (warned tr ++ [retry_warning])).
Proof.
  subst outcome hostname. unfold is_banner_failure.
  cbn [open_transport_loop].
  destruct (net attempt _ _ _) as [t | ex]; [discriminate |].
  destruct (isinstance ex [socket_error]); [discriminate |].
  destruct (isinstance ex [BadAuthenticationType]); [discriminate |].
  destruct (isinstance ex [SSHException]); [| discriminate].
  cbn [negb andb]. intros ->. reflexivity.
Qed.

(** Any other outcome ends the call at once. *)
Lemma open_transport_loop_final remaining attempt tr :
  is_banner_failure (outcome attempt) = false ->
  exists tr',
    open_transport_loop self net uniform (Datatypes.S remaining) attempt tr
    = (final_result (outcome attempt), tr') /\
    tried tr' = tried tr ++ [hostname] /\ slept tr' = slept tr.
Proof.
  subst outcome hostname. unfold is_banner_failure, final_result.
  cbn [open_transport_loop].
  destruct (net attempt _ _ _) as [t | ex].
  - intros _. eexists. split; [reflexivity |]. split; reflexivity.
  - destruct (isinstance ex [socket_error]).
    { intros _. eexists. split; [reflexivity |]. split; reflexivity. }
    destruct (isinstance ex [BadAuthenticationType]).
    { intros _. eexists. split; [reflexivity |]. split; reflexivity. }
    destruct (isinstance ex [SSHException]); cbn [negb andb].
    + intros ->. eexists. split; [reflexivity |]. split; reflexivity.
    + intros _. eexists. split; [reflexivity |]. split; reflexivity.
Qed.

Lemma open_transport_loop_all_banner (remaining : nat) :
  forall attempt tr,
    List.length (slept tr) = attempt ->
    (forall k, (attempt <= k < attempt + remaining)%nat ->
               is_banner_failure (outcome k) = true) ->
    open_transport_loop self net uniform remaining attempt tr
    = (Raise (Exn ConnectionError
                  ("After 100 attempts, failed to connect to "
                   +:+ _hname self)),
       mkTrace (tried tr ++ repeat hostname remaining)
               (slept tr ++ map uniform (seq attempt remaining))
               (errors tr)
               (warned tr ++ repeat retry_warning remaining)).
Proof.
  induction remaining as [| remaining IH]; intros attempt tr Hlen Hall.
  - simpl. rewrite !app_nil_r. now destruct tr.
  - rewrite open_transport_loop_retry by (apply Hall; lia).
    rewrite IH; simpl.
    + rewrite <- !app_assoc. simpl. rewrite Hlen. reflexivity.
    + rewrite length_app. simpl. lia.
    + intros k Hk. apply Hall. lia.
Qed.

Lemma open_transport_loop_first_other (n : nat) :
  forall remaining attempt tr,
    List.length (slept tr) = attempt ->
    (n < remaining)%nat ->
    (forall k, (attempt <= k < attempt + n)%nat ->
               is_banner_failure (outcome k) = true) ->
    is_banner_failure (outcome (attempt + n)) = false ->
    exists tr',
      open_transport_loop self net uniform remaining attempt tr
      = (final_result (outcome (attempt + n)), tr') /\
      tried tr' = tried tr ++ repeat hostname (Datatypes.S n) /\
      slept tr' = slept tr ++ map uniform (seq attempt n).
Proof.
  induction n as [| n IH]; intros remaining attempt tr Hlen Hlt Hall Hn.
  - destruct remaining as [| remaining]; [lia |].
    rewrite Nat.add_0_r in Hn.
    destruct (open_transport_loop_final remaining attempt tr Hn)
      as (tr' & Hrun & Htried & Hslept).
    exists tr'. rewrite Nat.add_0_r. split; [exact Hrun |].
    simpl. rewrite app_nil_r. auto.
  - destruct remaining as [| remaining]; [lia |].
    rewrite open_transport_loop_retry by (apply Hall; lia).
    destruct (IH remaining (Datatypes.S attempt)
                 (mkTrace (tried tr ++ [hostname])
                          (slept tr ++ [uniform (List.length (slept tr))])
                          (errors tr) (warned tr ++ [retry_warning])))
      as (tr' & Hrun & Htried & Hslept).
    + simpl. rewrite length_app. simpl. lia.
    + lia.
    + intros k Hk. apply Hall. lia.
    + replace (Datatypes.S attempt + n)%nat
        with (attempt + Datatypes.S n)%nat by lia. exact Hn.
    + exists tr'.
      replace (attempt + Datatypes.S n)%nat
        with (Datatypes.S attempt + n)%nat by lia.
      split; [exact Hrun |]. simpl in *.
      rewrite Htried, Hslept, <- !app_assoc. simpl. rewrite Hlen. auto.
Qed.

Lemma open_transport_loop_cap (remaining : nat) : forall attempt tr,
  (List.length
     (tried (snd (open_transport_loop self net uniform remaining attempt
                                      tr)))
   <= List.length (tried tr) + remaining)%nat.
Proof.
  induction remaining as [| remaining IH]; intros attempt tr.
  - simpl. lia.
  - destruct (is_banner_failure (outcome attempt)) eqn:Hb.
    + rewrite open_transport_loop_retry by exact Hb.
      etransitivity; [apply IH |]. simpl. rewrite length_app. simpl. lia.
    + destruct (open_transport_loop_final remaining attempt tr Hb)
        as (tr' & Hrun & Htried & _).
      rewrite Hrun. simpl. rewrite Htried, length_app. simpl. lia.
Qed.

End open_transport.

(** C6: [_open_transport] tries again only after the banner-exchange
    failure (an [SSHException] whose text holds the protocol-banner
    error), taking one nap of [random.uniform(.100, .200)] seconds
    before each new try; it never makes more than 100 tries, and after
    100 banner failures it raises [ConnectionError]; the first try
    that ends otherwise ends the call with its transport or its
    exception; in particular an authentication failure on the first
    try propagates at once, with no retry and no nap. *)
Theorem open_transport_retries_only_on_banner_error
    (self : SSH) (net : Network) (uniform : nat -> Q) :
  let hostname := transport_hostname self in
  let outcome k := net k hostname (_uname self) (_passwd self) in
  (List.length (tried (snd (_open_transport self net uniform))) <= 100)%nat
  /\
  ((forall k, (k < 100)%nat -> is_banner_failure (outcome k) = true) ->
   _open_transport self net uniform
   = (Raise (Exn ConnectionError
                 ("After 100 attempts, failed to connect to "
                  +:+ _hname self)),
      mkTrace (repeat hostname 100) (map uniform (seq 0 100)) []
              (repeat retry_warning 100)))
  /\
  (forall n,
     (n < 100)%nat ->
     (forall k, (k < n)%nat -> is_banner_failure (outcome k) = true) ->
     is_banner_failure (outcome n) = false ->
     exists tr,
       _open_transport self net uniform = (final_result (outcome n), tr) /\
       tried tr = repeat hostname (Datatypes.S n) /\
       slept tr = map uniform (seq 0 n))
  /\
  (forall ex,
     outcome 0%nat = Failed ex ->
     isinstance ex [BadAuthenticationType] = true \/
     (isinstance ex [SSHException] = true /\
      contains banner_error (exn_msg ex) = false) ->
     exists tr,
       _open_transport self net uniform = (Raise ex, tr) /\
       tried tr = [hostname] /\ slept tr = []).
Proof.
  intros hostname outcome.
  assert (Hother : forall n,
     (n < 100)%nat ->
     (forall k, (k < n)%nat -> is_banner_failure (outcome k) = true) ->
     is_banner_failure (outcome n) = false ->
     exists tr,
       _open_transport self net uniform = (final_result (outcome n), tr) /\
       tried tr = repeat hostname (Datatypes.S n) /\
       slept tr = map uniform (seq 0 n)).
  { intros n Hn Hall Hlast. unfold _open_transport, retry_attemps.
    destruct (open_transport_loop_first_other self net uniform n 100 0
                no_trace) as (tr & Hrun & Htried & Hslept); auto.
    - intros k Hk. apply Hall. lia.
    - exists tr. auto. }
  split; [| split; [| split]].
  - unfold _open_transport, retry_attemps.
    etransitivity; [apply open_transport_loop_cap |]. simpl. lia.
  - intros Hall. unfold _open_transport, retry_attemps.
    rewrite open_transport_loop_all_banner; [reflexivity | reflexivity |].
    intros k Hk. apply Hall. lia.
  - exact Hother.
  - intros ex Hex Hauth.
    destruct (Hother 0%nat) as (tr & Hrun & Htried & Hslept).
    + lia.
    + intros k Hk. lia.
    + rewrite Hex. unfold is_banner_failure.
      destruct Hauth as [-> | [_ ->]].
      * now rewrite andb_false_r.
      * now rewrite andb_false_r.
    + exists tr. rewrite Hex in Hrun. auto.
Qed.

(** C6 on a server that never gets past the banner exchange, and on
    one that refuses the authentication type. *)
Lemma open_transport_witness :
  _open_transport ssh_client banner_net (fun _ => 3 # 20)
  = (Raise (Exn ConnectionError
                "After 100 attempts, failed to connect to 10.0.0.5"),
     mkTrace (repeat "10.0.0.5" 100) (repeat (3 # 20) 100) []
             (repeat retry_warning 100))
  /\
  exists tr,
    _open_transport ssh_client bad_auth_net (fun _ => 3 # 20)
    = (Raise (Exn BadAuthenticationType "Bad authentication type"), tr) /\
    tried tr = ["10.0.0.5"] /\ slept tr = [].
Proof.
  split.
  - destruct (open_transport_retries_only_on_banner_error
                ssh_client banner_net (fun _ => 3 # 20))
      as (_ & Hall & _).
    apply Hall. intros k Hk. reflexivity.
  - destruct (open_transport_retries_only_on_banner_error
                ssh_client bad_auth_net (fun _ => 3 # 20))
      as (_ & _ & _ & Hauth).
    apply Hauth; [reflexivity | left; reflexivity].
Defined.

(** ** [Async.read] and [Async.output] *)

Lemma string_app_assoc (a b c : string) :
  ((a +:+ b) +:+ c = a +:+ (b +:+ c))%string.
Proof.
  induction a as [| ch a IH]; [reflexivity |].
  change (String ch ((a +:+ b) +:+ c) = String ch (a +:+ (b +:+ c))).
  now f_equal.
Qed.

Lemma string_app_empty_r (a : string) : (a +:+ "" = a)%string.
Proof.
  induction a as [| ch a IH]; [reflexivity |].
  change (String ch (a +:+ "") = String ch a). now f_equal.
Qed.

Lemma concat_str_app (l1 l2 : list string) :
  concat_str (l1 ++ l2) = (concat_str l1 +:+ concat_str l2)%string.
Proof.
  unfold concat_str.
  induction l1 as [| s l1 IH]; simpl; [reflexivity |].
  rewrite IH. symmetry. apply string_app_assoc.
Qed.

(** The text handed out so far is the text of the blocks below the
    cursor; an undisturbed [read] hands out the rest and moves the
    cursor to the end. *)
Lemma read_quiet_delivers (self : Async) value self' :
  (_last_read_pointer self <= List.length (_output_cache self))%nat ->
  read quiet self = (value, self') ->
  _output_cache self' = _output_cache self /\
  _last_read_pointer self' = List.length (_output_cache self') /\
  (concat_str (List.concat (take (_last_read_pointer self)
                                 (_output_cache self))) +:+ value)%string
  = output_of self'.
Proof.
  intros Hptr. unfold read, quiet, output_of; simpl.
  case_bool_decide as Hempty.
  - intros [= <- <-]. simpl. rewrite Hempty in *. simpl in *.
    assert (_last_read_pointer self = 0%nat) as -> by lia. auto.
  - destruct (_last_read_pointer self <? List.length (_output_cache self))%nat
      eqn:Hlt.
    + intros [= <- <-]. simpl. repeat split.
      rewrite <- concat_str_app, <- concat_app, take_drop. reflexivity.
    + apply Nat.ltb_ge in Hlt. intros [= <- <-]. simpl.
      assert (Heq : _last_read_pointer self
                    = List.length (_output_cache self)) by lia.
      repeat split; [exact Heq |].
      rewrite take_ge by lia. apply string_app_empty_r.
Qed.

Lemma run_app (e1 e2 : list Event) : forall self,
  run (e1 ++ e2) self =
  let (v1, a1) := run e1 self in
  let (v2, a2) := run e2 a1 in
  (v1 ++ v2, a2).
Proof.
  induction e1 as [| ev e1 IH]; intros self; simpl.
  - now destruct (run e2 self).
  - destruct ev as [data | during].
    + apply IH.
    + destruct (read during self) as [value self'].
      rewrite IH. destruct (run e1 self') as [v1 a1].
      now destruct (run e2 a1) as [v2 a2].
Qed.

(** With every [read] running undisturbed, the values handed out so
    far always add up to the text of the blocks below the cursor. *)
Lemma run_quiet_delivers (events : list Event) : forall self values final,
  (forall during, Read during ∈ events -> during = quiet) ->
  (_last_read_pointer self <= List.length (_output_cache self))%nat ->
  run events self = (values, final) ->
  (_last_read_pointer final <= List.length (_output_cache final))%nat /\
  concat_str (List.concat (take (_last_read_pointer final)
                                (_output_cache final)))
  = (concat_str (List.concat (take (_last_read_pointer self)
                                   (_output_cache self)))
     +:+ concat_str values)%string.
Proof.
  induction events as [| ev events IH]; intros self values final Hq Hptr;
    simpl.
  - intros H; inversion H; subst. split; [exact Hptr |].
    simpl. symmetry. apply string_app_empty_r.
  - destruct ev as [data | during].
    + intros Hrun. apply IH in Hrun as [Hptr' Hrun].
      * split; [exact Hptr' |]. rewrite Hrun. simpl.
        rewrite take_app_le by exact Hptr. reflexivity.
      * intros during Hin. apply Hq. now right.
      * simpl. rewrite length_app. simpl. lia.
    + assert (during = quiet) as -> by (apply Hq; left).
      destruct (read quiet self) as [value self'] eqn:Hread.
      destruct (run events self') as [values' final'] eqn:Hrun.
      intros H; inversion H; subst; clear H.
      apply read_quiet_delivers in Hread as (Hcache & Hcur & Hout);
        [| exact Hptr].
      apply IH in Hrun as [Hptr' Hrun].
      * split; [exact Hptr' |]. rewrite Hrun.
        rewrite Hcur, take_ge by lia.
        unfold output_of in Hout. rewrite <- Hout.
        change (concat_str (value :: values'))
          with (value +:+ concat_str values')%string.
        apply string_app_assoc.
      * intros during Hin. apply Hq. now right.
      * lia.
Qed.

(** When no chunk arrives while a [read] is running, the values of
    the [read] calls add up to [output] as of the last [read]. *)
Lemma quiet_reads_add_up_to_output (events : list Event) values final :
  (forall during, Read during ∈ events -> during = quiet) ->
  run (events ++ [Read quiet]) started = (values, final) ->
  concat_str values = output_of final.
Proof.
  intros Hq. rewrite run_app.
  destruct (run events started) as [v1 a1] eqn:Hrun1. simpl.
  destruct (read quiet a1) as [value a2] eqn:Hread.
  intros H; inversion H; subst; clear H.
  apply run_quiet_delivers in Hrun1 as [Hptr Hdel]; [| exact Hq | simpl; lia].
  apply read_quiet_delivers in Hread as (_ & _ & Hout); [| exact Hptr].
  rewrite <- Hout, Hdel. simpl.
  rewrite concat_str_app. simpl. now rewrite string_app_empty_r.
Qed.

(** C9 at a failing interleaving: the command has printed "a"; while
    the first [read] is between taking its slice and storing the
    cursor, the background thread appends "b".  The cursor is stored as
    2, so the first [read] returns "a", the second returns "", and "b"
    is never handed out: the values of the [read] calls add up to "a"
    while [output] is "ab". *)
Lemma read_skips_chunk_appended_during_read :
  let events := [Recv "a"; Read (mkArrivals [] [] ["b"]); Read quiet] in
  let (values, final) := run events started in
  values = ["a"; ""] /\
  concat_str values = "a" /\
  output_of final = "ab" /\
  _last_read_pointer final = 2%nat.
Proof. vm_compute. repeat split; reflexivity. Qed.

(** ** Further facts on the parts of the claims the code does keep *)

(** How [logout] classifies one command outcome: exit status 0 and the
    already-gone statuses 3, 7 and 21 end the loop without an
    exception, and so does an output equal to one of the two texts of
    [error_response]; status 6 logs the warning and asks for the next
    attempt; any other status asks for the next attempt silently. *)
Lemma logout_attempt_classification sys iqn_ ip ret out w :
  let run := logout_attempt sys iqn_ ip (Some (ret, out)) w in
  let benign := bool_decide (ret ∈ logout_error_code)
                || bool_decide (out ∈ logout_error_response) in
  (ret = 0 -> run = (Ret (Break (Some (ret, out))), w)) /\
  (ret <> 0 -> benign = true -> run = (Ret (Break (Some (ret, out))), w)) /\
  (ret = 6 -> benign = false ->
   run = (Ret (Next (Some (ret, out))),
          snd (warning ("System " +:+ name sys
                        +:+ " temporary iSCSI DB logout error") w))) /\
  (ret <> 0 -> ret <> 6 -> benign = false ->
   run = (Ret (Next (Some (ret, out))), w)).
Proof.
  intros run benign. subst run benign. unfold logout_attempt, unpack.
  repeat split.
  - intros ->. simpl. unfold bind.
    now rewrite remove_iscsi_loggedin_target_using_iqn_noop.
  - intros Hnz Hb. apply Z.eqb_neq in Hnz. now rewrite Hnz, Hb.
  - intros -> Hb. simpl in *. now rewrite Hb.
  - intros Hnz H6 Hb. apply Z.eqb_neq in Hnz. apply Z.eqb_neq in H6.
    now rewrite Hnz, Hb, H6.
Qed.

Lemma discover_attempt_issued sys iqns port_ iface_name start_time timeout
    y w res w' :
  discover_attempt sys iqns port_ iface_name start_time timeout y w
  = (res, w') ->
  issued w' = issued w.
Proof.
  unfold discover_attempt, unpack, discover_retry_or_break. straight_line.
Qed.

(** Whatever the host answers, [discover] runs its command at most 5
    times. *)
Lemma discover_at_most_5 sys ip_ iqn_ port_ iface_name timeout w res w' :
  discover sys ip_ iqn_ port_ iface_name timeout w = (res, w') ->
  exists k cmd, (k <= 5)%nat /\ issued w' = issued w ++ repeat cmd k.
Proof.
  unfold discover. unfold bind at 1.
  set (prep := match iqn_ with
               | IqnList (q :: l) => _
               | IqnStr s => _
               | _ => _
               end).
  destruct (prep w) as [[[cmd iqns] | e |] w0] eqn:Hprep.
  - assert (Hw0 : w0 = w).
    { subst prep. destruct iqn_ as [| s | [| q l]]; unfold_m;
        try discriminate.
      - destruct (truthy s); inversion Hprep; reflexivity.
      - inversion Hprep; reflexivity. }
    subst w0. unfold bind at 1. unfold time. unfold bind at 1.
    destruct (for_else _ _ _ _ w) as [r1 w1] eqn:Hrun. intros H.
    assert (Hw : w' = w1) by (destruct r1; inversion H; reflexivity).
    subst w1.
    eapply (cmd_loop_bounded sys _ _DISCOVERY_RETRY_COUNT
              _ISCSIADM_RETRY_INTERVAL) with (n := 5%nat) in Hrun
      as (k & Hk & Hiss).
    + exists k. eexists. split; [exact Hk | exact Hiss].
    + unfold _ISCSIADM_RETRY_INTERVAL. lia.
    + intros s y w0 res0 w0'. apply discover_attempt_issued.
    + intros s w0 res0 w0' Ho. unfold raise in Ho. now inversion Ho.
    + left. reflexivity.
    + vm_compute. lia.
  - intros H; inversion H; subst. exists 0%nat, "".
    split; [lia |]. simpl. rewrite app_nil_r.
    subst prep. destruct iqn_ as [| s | [| q l]]; unfold_m;
      try (inversion Hprep; reflexivity).
    destruct (truthy s); inversion Hprep; reflexivity.
  - subst prep. destruct iqn_ as [| s | [| q l]]; unfold_m;
      try discriminate.
    destruct (truthy s); discriminate.
Qed.

(** For a named interface, [destroy_iface] never raises: every
    non-zero status of either command is taken for "already gone". *)
Lemma destroy_iface_never_raises sys iface_name w :
  truthy iface_name = true ->
  exists w', destroy_iface sys iface_name w = (Ret tt, w').
Proof.
  intros Htruthy. unfold destroy_iface.
  assert (Hforce : exists w0,
            force_logout_all sys (Some iface_name) w = (Ret tt, w0)).
  { unfold force_logout_all. simpl truthy_opt. rewrite Htruthy.
    unfold bind at 1. rewrite run_cmd_eq.
    destruct (reply_of sys _ w) as [ret out].
    destruct (negb (ret =? 0)).
    - rewrite force_logout_benign_always. unfold pure. eauto.
    - unfold bind, get_loggedin.
      destruct (ISCSI_LOGGEDIN_TARGETS _ !! name sys) as [[| t l] |] eqn:Hl;
        unfold pure; eauto.
      unfold remove_target_from_iscsi_loggedin_targets.
      unfold bind, get_loggedin. rewrite Hl. unfold set_loggedin. eauto. }
  destruct Hforce as [w0 Hforce]. unfold bind at 1. rewrite Hforce.
  destruct (destroy_iface_loop_returns sys (destroy_iface_cmd iface_name)
              10 w0) as (c & w1 & k & Hloop & _ & _).
  unfold bind at 1. rewrite Hloop.
  destruct c as [[] | []].
  - unfold bind, get_discovered.
    destruct (DISCOVERED_TARGETS w1 !! name sys) as [[| t l] |];
      unfold pure, set_discovered; eauto.
  - unfold pure. eauto.
Qed.

(** The removal loops over a copy of the list take out exactly the
    targets that pass the test. *)
Lemma remove_first_skip (x : IscsiTarget) (kept rest : list IscsiTarget) :
  (forall y, y ∈ kept -> y <> x) ->
  remove_first x (kept ++ x :: rest) = kept ++ rest.
Proof.
  induction kept as [| y kept IH]; intros Hne; simpl.
  - now rewrite bool_decide_eq_true_2.
  - rewrite bool_decide_eq_false_2 by (apply Hne; left).
    f_equal. apply IH. intros z Hz. apply Hne. now right.
Qed.

Lemma remove_where_spec (test : IscsiTarget -> bool) (copy : list IscsiTarget) :
  forall kept,
    (forall y, y ∈ kept -> test y = false) ->
    remove_where test copy (kept ++ copy)
    = kept ++ List.filter (fun t => negb (test t)) copy.
Proof.
  unfold remove_where.
  induction copy as [| t copy IH]; intros kept Hkept; simpl; [reflexivity |].
  destruct (test t) eqn:Ht; simpl.
  - rewrite remove_first_skip.
    + now apply IH.
    + intros y Hy ->. apply Hkept in Hy. congruence.
  - replace (kept ++ t :: copy) with ((kept ++ [t]) ++ copy)
      by now rewrite <- app_assoc.
    rewrite IH.
    + now rewrite <- app_assoc.
    + intros y Hy. apply elem_of_app in Hy as [Hy | Hy]; [auto |].
      apply list_elem_of_singleton in Hy. now subst.
Qed.

Lemma remove_where_filter (test : IscsiTarget -> bool) (l : list IscsiTarget) :
  remove_where test l l = List.filter (fun t => negb (test t)) l.
Proof.
  apply (remove_where_spec test l []). intros y Hy. inversion Hy.
Qed.

Lemma delete_attempt_discovered sys y w res w' :
  delete_attempt sys y w = (res, w') ->
  DISCOVERED_TARGETS w' = DISCOVERED_TARGETS w.
Proof. unfold delete_attempt, unpack. straight_line. Qed.

(** What [delete] does keep of the idempotence contract: when it
    returns (on exit status 0, or on the already-deleted outcome of a
    second call), no target
    with that IQN is left in the host's discovered list, and the other
    targets of the host are all still there. *)
Lemma delete_removes_iqn sys iqn_ ip_ w w' :
  delete sys iqn_ ip_ w = (Ret tt, w') ->
  forall t,
    t ∈ default [] (DISCOVERED_TARGETS w' !! name sys) <->
    t ∈ default [] (DISCOVERED_TARGETS w !! name sys) /\ iqn t <> iqn_.
Proof.
  unfold delete. unfold bind at 1.
  destruct (for_else _ _ _ _ w) as [r1 w1] eqn:Hrun.
  assert (Hreg : DISCOVERED_TARGETS w1 = DISCOVERED_TARGETS w).
  { eapply (for_else_invariant _
              (fun w0 => DISCOVERED_TARGETS w0 = DISCOVERED_TARGETS w));
      [ | | | reflexivity | exact Hrun].
    - intros fr w0 res0 w0' HI Hn.
      apply next_cmd_registries in Hn as [Hn _]. congruence.
    - intros s y w0 res0 w0' HI Hb.
      apply delete_attempt_discovered in Hb. congruence.
    - intros s w0 res0 w0' HI Ho. unfold raise_failed, raise in Ho.
      inversion Ho; subst. exact HI. }
  destruct r1 as [c | e |]; try discriminate.
  unfold delete_bookkeeping, bind, get_discovered. rewrite Hreg.
  destruct (DISCOVERED_TARGETS w !! name sys) as [[| t0 l] |] eqn:Hl.
  - unfold pure. intros [= <-] t. rewrite Hreg, Hl. simpl.
    split; [intros H; inversion H | intros [H _]; inversion H].
  - unfold set_discovered. intros [= <-] t.
    cbn [DISCOVERED_TARGETS]. rewrite lookup_insert_eq.
    unfold default at 1. cbn [from_option id]. unfold id.
    rewrite remove_where_filter.
    rewrite list_elem_of_In, filter_In, <- list_elem_of_In.
    rewrite negb_true_iff. split.
    + intros [Hin Hne]. split; [exact Hin |].
      intros Heq. apply String.eqb_neq in Hne. contradiction.
    + intros [Hin Hne]. split; [exact Hin |].
      now apply String.eqb_neq.
  - unfold pure. intros [= <-] t. rewrite Hreg, Hl. simpl.
    split; [intros H; inversion H | intros [H _]; inversion H].
Qed.

(* ===================================================================== *)
(** * Part III: further properties of the code                            *)
(* ===================================================================== *)

(** ** login *)

Lemma login_attempt_issued sys iqn_ ip_ port_ iface_name y w res w' :
  login_attempt sys iqn_ ip_ port_ iface_name y w = (res, w') ->
  issued w' = issued w.
Proof. intros H. now apply login_attempt_quiet in H. Qed.

(** X1: [login] ([qalib/client/iscsi.py], lines 813-859): its [timeout]
    parameter is handed to [poll] as the retry count, so whatever the
    host answers, [login] runs its one command at most [timeout] times
    (never, when [timeout] is not positive), and runs nothing else. *)
Theorem login_at_most_timeout sys iqn_ ip_ port_ iface_name timeout w :
  exists k, (k <= Z.to_nat timeout)%nat /\
    issued (snd (login sys iqn_ ip_ port_ iface_name timeout w))
    = issued w ++ repeat (login_cmd iqn_ ip_ port_ iface_name) k.
Proof.
  destruct (login sys iqn_ ip_ port_ iface_name timeout w) as [res w'] eqn:H.
  simpl snd. revert H.
  unfold login. unfold bind at 1.
  destruct (for_else _ _ _ _ w) as [r1 w1] eqn:Hrun. intros H.
  assert (Hw : w' = w1).
  { destruct r1 as [[[[s o]|] | a] | e |]; unfold pure, raise in H;
      inversion H; reflexivity. }
  subst w1.
  eapply (cmd_loop_bounded sys _ timeout 1) with (n := Z.to_nat timeout);
    [ | | | left; reflexivity | | exact Hrun].
  - lia.
  - intros s y w0 res0 w0'. apply login_attempt_issued.
  - intros s w0 res0 w0' Ho. unfold pure in Ho. now inversion Ho.
  - unfold attempts_left. simpl. lia.
Qed.

(** X2: [login] with a [timeout] that is not positive: the generator of
    [poll] yields nothing, the loop body never binds [status], and the
    error message built after the loop fails with an
    [UnboundLocalError] (a [NameError], not the [EnvironmentError] of
    the docstring).  No command is run and nothing changes. *)
Theorem login_nonpositive_timeout sys iqn_ ip_ port_ iface_name timeout w :
  timeout <= 0 ->
  login sys iqn_ ip_ port_ iface_name timeout w
  = (Raise (Exn UnboundLocalError
              "local variable 'status' referenced before assignment"), w).
Proof.
  intros Ht. unfold login. unfold bind at 1.
  rewrite for_else_unfold, next_cmd_created.
  assert (H0 : (0 <? timeout) = false) by (apply Z.ltb_ge; lia).
  rewrite H0. reflexivity.
Qed.

Lemma login_nonpositive_timeout_witness :
  login client1 "iqn.a" (Some "10.0.0.1") 3260 (Some "default") 0 (boot 0)
  = (Raise (Exn UnboundLocalError
              "local variable 'status' referenced before assignment"),
     boot 0).
Proof.
  apply (login_nonpositive_timeout client1 "iqn.a" (Some "10.0.0.1") 3260
           (Some "default") 0 (boot 0)).
  lia.
Defined.

(** X3: [login] against a host that never answers with one of the statuses
    0, 3, 8 or 21 (and whose commands each end within [D] seconds,
    with all attempts inside the 1,000,000 seconds [poll] allows): the
    command is run exactly [timeout] times, and then [login] raises an
    [EnvironmentError] that carries the status and the output of the
    last of these runs. *)
Theorem login_failing_host sys iqn_ ip_ port_ iface_name timeout D w :
  0 < timeout ->
  (forall n c, bool_decide (status (host sys n c) ∈ [0; 3; 8; 21]) = false) ->
  (forall n c, 0 <= duration (host sys n c) <= D) ->
  (timeout - 1) * (D + 1) < 1000000 ->
  let cmd := login_cmd iqn_ ip_ port_ iface_name in
  let last :=
    host sys (List.length (issued w) + Z.to_nat timeout - 1)%nat cmd in
  exists w',
    login sys iqn_ ip_ port_ iface_name timeout w
    = (Raise (Exn EnvironmentError
                (name sys +:+ ": iSCSI login to IQN:" +:+ iqn_
                 +:+ " FAILED with" +:+ " status:"
                 +:+ str_of_int (status last)
                 +:+ ", output=" +:+ output last +:+ " using cmd:"
                 +:+ cmd)), w') /\
    issued w' = issued w ++ repeat cmd (Z.to_nat timeout).
Proof.
  intros Ht Hst Hdur Hfit cmd last.
  assert (Hbody : forall (last : option (Z * string)) w1,
    exists w2,
      login_attempt sys iqn_ ip_ port_ iface_name
        (Some (reply_of sys cmd w1)) (after_cmd sys cmd w1)
      = (Ret (Next (Some (reply_of sys cmd w1))), w2) /\
      issued w2 = issued (after_cmd sys cmd w1) /\
      now w2 = now (after_cmd sys cmd w1)).
  { intros _ w1. exists (after_cmd sys cmd w1).
    unfold login_attempt, unpack, reply_of.
    specialize (Hst (List.length (issued w1)) cmd).
    apply bool_decide_eq_false in Hst.
    set (st := status _) in *. cbv zeta.
    destruct (Z.eqb_spec st 0) as [E | _].
    - exfalso. apply Hst. rewrite E. left.
    - rewrite bool_decide_eq_false_2; [auto |].
      intros Hin. apply Hst. now right. }
  destruct (created_loop_runs_out sys cmd timeout 1 D
              (fun _ y => login_attempt sys iqn_ ip_ port_ iface_name y)
              (fun last => pure (Normal last))
              ltac:(lia) Hdur Hfit Hbody w Ht) as (w1 & Hrun & Hiss).
  unfold login. fold cmd. unfold bind at 1. rewrite Hrun.
  unfold pure at 1. unfold nth_reply. fold last. cbv zeta.
  exists w1. split; [reflexivity | exact Hiss].
Qed.

Lemma login_failing_host_witness :
  exists w',
    login (on_host busy_host) "iqn.a" (Some "10.0.0.1") 3260
          (Some "default") 20 (boot 0)
    = (Raise (Exn EnvironmentError
                (name (on_host busy_host) +:+ ": iSCSI login to IQN:"
                 +:+ "iqn.a" +:+ " FAILED with" +:+ " status:"
                 +:+ str_of_int 6 +:+ ", output="
                 +:+ "iscsiadm: encountered iSCSI database failure"
                 +:+ " using cmd:"
                 +:+ login_cmd "iqn.a" (Some "10.0.0.1") 3260
                               (Some "default"))), w') /\
    issued w'
    = issued (boot 0)
      ++ repeat (login_cmd "iqn.a" (Some "10.0.0.1") 3260 (Some "default"))
                (Z.to_nat 20).
Proof.
  apply (login_failing_host (on_host busy_host) "iqn.a" (Some "10.0.0.1")
           3260 (Some "default") 20 0 (boot 0)).
  - lia.
  - intros n c. reflexivity.
  - intros n c. simpl. lia.
  - lia.
Defined.

Lemma register_NoDup host_name x reg :
  NoDup (default [] (reg !! host_name)) ->
  NoDup (default [] (register host_name x reg !! host_name)).
Proof.
  unfold register. destruct (reg !! host_name) as [l |] eqn:Hl; simpl.
  - intros Hnd. case_bool_decide as Hin.
    + now rewrite Hl.
    + rewrite lookup_insert_eq. simpl.
      apply NoDup_app. split; [exact Hnd |]. split.
      * intros y Hy Hyx. apply list_elem_of_singleton in Hyx. now subst.
      * apply NoDup_singleton.
  - intros _. rewrite lookup_insert_eq. simpl. apply NoDup_singleton.
Qed.

Lemma login_frame_refl sys target w : login_frame sys target w w.
Proof. unfold login_frame. repeat split; auto. Qed.

Lemma login_attempt_frame sys iqn_ ip_ port_ iface_name y w w0 res w' :
  login_frame sys (mkTarget ip_ port_ iqn_ iface_name) w w0 ->
  login_attempt sys iqn_ ip_ port_ iface_name y w0 = (res, w') ->
  login_frame sys (mkTarget ip_ port_ iqn_ iface_name) w w'.
Proof.
  intros (HD & Hoth & Hkeep & Hnew & Hnd).
  unfold login_attempt, unpack. destruct y as [[st out] |].
  - destruct (st =? 0).
    + unfold_m. intros [= <- <-]. unfold login_frame. simpl.
      split; [exact HD |]. split; [| split; [| split]].
      * intros h Hh. rewrite register_other by exact Hh. now apply Hoth.
      * intros t Ht. apply register_lookup. right. now apply Hkeep.
      * intros t Ht. apply register_lookup in Ht as [-> | Ht]; [now right |].
        now apply Hnew.
      * intros H. apply register_NoDup. now apply Hnd.
    + case_bool_decide; unfold pure; intros [= <- <-];
        exact (conj HD (conj Hoth (conj Hkeep (conj Hnew Hnd)))).
  - unfold raise. intros [= <- <-].
    exact (conj HD (conj Hoth (conj Hkeep (conj Hnew Hnd)))).
Qed.

(** X4: [login], whatever its outcome, only ever adds to the host's list in
    [ISCSI_LOGGEDIN_TARGETS]: every target logged in before is still
    there, the only target that can be new is the one made of the
    call's own [(ip, port, iqn, iface_name)], a list without duplicates
    stays without duplicates, and the lists of the other hosts and
    [DISCOVERED_TARGETS] are untouched. *)
Theorem login_registry_grows_without_duplicates
    sys iqn_ ip_ port_ iface_name timeout w :
  let w' := snd (login sys iqn_ ip_ port_ iface_name timeout w) in
  let target := mkTarget ip_ port_ iqn_ iface_name in
  let before := default [] (ISCSI_LOGGEDIN_TARGETS w !! name sys) in
  let after := default [] (ISCSI_LOGGEDIN_TARGETS w' !! name sys) in
  (forall t, t ∈ before -> t ∈ after) /\
  (forall t, t ∈ after -> t ∈ before \/ t = target) /\
  (NoDup before -> NoDup after) /\
  (forall h, h <> name sys ->
     ISCSI_LOGGEDIN_TARGETS w' !! h = ISCSI_LOGGEDIN_TARGETS w !! h) /\
  DISCOVERED_TARGETS w' = DISCOVERED_TARGETS w.
Proof.
  destruct (login sys iqn_ ip_ port_ iface_name timeout w) as [res w'] eqn:H.
  simpl snd. revert H.
  unfold login. unfold bind at 1.
  destruct (for_else _ _ _ _ w) as [r1 w1] eqn:Hrun. intros H.
  assert (Hw : w' = w1).
  { destruct r1 as [[[[s o]|] | a] | e |]; unfold pure, raise in H;
      inversion H; reflexivity. }
  subst w1. clear H.
  assert (HI : login_frame sys (mkTarget ip_ port_ iqn_ iface_name) w w').
  { eapply (for_else_invariant _
              (login_frame sys (mkTarget ip_ port_ iqn_ iface_name) w));
      [ | | | apply login_frame_refl | exact Hrun].
    - intros fr w0 res0 w0' HI Hn.
      apply next_cmd_registries in Hn as [HnD HnL].
      unfold login_frame in *. rewrite HnD, HnL. exact HI.
    - intros s y w0 res0 w0' HI Hb. simpl in Hb.
      exact (login_attempt_frame _ _ _ _ _ _ _ _ _ _ HI Hb).
    - intros s w0 res0 w0' HI Ho. unfold pure in Ho.
      inversion Ho; subst. exact HI. }
  destruct HI as (HD & Hoth & Hkeep & Hnew & Hnd). cbv zeta.
  repeat split; auto.
Qed.

(** ** force_logout_all and the removal by interface *)

(** X5: [remove_target_from_iscsi_loggedin_targets]
    ([qalib/client/iscsi.py], lines 209-216): the loop over a copy of
    the host's list that removes, one [list.remove] at a time, every
    target on the interface leaves exactly the targets of the other
    interfaces, in their order, also when a target occurs twice; the
    other hosts and [DISCOVERED_TARGETS] are untouched and no command
    is run.  A host without an entry makes the call fail with a
    [KeyError]. *)
Theorem remove_target_from_iscsi_loggedin_targets_filters
    sys iface_name w :
  match ISCSI_LOGGEDIN_TARGETS w !! name sys with
  | None =>
      remove_target_from_iscsi_loggedin_targets sys iface_name w
      = (Raise (Exn KeyError (name sys)), w)
  | Some l =>
      exists w',
        remove_target_from_iscsi_loggedin_targets sys iface_name w
        = (Ret tt, w') /\
        ISCSI_LOGGEDIN_TARGETS w' !! name sys
        = Some (List.filter
                  (fun t => negb (bool_decide (iface t = iface_name))) l) /\
        (forall h, h <> name sys ->
           ISCSI_LOGGEDIN_TARGETS w' !! h = ISCSI_LOGGEDIN_TARGETS w !! h) /\
        DISCOVERED_TARGETS w' = DISCOVERED_TARGETS w /\
        issued w' = issued w
  end.
Proof.
  unfold remove_target_from_iscsi_loggedin_targets, bind, get_loggedin.
  destruct (ISCSI_LOGGEDIN_TARGETS w !! name sys) as [l |] eqn:Hl.
  - unfold set_loggedin. eexists. split; [reflexivity |]. simpl.
    rewrite lookup_insert_eq, remove_where_filter.
    repeat split; try reflexivity.
    intros h Hh. now rewrite lookup_insert_ne.
  - reflexivity.
Qed.

Lemma remove_target_by_iface sys iface_name w l :
  ISCSI_LOGGEDIN_TARGETS w !! name sys = Some l ->
  exists w',
    remove_target_from_iscsi_loggedin_targets sys iface_name w
    = (Ret tt, w') /\
    ISCSI_LOGGEDIN_TARGETS w' !! name sys
    = Some (List.filter
              (fun t => negb (bool_decide (iface t = iface_name))) l) /\
    (forall h, h <> name sys ->
       ISCSI_LOGGEDIN_TARGETS w' !! h = ISCSI_LOGGEDIN_TARGETS w !! h) /\
    DISCOVERED_TARGETS w' = DISCOVERED_TARGETS w /\
    issued w' = issued w.
Proof.
  intros Hl.
  unfold remove_target_from_iscsi_loggedin_targets, bind, get_loggedin.
  rewrite Hl. unfold set_loggedin. eexists. split; [reflexivity |]. simpl.
  rewrite lookup_insert_eq, remove_where_filter.
  repeat split; try reflexivity.
  intros h Hh. now rewrite lookup_insert_ne.
Qed.

(** Closes the goals left when a call changed nothing in a registry. *)
Ltac close_frame :=
  repeat split; auto; try contradiction; try discriminate;
  try (let Hx := fresh in intros Hx; discriminate Hx);
  try (let Hx := fresh in intros (Hx & _ & _); discriminate Hx);
  try (let Hx := fresh in intros (_ & Hx & _); congruence);
  try (let Hx := fresh in intros (_ & _ & Hx); congruence);
  try (intros;
       match goal with
       | Hx : _ ∈ default [] _ |- _ => simpl in Hx; inversion Hx
       end; fail);
  try (intros [Hx _]; exact Hx).

(** X6: [force_logout_all] ([qalib/client/iscsi.py], lines 1005-1040) runs
    exactly one command and never raises an [EnvironmentError]: a
    failed command is always taken for "nothing left to log out" and
    leaves the registry as it was.  When the command succeeds, a named
    interface takes the targets of that interface out of the host's
    logged-in list and keeps the others; no interface name removes the
    host's whole entry.  The call raises, a [KeyError], exactly when
    the command succeeds, no interface is named and the host has no
    entry; in every other case it returns.  The other hosts and
    [DISCOVERED_TARGETS] are never touched. *)
Theorem force_logout_all_outcome sys iface_name w :
  let cmd := force_logout_all_cmd iface_name in
  let ret := fst (reply_of sys cmd w) in
  let res := fst (force_logout_all sys iface_name w) in
  let w' := snd (force_logout_all sys iface_name w) in
  let before := ISCSI_LOGGEDIN_TARGETS w in
  let after := ISCSI_LOGGEDIN_TARGETS w' in
  issued w' = issued w ++ [cmd] /\
  DISCOVERED_TARGETS w' = DISCOVERED_TARGETS w /\
  (forall h, h <> name sys -> after !! h = before !! h) /\
  (res = Ret tt \/ res = Raise (Exn KeyError (name sys))) /\
  (res = Raise (Exn KeyError (name sys)) <->
   truthy_opt iface_name = false /\ ret = 0 /\ before !! name sys = None) /\
  (ret <> 0 -> res = Ret tt /\ after = before) /\
  (ret = 0 -> truthy_opt iface_name = true ->
   forall t, t ∈ default [] (after !! name sys) <->
             t ∈ default [] (before !! name sys) /\ iface t <> iface_name) /\
  (ret = 0 -> truthy_opt iface_name = false -> after !! name sys = None).
Proof.
  destruct (force_logout_all sys iface_name w) as [res w'] eqn:H.
  simpl fst at 2. simpl snd. revert H.
  unfold force_logout_all, force_logout_all_cmd. cbv zeta.
  set (cmd := join " " _).
  unfold bind at 1. rewrite run_cmd_eq.
  destruct (reply_of sys cmd w) as [ret out] eqn:Hreply.
  cbv beta iota. simpl fst.
  assert (HL : ISCSI_LOGGEDIN_TARGETS (after_cmd sys cmd w)
               = ISCSI_LOGGEDIN_TARGETS w) by reflexivity.
  assert (HD : DISCOVERED_TARGETS (after_cmd sys cmd w)
               = DISCOVERED_TARGETS w) by reflexivity.
  pose proof (issued_after_cmd sys cmd w) as Hiss.
  destruct (Z.eqb_spec ret 0) as [E | Hne]; [subst ret |];
    cbn [negb]; cbv beta iota.
  - destruct (truthy_opt iface_name) eqn:Htr.
    + unfold bind at 1, get_loggedin. cbv beta iota. rewrite HL.
      destruct (ISCSI_LOGGEDIN_TARGETS w !! name sys) as [[| t0 l] |] eqn:Hl.
      * unfold pure. intros [= <- <-]. rewrite ?HL, ?HD, ?Hiss, ?Hl.
        close_frame.
      * destruct (remove_target_by_iface sys iface_name
                    (after_cmd sys cmd w) (t0 :: l))
          as (w1 & Hrun & Hnew & Hoth & HD1 & Hiss1);
          [now rewrite HL |].
        rewrite Hrun. intros [= <- <-].
        rewrite Hiss1, HD1, Hnew, Hiss, HD.
        split; [reflexivity |]. split; [reflexivity |].
        split; [intros h Hh; now rewrite Hoth, HL |].
        split; [now left |].
        split; [split; [discriminate | intros (Hx & _); discriminate Hx] |].
        split; [contradiction |]. split; [| discriminate].
        intros _ _ t. unfold default. cbn [from_option id]. unfold id.
        rewrite list_elem_of_In, filter_In, <- list_elem_of_In.
        rewrite negb_true_iff, bool_decide_eq_false. reflexivity.
      * unfold pure. intros [= <- <-]. rewrite ?HL, ?HD, ?Hiss, ?Hl.
        close_frame.
    + unfold bind at 1, get_loggedin. cbv beta iota. rewrite HL.
      destruct (ISCSI_LOGGEDIN_TARGETS w !! name sys) as [l |] eqn:Hl.
      * unfold set_loggedin. intros [= <- <-].
        cbn [issued DISCOVERED_TARGETS ISCSI_LOGGEDIN_TARGETS].
        rewrite ?HL, ?HD, ?Hiss.
        close_frame.
        -- intros h Hh. now rewrite lookup_delete_ne.
        -- intros _ _. apply lookup_delete_eq.
      * unfold raise. intros [= <- <-]. rewrite ?HL, ?HD, ?Hiss.
        close_frame.
  - rewrite force_logout_benign_always. unfold pure. intros [= <- <-].
    rewrite ?HL, ?HD, ?Hiss. close_frame.
Qed.

(** ** The discovery output *)

(** Prefixes and substrings. *)

Lemma prefix_app (p s : string) :
  String.prefix p s = true <-> exists t, s = (p +:+ t)%string.
Proof.
  revert s. induction p as [| a p IH]; intros s.
  - split; [intros _; now exists s | intros _; now destruct s].
  - destruct s as [| b s]; simpl.
    + split; [discriminate | intros [t Ht]; discriminate].
    + destruct (ascii_dec a b) as [-> | Hne].
      * rewrite IH. split; intros [t Ht]; exists t.
        -- now rewrite Ht.
        -- now inversion Ht.
      * split; [discriminate |]. intros [t Ht]. inversion Ht. congruence.
Qed.

Lemma contains_app (needle hay : string) :
  contains needle hay = true <->
  exists a b, hay = (a +:+ needle +:+ b)%string.
Proof.
  induction hay as [| c hay IH].
  - cbn [contains]. rewrite orb_false_r, prefix_app. split.
    + intros [t Ht]. exists "", t. exact Ht.
    + intros (a & b & H). destruct a; [now exists b |]. discriminate.
  - cbn [contains]. rewrite orb_true_iff, prefix_app, IH. split.
    + intros [[t Ht] | (a & b & Ht)].
      * exists "", t. exact Ht.
      * exists (String c a), b. simpl. now rewrite Ht.
    + intros (a & b & Ht). destruct a as [| c' a].
      * left. now exists b.
      * right. inversion Ht. now exists a, b.
Qed.

Lemma strip_prefix_app (p s t : string) :
  strip_prefix p s = Some t <-> s = (p +:+ t)%string.
Proof.
  revert s. induction p as [| a p IH]; intros s; simpl.
  - split; [intros [= ->]; reflexivity | intros ->; reflexivity].
  - destruct s as [| b s].
    + split; discriminate.
    + destruct (Ascii.eqb_spec a b) as [-> | Hne].
      * rewrite IH. split; [intros ->; reflexivity | now intros [= ->]].
      * split; [discriminate |]. intros [= E _]. congruence.
Qed.

(** What the continuation of [.*] is called with is a suffix of the
    text, reached over characters that are not newlines. *)
Lemma dot_star_inv {A} (s : string) (k : string -> option A) r :
  dot_star s k = Some r ->
  exists pre post, s = (pre +:+ post)%string /\ k post = Some r.
Proof.
  induction s as [| c s IH]; simpl.
  - intros H. now exists "", "".
  - destruct (Ascii.eqb c LF).
    + intros H. now exists "", (String c s).
    + destruct (dot_star s k) as [r' |] eqn:Hd.
      * intros [= ->]. destruct (IH eq_refl) as (pre & post & -> & Hk).
        now exists (String c pre), post.
      * intros H. now exists "", (String c s).
Qed.

Lemma prefix_nl_cons (c : ascii) (s : string) :
  c <> LF -> String.prefix nl (String c s) = false.
Proof.
  intros Hc. destruct (String.prefix nl (String c s)) eqn:E; [| reflexivity].
  apply prefix_app in E as [t Ht]. inversion Ht. congruence.
Qed.

Lemma contains_nl_cons (c : ascii) (s : string) :
  c <> LF -> contains nl (String c s) = contains nl s.
Proof.
  intros Hc. cbn [contains]. now rewrite prefix_nl_cons.
Qed.

Lemma dot_star_inv_line {A} (s : string) (k : string -> option A) r :
  dot_star s k = Some r ->
  exists pre post, s = (pre +:+ post)%string /\ k post = Some r /\
                   contains nl pre = false.
Proof.
  induction s as [| c s IH]; simpl.
  - intros H. now exists "", "".
  - destruct (Ascii.eqb_spec c LF) as [Hc | Hc].
    + intros H. now exists "", (String c s).
    + destruct (dot_star s k) as [r' |] eqn:Hd.
      * intros [= ->]. destruct (IH eq_refl) as (pre & post & -> & Hk & Hpre).
        exists (String c pre), post. repeat split; auto.
        now rewrite contains_nl_cons.
      * intros H. now exists "", (String c s).
Qed.

Lemma substring_app_l (a b : string) :
  String.substring 0 (String.length a) (a +:+ b) = a.
Proof.
  induction a as [| c a IH]; simpl.
  - now destruct b.
  - now rewrite IH.
Qed.

Lemma length_app_str (a b : string) :
  String.length (a +:+ b) = (String.length a + String.length b)%nat.
Proof. induction a; simpl; auto. Qed.

Lemma to_eol_no_newline (s : string) : contains nl (to_eol s) = false.
Proof.
  induction s as [| c s IH]; simpl; [reflexivity |].
  destruct (Ascii.eqb_spec c LF) as [Hc | Hc]; [reflexivity |].
  now rewrite contains_nl_cons.
Qed.

Lemma is_digit_not_LF d : is_digit d = true -> d <> LF.
Proof. intros H ->. discriminate. Qed.

Lemma search_ip_iqn_inv port_ line ip_ iqn_ :
  search_ip_iqn port_ line = Some (ip_, iqn_) ->
  exists d pre1 s2 pre2 s4,
    is_digit d = true /\
    contains nl pre1 = false /\
    line = (String d pre1 +:+ (":" +:+ str_of_int port_) +:+ s2)%string /\
    s2 = (pre2 +:+ "iqn" +:+ s4)%string /\
    ip_ = String d pre1 /\
    iqn_ = ("iqn" +:+ to_eol s4)%string.
Proof.
  unfold search_ip_iqn. destruct line as [| d rest]; [discriminate |].
  destruct (is_digit d) eqn:Hd; [| discriminate].
  intros H. apply dot_star_inv_line in H as (pre1 & s1 & -> & H & Hpre1).
  destruct (strip_prefix (":" +:+ str_of_int port_) s1) as [s2 |] eqn:Hs1;
    [| discriminate].
  apply strip_prefix_app in Hs1. subst s1.
  apply dot_star_inv in H as (pre2 & s3 & -> & H).
  destruct (strip_prefix "iqn" s3) as [s4 |] eqn:Hs3; [| discriminate].
  apply strip_prefix_app in Hs3. subst s3.
  injection H as <- <-.
  exists d, pre1, (pre2 +:+ "iqn" +:+ s4)%string, pre2, s4.
  repeat split; auto.
  unfold take_str.
  match goal with
  | |- String.substring 0 ?n _ = _ =>
      replace n with (String.length (String d pre1))
  end.
  - apply (substring_app_l (String d pre1)).
  - simpl. rewrite !length_app_str. simpl. lia.
Qed.

(** Every match of the line pattern is a piece of the text. *)
Lemma finditer_lines_substring (s : string) : forall cur line,
  line ∈ finditer_lines cur s ->
  exists pre post, (cur +:+ s = pre +:+ line +:+ post)%string.
Proof.
  induction s as [| c s IH]; intros cur line; simpl.
  - intros H. inversion H.
  - destruct (Ascii.eqb_spec c LF) as [-> | Hc].
    + intros H. apply elem_of_cons in H as [-> | H].
      * exists "", s.
        change ("" +:+ (cur +:+ nl) +:+ s)%string
          with ((cur +:+ nl) +:+ s)%string.
        rewrite (string_app_assoc cur nl s). reflexivity.
      * apply IH in H as (pre & post & H). simpl in H.
        exists (cur +:+ nl +:+ pre)%string, post.
        rewrite !string_app_assoc. rewrite <- H. reflexivity.
    + intros H. apply IH in H as (pre & post & H).
      exists pre, post. rewrite <- H.
      rewrite string_app_assoc. reflexivity.
Qed.

Lemma contains_in_line (p result line : string) :
  line ∈ finditer_lines "" result ->
  contains p line = true -> contains p result = true.
Proof.
  intros Hline Hp. apply finditer_lines_substring in Hline as (pre & post & H).
  change ("" +:+ result)%string with result in H.
  apply contains_app in Hp as (a & b & ->).
  apply contains_app. exists (pre +:+ a)%string, (b +:+ post)%string.
  rewrite H. now rewrite !string_app_assoc.
Qed.

(** An invariant of the dict is kept by the parsing loop when every
    insertion of a matching line keeps it. *)
Lemma _parse_discovery_result_ind (P : ip_iqn_dict -> Prop) result port_ :
  P [] ->
  (forall d line ip_ iqn_,
     P d -> line ∈ finditer_lines "" result ->
     search_ip_iqn port_ line = Some (ip_, iqn_) ->
     (ip_, iqn_) ∉ d.*1 ->
     P (d ++ [((ip_, iqn_), iqn_)])) ->
  P (_parse_discovery_result result port_).
Proof.
  intros H0 Hstep. unfold _parse_discovery_result.
  assert (Hgen : forall lines d,
    (forall line, line ∈ lines -> line ∈ finditer_lines "" result) ->
    P d ->
    P (foldl (fun d line =>
                match search_ip_iqn port_ line with
                | Some (discovered_ip, discovered_iqn) =>
                    setdefault (discovered_ip, discovered_iqn)
                               discovered_iqn d
                | None => d
                end) d lines)).
  { induction lines as [| line lines IH]; intros d Hsub Hd; simpl; [auto |].
    apply IH; [intros l Hl; apply Hsub; now right |].
    destruct (search_ip_iqn port_ line) as [[dip diqn] |] eqn:Hs; [| auto].
    unfold setdefault. case_bool_decide as Hin; [auto |].
    eapply Hstep; eauto. apply Hsub. left. }
  apply Hgen; auto.
Qed.

(** X7: [_parse_discovery_result] ([qalib/client/iscsi.py], lines
    101-122): no key [(ip, iqn)] is in the dict twice; every value is
    the IQN of its key; every IQN begins with [iqn] and every address
    with a digit, and neither runs over a line end; an entry is only
    there when the text holds a colon followed by the port number; and
    a text without a newline gives the empty dict, since the line
    pattern only matches lines that end in one. *)
Theorem _parse_discovery_result_entries result port_ :
  let d := _parse_discovery_result result port_ in
  NoDup d.*1 /\
  (forall ip_ iqn_ v, ((ip_, iqn_), v) ∈ d ->
     v = iqn_ /\
     String.prefix "iqn" iqn_ = true /\
     (exists c rest, ip_ = String c rest /\ is_digit c = true) /\
     contains nl ip_ = false /\ contains nl iqn_ = false /\
     contains (":" +:+ str_of_int port_) result = true) /\
  (contains nl result = false -> d = []).
Proof.
  cbv zeta. split; [| split].
  - apply _parse_discovery_result_ind; [constructor |].
    intros d line ip_ iqn_ Hd _ _ Hnew.
    rewrite fmap_app. apply NoDup_app. split; [exact Hd |]. split.
    + intros x Hx Hx'. apply list_elem_of_singleton in Hx'. now subst.
    + apply NoDup_singleton.
  - apply (_parse_discovery_result_ind
             (fun d => forall ip_ iqn_ v, ((ip_, iqn_), v) ∈ d -> _)).
    + intros ip_ iqn_ v H. inversion H.
    + intros d line ip0 iqn0 Hd Hline Hs _ ip_ iqn_ v Hin.
      apply elem_of_app in Hin as [Hin | Hin]; [now apply Hd |].
      apply list_elem_of_singleton in Hin. injection Hin as -> -> ->.
      apply search_ip_iqn_inv in Hs
        as (c & pre1 & s2 & pre2 & s4 & Hc & Hpre & Hl & Hs2 & -> & ->).
      split; [reflexivity |].
      split; [apply prefix_app; now exists (to_eol s4) |].
      split; [now exists c, pre1 |].
      split; [| split].
      * rewrite contains_nl_cons; [exact Hpre | now apply is_digit_not_LF].
      * change ("iqn" +:+ to_eol s4)%string
          with (String "i" (String "q" (String "n" (to_eol s4)))).
        rewrite !contains_nl_cons by discriminate.
        apply to_eol_no_newline.
      * apply (contains_in_line _ _ line Hline).
        apply contains_app. exists (String c pre1), s2. exact Hl.
  - intros Hnl. unfold _parse_discovery_result.
    replace (finditer_lines "" result) with (@nil string); [reflexivity |].
    symmetry.
    assert (Hgen : forall s cur, contains nl s = false ->
                                 finditer_lines cur s = []).
    { induction s as [| c s IH]; intros cur Hs; simpl; [reflexivity |].
      destruct (Ascii.eqb_spec c LF) as [-> | Hc].
      - cbn [contains] in Hs. apply orb_false_iff in Hs as [Hs _].
        unfold nl in Hs. simpl in Hs. destruct s; discriminate.
      - apply IH. now rewrite contains_nl_cons in Hs. }
    now apply Hgen.
Qed.

(** ** Loops over the replies of one command *)
Section cmd_loop_replies.
Variables (sys : System) (cmd : string) (r i : Z).
Context {S A : Type}.
Variable I : World -> Prop.
Variable body : S -> option (Z * string) -> M (Flow S A).
Variable orelse : S -> M (Completion S A).

Hypothesis Hi : 0 <= i.
Hypothesis Hclock : forall w d, I w -> I (advance d w).
Hypothesis Hcmd : forall w, I w -> I (after_cmd sys cmd w).
Hypothesis Hbody : forall s w0 w res w',
  I w -> body s (Some (reply_of sys cmd w0)) w = (res, w') -> I w'.
Hypothesis Horelse : forall s w res w',
  I w -> orelse s w = (res, w') -> I w'.

Lemma cmd_loop_replies (n : nat) : forall fr s w res w',
  cmd_frame cmd r i fr ->
  (attempts_left (mkGen (cmd_call sys cmd r i) fr) <= n)%nat ->
  I w ->
  for_else (mkGen (cmd_call sys cmd r i) fr) s body orelse w = (res, w') ->
  I w'.
Proof.
  induction n as [n IH] using lt_wf_ind.
  intros fr s w res w' Hfr Hleft HI Hrun.
  rewrite for_else_unfold in Hrun.
  assert (Hyield : forall w0 g' w1,
    cmd_frame cmd r i (frame g') -> call g' = cmd_call sys cmd r i ->
    (attempts_left g' < n)%nat ->
    I w1 ->
    match body s (Some (reply_of sys cmd w0)) w1 with
    | (Ret (Next s'), w2) => for_else g' s' body orelse w2
    | (Ret (Break s'), w2) => (Ret (Normal s'), w2)
    | (Ret (Return a), w2) => (Ret (Returned a), w2)
    | (Raise e, w2) => (Raise e, w2)
    | (OutOfFuel, w2) => (OutOfFuel, w2)
    end = (res, w') -> I w').
  { intros w0 g' w1 Hfr' Hcall Hlt HI1 Hb.
    destruct (body s (Some (reply_of sys cmd w0)) w1) as [[f | e |] w2] eqn:Hbs;
      pose proof (Hbody _ _ _ _ _ HI1 Hbs) as HI2.
    - destruct f as [s' | s' | a].
      + destruct g' as [c' fr']; simpl in *; subst c'.
        exact (IH _ Hlt fr' s' w2 res w' Hfr' (le_n _) HI2 Hb).
      + now inversion Hb; subst.
      + now inversion Hb; subst.
    - now inversion Hb; subst.
    - now inversion Hb; subst. }
  destruct Hfr as [-> | [-> | (t & cur & st & ->)]].
  - change (mkGen (cmd_call sys cmd r i) Created)
      with (poll (cmd_call sys cmd r i)) in Hrun.
    rewrite next_cmd_created in Hrun.
    destruct (0 <? r) eqn:Hr.
    + apply Z.ltb_lt in Hr.
      eapply (Hyield w); [| | | | exact Hrun]; simpl.
      * right. right. eauto.
      * reflexivity.
      * unfold attempts_left in *; simpl in *. lia.
      * now apply Hcmd.
    + eapply Horelse; [exact HI | exact Hrun].
  - simpl in Hrun. eapply Horelse; [exact HI | exact Hrun].
  - rewrite next_cmd_suspended in Hrun by assumption.
    destruct ((cur + 1 <? r) && (now w + i - st <? t)) eqn:Hgo.
    + apply andb_true_iff in Hgo as [Hlt _]. apply Z.ltb_lt in Hlt.
      eapply (Hyield (advance i w)); [| | | | exact Hrun]; simpl.
      * right. right. eauto.
      * reflexivity.
      * unfold attempts_left in *; simpl in *. lia.
      * now apply Hcmd, Hclock.
    + eapply Horelse; [| exact Hrun]. now apply Hclock.
Qed.

End cmd_loop_replies.

Lemma discover_attempt_without_match sys iqns port_ iface_name start_time
    timeout status_ result w res w' :
  contains ":3260" result = false ->
  discover_attempt sys iqns port_ iface_name start_time timeout
                   (Some (status_, result)) w = (res, w') ->
  w' = w.
Proof.
  intros Hno Hrun.
  destruct (discover_attempt_cases sys iqns port_ iface_name start_time
              timeout status_ result w)
    as [(_ & Hd & _) | (_ & f & Hf & _)].
  - exfalso.
    pose proof (_parse_discovery_result_entries result 3260) as (_ & He & _).
    destruct (_parse_discovery_result result 3260) as [| [[i q] v] d];
      [congruence |].
    destruct (He i q v ltac:(left)) as (_ & _ & _ & _ & _ & H).
    change (":" +:+ str_of_int 3260)%string with ":3260" in H. congruence.
  - rewrite Hf in Hrun. now inversion Hrun.
Qed.

(** X8: [discover] ([qalib/client/iscsi.py], lines 676-774) parses every
    output with [_parse_discovery_result(result)], that is with the
    default port 3260, whatever the [port] it was called with.  So
    when no output of the host holds the text [:3260], no attempt
    parses to a single entry and [discover] registers nothing, on any
    port, for any IQN, however it ends. *)
Theorem discover_needs_port_3260_in_output
    sys ip_ iqn_ port_ iface_name timeout w :
  (forall n c, contains ":3260" (output (host sys n c)) = false) ->
  DISCOVERED_TARGETS (snd (discover sys ip_ iqn_ port_ iface_name timeout w))
  = DISCOVERED_TARGETS w.
Proof.
  intros Hno.
  destruct (discover sys ip_ iqn_ port_ iface_name timeout w) as [res w']
    eqn:H.
  simpl snd. revert H.
  unfold discover. unfold bind at 1.
  set (prep := match iqn_ with
               | IqnList (q :: l) => _
               | IqnStr s => _
               | _ => _
               end).
  destruct (prep w) as [[[cmd iqns] | e |] w0] eqn:Hprep.
  - assert (Hw0 : w0 = w).
    { subst prep. destruct iqn_ as [| s | [| q l]]; unfold_m;
        try discriminate.
      - destruct (truthy s); inversion Hprep; reflexivity.
      - inversion Hprep; reflexivity. }
    subst w0. unfold bind at 1. unfold time. unfold bind at 1.
    destruct (for_else _ _ _ _ w) as [r1 w1] eqn:Hrun. intros H.
    assert (Hw : w' = w1) by (destruct r1; inversion H; reflexivity).
    subst w1.
    eapply (cmd_loop_replies sys _ _DISCOVERY_RETRY_COUNT
              _ISCSIADM_RETRY_INTERVAL
              (fun w0 => DISCOVERED_TARGETS w0 = DISCOVERED_TARGETS w))
      with (n := 5%nat); [ | | | | | left; reflexivity | | | exact Hrun].
    + unfold _ISCSIADM_RETRY_INTERVAL. lia.
    + intros w0 d HI. exact HI.
    + intros w0 HI. exact HI.
    + intros s w0 w2 res0 w2' HI Hb. simpl in Hb.
      unfold reply_of in Hb.
      apply discover_attempt_without_match in Hb; [now subst | apply Hno].
    + intros s w0 res0 w0' HI Ho. unfold raise in Ho. now inversion Ho; subst.
    + vm_compute. lia.
    + reflexivity.
  - intros H; inversion H; subst.
    subst prep. destruct iqn_ as [| s | [| q l]]; unfold_m;
      try (inversion Hprep; reflexivity).
    destruct (truthy s); inversion Hprep; reflexivity.
  - subst prep. destruct iqn_ as [| s | [| q l]]; unfold_m;
      try discriminate.
    destruct (truthy s); discriminate.
Qed.

Lemma discover_needs_port_3260_witness :
  DISCOVERED_TARGETS
    (snd (discover (on_host port_3261_host) "10.0.0.1" (IqnStr "iqn.a") 3261
                   (Some "default") _DISCOVERY_TIMEOUT (boot 0)))
  = DISCOVERED_TARGETS (boot 0).
Proof.
  apply (discover_needs_port_3260_in_output (on_host port_3261_host)
           "10.0.0.1" (IqnStr "iqn.a") 3261 (Some "default")
           _DISCOVERY_TIMEOUT (boot 0)).
  intros n c. reflexivity.
Defined.

(** ** The batch operations *)

Lemma delete_each_removes sys (copy : list IscsiTarget) : forall w w',
  delete_each sys copy w = (Ret tt, w') ->
  forall t, t ∈ default [] (DISCOVERED_TARGETS w' !! name sys) ->
            t ∈ default [] (DISCOVERED_TARGETS w !! name sys) /\
            iqn t ∉ map iqn copy.
Proof.
  induction copy as [| target copy IH]; intros w w'; simpl.
  - unfold pure. intros [= <-] t Ht. split; [exact Ht |].
    intros Hin. inversion Hin.
  - intros Hrun.
    apply bind_inv_ret in Hrun as ([] & w1 & Hdel & Hrest).
    intros t Ht.
    destruct (IH _ _ Hrest t Ht) as [Ht1 Hnot].
    apply (delete_removes_iqn _ _ _ _ _ Hdel) in Ht1 as [Ht0 Hne].
    split; [exact Ht0 |].
    intros Hin. apply elem_of_cons in Hin as [Heq | Hin]; [| contradiction].
    congruence.
Qed.

Lemma elem_of_nil_eq {A} (l : list A) : (forall x, x ∉ l) -> l = [].
Proof.
  destruct l as [| a l]; [reflexivity |].
  intros H. exfalso. apply (H a). left.
Qed.

(** X9: [delete_all_targets] ([qalib/client/iscsi.py], lines 894-918):
    whenever it returns, the host has no discovered target left on
    record: its list in [DISCOVERED_TARGETS] is empty or absent.  This
    holds in whatever order the interfaces are destroyed, and also when
    a [destroy_iface] left its part of the list in place. *)
Theorem delete_all_targets_empties_registry
    (set_order : SetOrder) sys w :
  fst (delete_all_targets set_order sys w) = Ret tt ->
  default [] (DISCOVERED_TARGETS (snd (delete_all_targets set_order sys w))
              !! name sys) = [].
Proof.
  destruct (delete_all_targets set_order sys w) as [res w'] eqn:H.
  simpl. intros ->. revert H.
  unfold delete_all_targets. unfold bind at 1, get_discovered.
  destruct (DISCOVERED_TARGETS w !! name sys) as [discovered |] eqn:Hd.
  - intros Hrun.
    apply bind_inv_ret in Hrun as ([] & w1 & _ & Hrun).
    unfold bind at 1, get_discovered in Hrun.
    destruct (DISCOVERED_TARGETS w1 !! name sys) as [[| t0 l] |] eqn:Hl.
    + unfold pure in Hrun. injection Hrun as <-. now rewrite Hl.
    + apply elem_of_nil_eq. intros t Ht.
      destruct (delete_each_removes _ _ _ _ Hrun t Ht) as [Hin Hnot].
      rewrite Hl in Hin. simpl in Hin. apply Hnot.
      apply list_elem_of_fmap. now exists t.
    + unfold pure in Hrun. injection Hrun as <-. now rewrite Hl.
  - unfold pure. intros [= <-]. now rewrite Hd.
Qed.

Lemma delete_all_targets_witness :
  default []
    (DISCOVERED_TARGETS (snd (delete_all_targets first_seen client1
                                                 batch_world))
     !! name client1) = [].
Proof.
  apply (delete_all_targets_empties_registry first_seen client1 batch_world).
  vm_compute. reflexivity.
Defined.

Lemma run_tasks_invariant (I : World -> Prop) (tasks : list (M unit)) :
  (forall task w res w',
     task ∈ tasks -> I w -> task w = (res, w') -> I w') ->
  forall w res w', I w -> run_tasks tasks w = (res, w') -> I w'.
Proof.
  induction tasks as [| task tasks IH]; intros Htasks w res w' HI; simpl.
  - unfold pure. now intros [= <- <-].
  - unfold bind at 1, run_task.
    destruct (task w) as [[[] | e |] w1] eqn:Ht;
      pose proof (Htasks task w _ w1 ltac:(left) HI Ht) as HI1.
    + unfold bind at 1.
      destruct (run_tasks tasks w1) as [[failures | e |] w2] eqn:Hr;
        unfold pure; intros [= <- <-];
        (eapply IH; [| exact HI1 | exact Hr]);
        intros t w0 r0 w0' Hin; apply Htasks; now right.
    + unfold bind at 1.
      destruct (run_tasks tasks w1) as [[failures | e' |] w2] eqn:Hr;
        unfold pure; intros [= <- <-];
        (eapply IH; [| exact HI1 | exact Hr]);
        intros t w0 r0 w0' Hin; apply Htasks; now right.
    + now intros [= <- <-].
Qed.

Lemma run_threads_invariant (I : World -> Prop) (tasks : list (M unit))
    max_workers :
  (forall task w res w',
     task ∈ tasks -> I w -> task w = (res, w') -> I w') ->
  forall w res w', I w -> run_threads tasks max_workers w = (res, w') -> I w'.
Proof.
  intros Htasks w res w' HI. unfold run_threads. unfold bind at 1.
  destruct (run_tasks tasks w) as [[failures | e |] w1] eqn:Hr;
    pose proof (run_tasks_invariant I tasks Htasks _ _ _ HI Hr) as HI1.
  - destruct failures; unfold pure, raise; now intros [= <- <-].
  - now intros [= <- <-].
  - now intros [= <- <-].
Qed.

Lemma logout_ifaces_raises sys (unique_ifaces : list (option string)) :
  forall w e w',
    logout_ifaces sys unique_ifaces w = (Raise e, w') ->
    exn_class e = TypeError.
Proof.
  induction unique_ifaces as [| [i |] rest IH]; intros w e w'; simpl.
  - discriminate.
  - unfold bind at 1. rewrite run_cmd_eq.
    destruct (reply_of sys _ w) as [ret out].
    unfold bind at 1, get_loggedin. cbv beta iota.
    set (w1 := after_cmd sys _ w).
    destruct ((ret =? 0)
              && bool_decide (is_Some (ISCSI_LOGGEDIN_TARGETS w1 !! name sys)))
      eqn:Hgo.
    + apply andb_true_iff in Hgo as [_ Hsome].
      apply bool_decide_eq_true in Hsome as [l Hl].
      destruct (remove_target_by_iface sys (Some i) w1 l Hl)
        as (w2 & Hrun & _).
      unfold bind at 1. rewrite Hrun. apply IH.
    + unfold bind at 1, pure at 1. apply IH.
  - unfold raise. now intros [= <- <-].
Qed.

(** X10: [logout_all_targets] ([qalib/client/iscsi.py], lines 413-450)
    deletes the host's entry of [ISCSI_LOGGEDIN_TARGETS] before it hands
    the individual logouts to the task runner.  So whenever the call
    returns, and also when it fails only with the runner's error for
    logouts that failed, the registry holds no logged-in target for the
    host any more. *)
Theorem logout_all_targets_clears_registry (set_order : SetOrder) sys w :
  let run := logout_all_targets set_order sys w in
  (fst run = Ret tt \/ exists e, fst run = Raise e /\
                                 exn_class e = AggregateFailure) ->
  default [] (ISCSI_LOGGEDIN_TARGETS (snd run) !! name sys) = [].
Proof.
  cbv zeta.
  destruct (logout_all_targets set_order sys w) as [res w'] eqn:H.
  simpl. intros Hres. revert H.
  unfold logout_all_targets. unfold bind at 1, get_loggedin.
  destruct (ISCSI_LOGGEDIN_TARGETS w !! name sys) as [loggedin |] eqn:Hl.
  - unfold bind at 1.
    destruct (logout_ifaces sys _ w) as [[[] | e |] w1] eqn:Hst1.
    + unfold bind at 1, get_loggedin.
      destruct (ISCSI_LOGGEDIN_TARGETS w1 !! name sys) as [[| t0 l] |] eqn:Hl1.
      * unfold pure. intros [= <- <-]. now rewrite Hl1.
      * unfold bind at 1, set_loggedin. intros Hrun.
        enough (HI : ISCSI_LOGGEDIN_TARGETS w' !! name sys = None)
          by now rewrite HI.
        eapply (run_threads_invariant
                  (fun w0 => ISCSI_LOGGEDIN_TARGETS w0 !! name sys = None));
          [| | exact Hrun].
        -- intros task w0 res0 w0' Hin HI Ht.
           apply list_elem_of_fmap in Hin as ([[[q i] p] f] & -> & _).
           apply logout_never_unregisters in Ht. now rewrite Ht.
        -- simpl. apply lookup_delete_eq.
      * unfold pure. intros [= <- <-]. now rewrite Hl1.
    + intros [= <- <-]. apply logout_ifaces_raises in Hst1.
      destruct Hres as [Hr | (e' & [= ->] & Hc)]; [discriminate | congruence].
    + intros [= <- <-].
      destruct Hres as [Hr | (e' & Hr & _)]; discriminate.
  - unfold pure. intros [= <- <-]. now rewrite Hl.
Qed.

Lemma logout_all_targets_witness :
  default []
    (ISCSI_LOGGEDIN_TARGETS
       (snd (logout_all_targets first_seen (on_host busy_host) batch_world))
     !! name (on_host busy_host)) = [].
Proof.
  apply (logout_all_targets_clears_registry first_seen (on_host busy_host)
           batch_world).
  right. eexists. split; [vm_compute; reflexivity | reflexivity].
Defined.

Lemma discover_list_issued sys ip_ q l port_ iface_name timeout w :
  exists k, (k <= 5)%nat /\
    issued (snd (discover sys ip_ (IqnList (q :: l)) port_ iface_name
                          timeout w))
    = issued w ++ repeat (join " " (discover_cmd ip_ port_)) k.
Proof.
  destruct (discover sys ip_ (IqnList (q :: l)) port_ iface_name timeout w)
    as [res w'] eqn:H.
  simpl snd. revert H.
  unfold discover. unfold bind at 1, pure at 1.
  unfold bind at 1. unfold time. unfold bind at 1.
  destruct (for_else _ _ _ _ w) as [r1 w1] eqn:Hrun. intros H.
  assert (Hw : w' = w1) by (destruct r1; inversion H; reflexivity).
  subst w1.
  eapply (cmd_loop_bounded sys _ _DISCOVERY_RETRY_COUNT
            _ISCSIADM_RETRY_INTERVAL) with (n := 5%nat);
    [ | | | left; reflexivity | | exact Hrun].
  - unfold _ISCSIADM_RETRY_INTERVAL. lia.
  - intros s y w0 res0 w0'. apply discover_attempt_issued.
  - intros s w0 res0 w0' Ho. unfold raise in Ho. now inversion Ho.
  - vm_compute. lia.
Qed.

(** X11: [discover_all_targets] ([qalib/client/iscsi.py], lines 777-810) in
    redirect mode makes one call of [discover], with the address and
    port its loop over [targets] left in [tgt_ip] and [tgt_port]: only
    the portal of the last target is asked, in at most 5 commands that
    name no interface, however many targets the list holds; and an
    empty list fails with an [UnboundLocalError] before anything is
    run. *)
Theorem discover_all_targets_redirect_asks_last_portal
    sys (targets : list (string * Z * string)) iface_name w :
  match last targets with
  | None =>
      discover_all_targets sys targets iface_name true w
      = (Raise (Exn UnboundLocalError
                  "local variable 'tgt_ip' referenced before assignment"), w)
  | Some (tgt_ip, tgt_port, _) =>
      exists k, (k <= 5)%nat /\
        issued (snd (discover_all_targets sys targets iface_name true w))
        = issued w
          ++ repeat ("iscsiadm -m discovery -t sendtargets -p "
                     +:+ tgt_ip +:+ ":" +:+ str_of_int tgt_port) k
  end.
Proof.
  unfold discover_all_targets.
  destruct (last targets) as [[[tgt_ip tgt_port] tgt_iqn] |] eqn:Hlast;
    [| reflexivity].
  destruct targets as [| t0 rest]; [discriminate |].
  cbn [map].
  destruct (discover_list_issued sys tgt_ip t0.2
              (map (fun target => target.2) rest) tgt_port iface_name
              _DISCOVERY_TIMEOUT w) as (k & Hk & Hiss).
  exists k. split; [exact Hk |]. rewrite Hiss. reflexivity.
Qed.

(** ** result_poll *)

Section prologue_returns.
Context {R : Type}.

(** The statements before the loop go through when [args] is no string
    and the division of a supplied timeout by the interval works. *)
Lemma prologue_returns (c : PollCall R) (a : list string) (w : World) :
  default_args (polling.args c) = inl a ->
  (forall t, polling.timeout c = Some t -> t <> 0 ->
             exists n, int_div t (default 1 (polling.interval c)) = inr n) ->
  exists r t w',
    prologue c w
    = (Ret (a, r, default 1 (polling.interval c), t, now w), w').
Proof.
  intros Ha Hdiv.
  destruct (polling.timeout c) as [t |] eqn:Ht.
  - destruct (Z.eq_dec t 0) as [-> | Hnz].
    + destruct (prologue_timeout_zero c a w Ht Ha) as (_ & w' & Hp).
      eauto.
    + destruct (Hdiv t eq_refl Hnz) as [n Hn].
      destruct (prologue_timeout c t a n w Ht Hnz Hn Ha) as (_ & w' & Hp).
      eauto.
  - unfold prologue. rewrite Ha, Ht.
    destruct (polling.interval c) as [i |], (polling.retries c) as [r |];
      simpl; unfold_m; simpl; eauto.
Qed.

End prologue_returns.

Section result_poll_facts.
Context {R : Type} `{EqDecision R}.
Variables (show : R -> string) (function_repr : string).
Variables (function : list string -> M R) (expected_result : R).
Variables (args : Args) (retries interval timeout : option Z).
Variable callback_dict : option CallbackDict.

(** A value the loop body returns is the attempt number times the
    interval. *)
Lemma result_poll_attempt_return cnt y w v w' :
  result_poll_attempt expected_result interval callback_dict cnt y w
  = (Ret (Return v), w') ->
  y = Some expected_result /\
  exists i, interval = Some i /\ v = (cnt + 1) * i.
Proof.
  unfold result_poll_attempt. cbv zeta.
  case_bool_decide as Hy; [| unfold pure; discriminate].
  intros Hrun. split; [exact Hy |].
  apply bind_inv_ret in Hrun as ([] & w1 & _ & Hrun).
  apply bind_inv_ret in Hrun as (e & w2 & Ht & Hp).
  unfold times_interval in Ht. destruct interval as [i |].
  - unfold pure in *. injection Ht as <- <-. injection Hp as <- <-.
    now exists i.
  - unfold raise in Ht. discriminate.
Qed.

(** An attempt that asks for the next one saw another value, counted
    it and changed nothing. *)
Lemma result_poll_attempt_next cnt y w cnt' w' :
  result_poll_attempt expected_result interval callback_dict cnt y w
  = (Ret (Next cnt'), w') ->
  cnt' = cnt + 1 /\ w' = w /\ y <> Some expected_result.
Proof.
  unfold result_poll_attempt. cbv zeta.
  case_bool_decide as Hy.
  - intros Hrun.
    apply bind_inv_ret in Hrun as ([] & w1 & _ & Hrun).
    apply bind_inv_ret in Hrun as (e & w2 & _ & Hp).
    unfold pure in Hp. discriminate.
  - unfold pure. intros [= <- <-]. auto.
Qed.

(** The loop of [result_poll] returns at the first value of the
    generator that equals the expected result: the values before it
    differ, and the value returned counts them all. *)
Lemma result_poll_loop_first_match (n : nat) : forall g cnt w v w',
  for_else_fuel n g cnt
    (result_poll_attempt expected_result interval callback_dict)
    (fun cnt : Z => pure (Normal cnt)) w
  = (Ret (Returned v), w') ->
  exists i k earlier g1 w1,
    interval = Some i /\
    (1 <= k <= attempts_left g)%nat /\
    take_yields k g w = (Ret (earlier ++ [Some expected_result], g1), w1) /\
    List.length earlier = (k - 1)%nat /\
    Forall (fun y => y <> Some expected_result) earlier /\
    v = (cnt + Z.of_nat k) * i.
Proof.
  induction n as [| n IH]; intros g cnt w v w'; simpl; [discriminate |].
  unfold bind at 1.
  destruct (next g w) as [[[[y |] g'] | e |] w1] eqn:Hn; try discriminate.
  pose proof (next_yield_decreases _ _ _ _ _ Hn) as Hdec.
  unfold bind at 1.
  destruct (result_poll_attempt expected_result interval callback_dict
              cnt y w1) as [[[cnt' | cnt' | v'] | e |] w2] eqn:Hb;
    try discriminate.
  - intros Hrun.
    apply result_poll_attempt_next in Hb as (-> & -> & Hy).
    destruct (IH _ _ _ _ _ Hrun)
      as (i & k & earlier & g1 & w3 & Hi & Hk & Htake & Hlen & Hall & Hv).
    exists i, (Datatypes.S k), (y :: earlier), g1, w3.
    split; [exact Hi |]. split; [lia |]. split; [| split; [| split]].
    + cbn [take_yields]. unfold bind at 1. rewrite Hn.
      unfold bind at 1. rewrite Htake. reflexivity.
    + cbn [List.length]. lia.
    + constructor; assumption.
    + rewrite Hv. f_equal. lia.
  - unfold pure. intros [= <- <-].
    apply result_poll_attempt_return in Hb as (-> & i & Hi & Hv).
    exists i, 1%nat, [], g', w1.
    split; [exact Hi |]. split; [lia |]. split; [| split; [| split]].
    + cbn [take_yields]. unfold bind at 1. rewrite Hn. reflexivity.
    + reflexivity.
    + constructor.
    + rewrite Hv. f_equal.
Qed.

(** A value yielded by the generator is a value the function
    returned. *)
Lemma next_yields_function_value (g : Generator R) w v g' w' :
  next g w = (Ret (Yield (Some v), g'), w') ->
  exists a w1, polling.function (call g) a w1 = (Ret v, w').
Proof.
  intros Hn.
  destruct (next_one_call _ _ _ _ Hn)
    as [(g0 & Hg) | [(e & He & _) | (a & w1 & fr & Hf & Hcase)]];
    try discriminate.
  destruct fr as [v0 | e |].
  - destruct Hcase as (g0 & Hg). injection Hg as -> _.
    now exists a, w1.
  - destruct Hcase as [Hc | [(e0 & Hc & _) | (g0 & Hc)]]; discriminate.
  - discriminate.
Qed.

Lemma result_poll_loop_match (n : nat) : forall g cnt w v w',
  call g = mkPoll function args retries interval timeout [] None ->
  for_else_fuel n g cnt
    (result_poll_attempt expected_result interval callback_dict)
    (fun cnt : Z => pure (Normal cnt)) w
  = (Ret (Returned v), w') ->
  exists a w1 w2, function a w1 = (Ret expected_result, w2).
Proof.
  induction n as [| n IH]; intros g cnt w v w' Hcall; simpl; [discriminate |].
  unfold bind at 1.
  destruct (next g w) as [[[[y |] g'] | e |] w1] eqn:Hn; try discriminate.
  unfold bind at 1.
  destruct (result_poll_attempt expected_result interval callback_dict
              cnt y w1) as [[[cnt' | cnt' | v'] | e |] w2] eqn:Hb;
    try discriminate.
  - apply IH. rewrite <- Hcall. eapply next_call. exact Hn.
  - intros _. apply result_poll_attempt_return in Hb as (-> & _).
    apply next_yields_function_value in Hn as (a & w0 & Hf).
    rewrite Hcall in Hf. now exists a, w0, w1.
Qed.

(** The rest of the section is about a function that, on the argument
    list of the call, never raises and never gives the expected
    result. *)
Variables (a : list string) (i : Z).
Hypothesis Hargs : default_args args = inl a.
Hypothesis Hinterval : interval = Some i.
Hypothesis Hi : 0 < i.
Hypothesis Hdiv : forall t, timeout = Some t -> exists n, int_div t i = inr n.
Hypothesis Hfunction : forall w,
  exists v w', function a w = (Ret v, w') /\ v <> expected_result.

(** One [next] of the generator of this call either ends it or yields
    a value that is not the expected one. *)
Lemma next_without_match (c : PollCall R) fr w :
  c = mkPoll function args retries interval timeout [] None ->
  frame_of_call a i fr ->
  (exists w1, next (mkGen c fr) w = (Ret (StopIteration, mkGen c Finished), w1))
  \/
  (exists v fr' w1,
     next (mkGen c fr) w = (Ret (Yield (Some v), mkGen c fr'), w1) /\
     v <> expected_result /\ frame_of_call a i fr').
Proof.
  intros Hc Hfr.
  assert (Hhead : forall r t cur st w1,
    (exists w2, loop_head c a r i t cur st w1
                = (Ret (StopIteration, mkGen c Finished), w2)) \/
    (exists v fr' w2,
       loop_head c a r i t cur st w1
       = (Ret (Yield (Some v), mkGen c fr'), w2) /\
       v <> expected_result /\ frame_of_call a i fr')).
  { intros r t cur st w1. unfold loop_head.
    destruct (lt_retries cur r && (now w1 - st <? t)).
    - right. destruct (Hfunction w1) as (v & w2 & Hf & Hv).
      replace (polling.function c) with function by (now rewrite Hc).
      rewrite Hf.
      exists v, (Suspended a r i t cur st), w2.
      split; [reflexivity |]. split; [exact Hv |]. split; reflexivity.
    - left. eauto. }
  assert (Hci : polling.interval c = Some i) by (now rewrite Hc).
  destruct fr as [| a' r i' t cur st |].
  - destruct (prologue_returns c a w) as (r & t & w1 & Hp).
    + now rewrite Hc.
    + intros t Ht _. rewrite Hci. apply Hdiv. now rewrite Hc in Ht.
    + assert (Hnext : next (mkGen c Created) w
                      = loop_head c a r i t 0 (now w) w1).
      { cbn [next frame call]. unfold bind. rewrite Hp, Hci.
        reflexivity. }
      rewrite Hnext. apply Hhead.
  - destruct Hfr as [-> ->].
    assert (Hnext : next (mkGen c (Suspended a r i t cur st)) w
                    = loop_head c a r i t (cur + 1) st (advance i w)).
    { cbn [next frame call]. unfold bind, sleep.
      destruct (Z.ltb_spec i 0) as [Hneg | _]; [lia | reflexivity]. }
    rewrite Hnext. apply Hhead.
  - left. exists w. reflexivity.
Qed.

(** The loop of [result_poll] runs the generator to its end, counting
    every value it yields. *)
Lemma result_poll_loop_runs_out (c : PollCall R) (n : nat) :
  c = mkPoll function args retries interval timeout [] None ->
  forall fr cnt w,
  (attempts_left (mkGen c fr) <= n)%nat ->
  frame_of_call a i fr ->
  exists k yielded w1,
    (k <= attempts_left (mkGen c fr))%nat /\
    take_yields (Datatypes.S k) (mkGen c fr) w
    = (Ret (yielded, mkGen c Finished), w1) /\
    List.length yielded = k /\
    for_else (mkGen c fr) cnt
      (result_poll_attempt expected_result interval callback_dict)
      (fun cnt : Z => pure (Normal cnt)) w
    = (Ret (Normal (cnt + Z.of_nat k)), w1).
Proof.
  intros Hc.
  induction n as [n IH] using lt_wf_ind.
  intros fr cnt w Hleft Hfr.
  rewrite for_else_unfold. cbn [take_yields]. unfold bind at 1.
  destruct (next_without_match c fr w Hc Hfr)
    as [(w1 & Hn) | (v & fr' & w1 & Hn & Hv & Hfr')]; rewrite Hn.
  - exists 0%nat, [], w1. unfold pure.
    rewrite Z.add_0_r. repeat split; try reflexivity. lia.
  - pose proof (next_yield_decreases _ _ _ _ _ Hn) as Hdec.
    unfold result_poll_attempt at 1. cbv zeta.
    rewrite bool_decide_eq_false_2 by congruence.
    destruct (IH (attempts_left (mkGen c fr')) ltac:(lia) fr' (cnt + 1) w1
                 (le_n _) Hfr')
      as (k & yielded & w2 & Hk & Htake & Hlen & Hrun).
    exists (Datatypes.S k), (Some v :: yielded), w2.
    split; [lia |]. split; [| split].
    + unfold bind at 1. rewrite Htake. reflexivity.
    + cbn [List.length]. now rewrite Hlen.
    + unfold pure at 1. cbv beta iota. rewrite Hrun. do 3 f_equal. lia.
Qed.

End result_poll_facts.

(** X12: [result_poll] ([qalib/qabase/polling.py], lines 123-206): the
    value it returns is not a measured time, it is the number of the
    attempt that gave the expected result multiplied by [interval].
    That attempt is the first one whose value equals the expected
    result: of the values the generator of [poll] yields, the
    [cnt]-th is the expected result, the ones before it are not, and
    [cnt * interval] is returned; [cnt] is at least 1 and at most the
    retry count [poll] works with. *)
Theorem result_poll_returns_attempts_times_interval
    {R : Type} `{EqDecision R} (show : R -> string) (function_repr : string)
    (function : list string -> M R) (expected_result : R) (args : Args)
    (retries interval timeout : option Z)
    (callback_dict : option CallbackDict) (w : World) (elapsed : Z) :
  fst (result_poll show function_repr function expected_result args
                   retries interval timeout callback_dict w)
  = Ret elapsed ->
  exists i cnt earlier g' w1,
    interval = Some i /\
    1 <= Z.of_nat cnt
      <= default 0 (effective_retries
                      (mkPoll function args retries interval timeout []
                              None)) /\
    take_yields cnt
      (poll (mkPoll function args retries interval timeout [] None)) w
    = (Ret (earlier ++ [Some expected_result], g'), w1) /\
    List.length earlier = (cnt - 1)%nat /\
    Forall (fun y => y <> Some expected_result) earlier /\
    elapsed = Z.of_nat cnt * i.
Proof.
  unfold result_poll, for_else. unfold bind at 1.
  set (c := mkPoll function args retries interval timeout [] None).
  destruct (for_else_fuel _ _ _ _ _ w) as [[[cnt | v] | e |] w1] eqn:Hrun;
    simpl.
  - (* the loop ended without a match: the call raises *)
    unfold bind at 1.
    destruct (run_callback _ w1) as [[[] | e |] w2]; simpl;
      try discriminate.
    unfold bind at 1.
    destruct (times_interval cnt interval w2) as [[x | e |] w3]; simpl;
      discriminate.
  - intros [= ->].
    apply result_poll_loop_first_match in Hrun
      as (i & k & earlier & g1 & w2 & Hi & Hk & Htake & Hlen & Hall & Hv).
    exists i, k, earlier, g1, w2. repeat split; auto; try lia.
    unfold attempts_left in Hk. cbn [frame poll call] in Hk. lia.
  - discriminate.
  - discriminate.
Qed.

Lemma result_poll_returns_witness :
  exists i cnt earlier g' w1,
    Some 2 = Some i /\
    1 <= Z.of_nat cnt
      <= default 0 (effective_retries
                      (mkPoll (run_cmd_args (on_host third_attempt_host))
                              (ArgList ["true"]) (Some 20) (Some 2) None
                              [] None)) /\
    take_yields cnt
      (poll (mkPoll (run_cmd_args (on_host third_attempt_host))
                    (ArgList ["true"]) (Some 20) (Some 2) None [] None))
      (boot 0)
    = (Ret (earlier ++ [Some (0, out_a_b_extra)], g'), w1) /\
    List.length earlier = (cnt - 1)%nat /\
    Forall (fun y => y <> Some (0, out_a_b_extra)) earlier /\
    6 = Z.of_nat cnt * i.
Proof.
  apply (result_poll_returns_attempts_times_interval show_reply
           "<bound method System.run_cmd>"
           (run_cmd_args (on_host third_attempt_host)) (0, out_a_b_extra)
           (ArgList ["true"]) (Some 20) (Some 2) None None (boot 0) 6).
  reflexivity.
Defined.

(** X13: [result_poll] returns only after a call of the polled function
    that gave the expected result: against a function that never
    returns it, [result_poll] never returns a value, for any budget,
    interval or callbacks. *)
Theorem result_poll_returns_only_on_match
    {R : Type} `{EqDecision R} (show : R -> string) (function_repr : string)
    (function : list string -> M R) (expected_result : R) (args : Args)
    (retries interval timeout : option Z)
    (callback_dict : option CallbackDict) (w : World) :
  (forall a w0 v w1, function a w0 = (Ret v, w1) -> v <> expected_result) ->
  ~ exists elapsed,
      fst (result_poll show function_repr function expected_result args
                       retries interval timeout callback_dict w)
      = Ret elapsed.
Proof.
  intros Hnever [elapsed Hret]. revert Hret.
  unfold result_poll, for_else. unfold bind at 1.
  destruct (for_else_fuel _ _ _ _ _ w) as [[[cnt | v] | e |] w1] eqn:Hrun;
    simpl.
  - unfold bind at 1.
    destruct (run_callback _ w1) as [[[] | e |] w2]; simpl;
      try discriminate.
    unfold bind at 1.
    destruct (times_interval cnt interval w2) as [[x | e |] w3]; simpl;
      discriminate.
  - exfalso.
    apply result_poll_loop_match
      with (function := function) (args := args) (retries := retries)
           (timeout := timeout) in Hrun as (a & w0 & w2 & Hf);
      [| reflexivity].
    exact (Hnever _ _ _ _ Hf eq_refl).
  - discriminate.
  - discriminate.
Qed.

Lemma result_poll_returns_only_on_match_witness :
  ~ exists elapsed,
      fst (result_poll_true (on_host busy_host) (boot 0)) = Ret elapsed.
Proof.
  apply (result_poll_returns_only_on_match show_reply
           "<bound method System.run_cmd>"
           (run_cmd_args (on_host busy_host)) (0, "") (ArgList ["true"])
           (Some 20) (Some 1) None None (boot 0)).
  intros a w0 v w1. unfold run_cmd_args.
  destruct a as [| cmd [| ? ?]]; try (unfold raise; discriminate).
  unfold run_cmd. intros [= <- _]. discriminate.
Defined.

(** X14: [result_poll] against a function that, on the argument list
    of the call, never raises and never gives the expected result,
    called with a positive interval and no failure callback (and with
    a timeout, if any, that the float division can take): the
    generator is run to its end, and the call ends in a
    [PollingException] whose text holds the number of attempts made,
    that is of the values the generator yielded, multiplied by the
    interval. *)
Theorem result_poll_exhausted_raises_PollingException
    {R : Type} `{EqDecision R} (show : R -> string) (function_repr : string)
    (function : list string -> M R) (expected_result : R) (args : Args)
    (a : list string) (retries timeout : option Z) (i : Z)
    (callback_dict : option CallbackDict) (w : World) :
  (forall w0, exists v w1,
     function a w0 = (Ret v, w1) /\ v <> expected_result) ->
  default_args args = inl a ->
  0 < i ->
  (forall t, timeout = Some t -> exists n, int_div t i = inr n) ->
  callback_dict ≫= failure = None ->
  exists cnt yielded w',
    take_yields (Datatypes.S cnt)
      (poll (mkPoll function args retries (Some i) timeout [] None)) w
    = (Ret (yielded,
            mkGen (mkPoll function args retries (Some i) timeout [] None)
                  Finished), w') /\
    List.length yielded = cnt /\
    Z.of_nat cnt
    <= Z.max 0 (default 0
                  (effective_retries
                     (mkPoll function args retries (Some i) timeout []
                             None))) /\
    result_poll show function_repr function expected_result args
                retries (Some i) timeout callback_dict w
    = (Raise (Exn PollingException
                ("Expected Result: '" +:+ show expected_result
                 +:+ "' not found for function: '" +:+ function_repr
                 +:+ "' after '" +:+ str_of_int (Z.of_nat cnt * i)
                 +:+ "' sec. args: " +:+ fmt_args args
                 +:+ " , kwargs None")), w').
Proof.
  intros Hfunction Hargs Hi Hdiv Hcb.
  set (c := mkPoll function args retries (Some i) timeout [] None).
  destruct (result_poll_loop_runs_out function expected_result args retries
              (Some i) timeout callback_dict a i Hargs eq_refl Hi Hdiv
              Hfunction c (attempts_left (mkGen c Created)) eq_refl
              Created 0 w (le_n _) I)
    as (cnt & yielded & w1 & Hk & Htake & Hlen & Hrun).
  exists cnt, yielded, w1.
  split; [exact Htake |]. split; [exact Hlen |]. split.
  - unfold attempts_left in Hk. cbn [frame call] in Hk. lia.
  - unfold result_poll. unfold bind at 1.
    change (poll (mkPoll function args retries (Some i) timeout [] None))
      with (mkGen c Created).
    rewrite Hrun. rewrite Hcb. reflexivity.
Qed.

Lemma result_poll_exhausted_witness :
  exists cnt yielded w',
    take_yields (Datatypes.S cnt)
      (poll (mkPoll (run_cmd_args (on_host busy_host)) (ArgList ["true"])
                    (Some 20) (Some 1) None [] None)) (boot 0)
    = (Ret (yielded,
            mkGen (mkPoll (run_cmd_args (on_host busy_host))
                          (ArgList ["true"]) (Some 20) (Some 1) None []
                          None) Finished), w') /\
    List.length yielded = cnt /\
    Z.of_nat cnt
    <= Z.max 0 (default 0
                  (effective_retries
                     (mkPoll (run_cmd_args (on_host busy_host))
                             (ArgList ["true"]) (Some 20) (Some 1) None []
                             None))) /\
    result_poll show_reply "<bound method System.run_cmd>"
                (run_cmd_args (on_host busy_host))
                (0, "") (ArgList ["true"]) (Some 20) (Some 1) None None
                (boot 0)
    = (Raise (Exn PollingException
                ("Expected Result: '" +:+ show_reply (0, "")
                 +:+ "' not found for function: '"
                 +:+ "<bound method System.run_cmd>"
                 +:+ "' after '" +:+ str_of_int (Z.of_nat cnt * 1)
                 +:+ "' sec. args: " +:+ fmt_args (ArgList ["true"])
                 +:+ " , kwargs None")), w').
Proof.
  apply (result_poll_exhausted_raises_PollingException show_reply
           "<bound method System.run_cmd>"
           (run_cmd_args (on_host busy_host))
           (0, "") (ArgList ["true"]) ["true"] (Some 20) None 1 None
           (boot 0)).
  - intros w0. eexists. eexists. split; [reflexivity | discriminate].
  - reflexivity.
  - lia.
  - discriminate.
  - reflexivity.
Defined.
(** ** The text helpers of the SSH module *)

Lemma recv_pid_loop_line (line : string) : forall buf,
  pid_text line = true ->
  recv_pid_loop buf line = Line (buf +:+ line) "" /\
  forall term rest,
    term = LF \/ term = CR ->
    recv_pid_loop buf (line +:+ String term rest) = Line (buf +:+ line) rest.
Proof.
  induction line as [| c line IH]; intros buf Hline.
  - rewrite string_app_empty_r. split; [reflexivity |].
    intros term rest [-> | ->]; reflexivity.
  - cbn [pid_text] in Hline.
    apply andb_true_iff in Hline as [Hc Hline].
    apply andb_true_iff in Hc as [Hc Hcr].
    apply andb_true_iff in Hc as [Hascii Hlf].
    apply negb_true_iff in Hlf, Hcr.
    destruct (IH (buf +:+ String c "") Hline) as [Heof Hterm].
    assert (Happ : ((buf +:+ String c "") +:+ line
                    = buf +:+ String c line)%string)
      by (rewrite string_app_assoc; reflexivity).
    rewrite Happ in Heof.
    split.
    + cbn [recv_pid_loop]. rewrite Hlf, Hcr, Hascii. exact Heof.
    + intros term rest Hterm'.
      change (String c line +:+ String term rest)%string
        with (String c (line +:+ String term rest)).
      cbn [recv_pid_loop]. rewrite Hlf, Hcr, Hascii. cbn [orb].
      rewrite (Hterm term rest Hterm'), Happ. reflexivity.
Qed.

(** X15: [Async._recv_pid_line] ([qalib/corelibs/ssh/__init__.py], lines
    387-403) returns the bytes before the first line end and takes
    exactly one byte more out of the channel: the rest stays there for
    the output thread.  After a line that ends in a carriage return
    and a newline, the newline is still in the channel.  At the end of
    the stream the bytes read so far are the line. *)
Theorem _recv_pid_line_takes_one_terminator (line : string) :
  pid_text line = true ->
  _recv_pid_line line = Line line "" /\
  (forall term rest,
     term = LF \/ term = CR ->
     _recv_pid_line (line +:+ String term rest) = Line line rest) /\
  (forall rest,
     _recv_pid_line (line +:+ String CR (String LF rest))
     = Line line (String LF rest)).
Proof.
  intros Hline. unfold _recv_pid_line.
  destruct (recv_pid_loop_line line "" Hline) as [Heof Hterm].
  split; [exact Heof |]. split; [exact Hterm |].
  intros rest. apply Hterm. now right.
Qed.

Lemma _recv_pid_line_witness :
  _recv_pid_line "4711" = Line "4711" "" /\
  (forall term rest,
     term = LF \/ term = CR ->
     _recv_pid_line ("4711" +:+ String term rest) = Line "4711" rest) /\
  (forall rest,
     _recv_pid_line ("4711" +:+ String CR (String LF rest))
     = Line "4711" (String LF rest)).
Proof.
  apply (_recv_pid_line_takes_one_terminator "4711").
  reflexivity.
Defined.

(** [follows] is the substring test for a text of two characters. *)
Lemma contains_pair (a b : ascii) (s : string) :
  contains (String a (String b "")) s = follows a b s.
Proof.
  induction s as [| c s IH]; [reflexivity |].
  cbn [contains follows]. rewrite IH. f_equal.
  destruct (String.prefix (String a (String b "")) (String c s)) eqn:Hp.
  - apply prefix_app in Hp as [t Ht].
    change (String a (String b "") +:+ t)%string
      with (String a (String b t)) in Ht.
    injection Ht as -> ->.
    cbn [head_is]. now rewrite !Ascii.eqb_refl.
  - symmetry. apply not_true_iff_false. intros H.
    apply andb_true_iff in H as [Hc Hh]. apply Ascii.eqb_eq in Hc. subst c.
    destruct s as [| d s]; [discriminate |]. cbn [head_is] in Hh.
    apply Ascii.eqb_eq in Hh. subst d.
    assert (Ht : String.prefix (String a (String b "")) (String a (String b s))
                 = true) by (apply prefix_app; now exists s).
    congruence.
Qed.

Lemma collapse_cr_head (b : ascii) (s : string) :
  head_is b (collapse_cr s) = head_is b s.
Proof.
  induction s as [| c s IH]; [reflexivity |].
  cbn [collapse_cr]. destruct (Ascii.eqb_spec c CR) as [-> | Hc].
  - destruct s as [| c' s]; [reflexivity |].
    destruct (Ascii.eqb_spec c' CR) as [-> | Hc'].
    + rewrite IH. reflexivity.
    + reflexivity.
  - reflexivity.
Qed.

Lemma collapse_cr_no_run (s : string) : follows CR CR (collapse_cr s) = false.
Proof.
  induction s as [| c s IH]; [reflexivity |].
  cbn [collapse_cr]. destruct (Ascii.eqb_spec c CR) as [-> | Hc].
  - destruct s as [| c' s]; [reflexivity |].
    destruct (Ascii.eqb_spec c' CR) as [-> | Hc'].
    + exact IH.
    + cbn [follows]. rewrite IH, collapse_cr_head. cbn [head_is].
      apply Ascii.eqb_neq in Hc'. now rewrite Hc'.
  - cbn [follows]. rewrite IH. apply Ascii.eqb_neq in Hc. now rewrite Hc.
Qed.

Lemma collapse_cr_fixed (s : string) :
  follows CR CR s = false -> collapse_cr s = s.
Proof.
  induction s as [| c s IH]; [reflexivity |].
  cbn [follows]. intros H. apply orb_false_iff in H as [Hhead Hrest].
  cbn [collapse_cr]. rewrite (IH Hrest).
  destruct (Ascii.eqb_spec c CR) as [-> | Hc]; [| reflexivity].
  destruct s as [| c' s]; [reflexivity |].
  cbn [head_is andb] in Hhead. now rewrite Hhead.
Qed.

(** What [crlf_to_lf] does to a text without runs of carriage
    returns, by induction on a bound of its length. *)
Lemma crlf_to_lf_normal (n : nat) : forall s,
  (String.length s <= n)%nat ->
  follows CR CR s = false ->
  follows CR LF (crlf_to_lf s) = false /\
  follows CR CR (crlf_to_lf s) = false /\
  (head_is CR s = false -> head_is LF s = false ->
   head_is CR (crlf_to_lf s) = false /\ head_is LF (crlf_to_lf s) = false).
Proof.
  induction n as [| n IH]; intros s Hlen Hrun.
  - destruct s; [repeat split; auto | simpl in Hlen; lia].
  - destruct s as [| c s]; [repeat split; auto |].
    cbn [String.length] in Hlen.
    cbn [follows] in Hrun. apply orb_false_iff in Hrun as [Hhead Hrest].
    cbn [crlf_to_lf]. destruct (Ascii.eqb_spec c CR) as [-> | Hc].
    + cbn [andb] in Hhead.
      assert (Hno : head_is CR (String CR s) = false -> False)
        by (cbn [head_is]; rewrite Ascii.eqb_refl; discriminate).
      destruct s as [| c' s];
        [repeat split; auto; intros; contradiction |].
      cbn [head_is andb] in Hhead.
      destruct (Ascii.eqb_spec c' LF) as [-> | Hc'].
      * cbn [String.length] in Hlen.
        cbn [follows] in Hrest. apply orb_false_iff in Hrest as [_ Hrest].
        destruct (IH s ltac:(lia) Hrest) as (H1 & H2 & _).
        cbn [follows head_is]. rewrite H1, H2.
        repeat split; auto; intros; contradiction.
      * destruct (IH (String c' s) ltac:(lia) Hrest) as (H1 & H2 & H3).
        destruct H3 as [H3 H4].
        { exact Hhead. }
        { cbn [head_is]. now apply Ascii.eqb_neq. }
        cbn [follows]. rewrite H1, H2, H3, H4.
        repeat split; auto; intros; contradiction.
    + destruct (IH s ltac:(lia) Hrest) as (H1 & H2 & _).
      apply Ascii.eqb_neq in Hc.
      cbn [follows head_is]. rewrite H1, H2, Hc. cbn [andb orb].
      repeat split; auto.
Qed.

Lemma crlf_to_lf_fixed (n : nat) : forall s,
  (String.length s <= n)%nat ->
  follows CR LF s = false -> crlf_to_lf s = s.
Proof.
  induction n as [| n IH]; intros s Hlen Hpair.
  - destruct s; [reflexivity | simpl in Hlen; lia].
  - destruct s as [| c s]; [reflexivity |].
    cbn [String.length] in Hlen.
    cbn [follows] in Hpair. apply orb_false_iff in Hpair as [Hhead Hrest].
    cbn [crlf_to_lf]. rewrite (IH s ltac:(lia) Hrest).
    destruct (Ascii.eqb_spec c CR) as [-> | Hc]; [| reflexivity].
    destruct s as [| c' s]; [reflexivity |].
    cbn [head_is andb] in Hhead. now rewrite Hhead.
Qed.

(** X16: [InteractiveSSH._cleanup_line_feeds]
    ([qalib/corelibs/ssh/__init__.py], lines 692-698 and again
    877-883): in the cleaned text no carriage return is followed by a
    newline or by another carriage return, whatever the input; cleaning
    a cleaned text changes nothing; and a text in which no carriage
    return is followed by either is returned as it is. *)
Theorem _cleanup_line_feeds_normal_form (data : string) :
  let cleaned := _cleanup_line_feeds data in
  contains (String CR (String LF "")) cleaned = false /\
  contains (String CR (String CR "")) cleaned = false /\
  _cleanup_line_feeds cleaned = cleaned /\
  (contains (String CR (String LF "")) data = false ->
   contains (String CR (String CR "")) data = false ->
   cleaned = data).
Proof.
  cbv zeta. unfold _cleanup_line_feeds. rewrite !contains_pair.
  destruct (crlf_to_lf_normal (String.length (collapse_cr data))
              (collapse_cr data) (le_n _) (collapse_cr_no_run data))
    as (H1 & H2 & _).
  split; [exact H1 |]. split; [exact H2 |]. split.
  - rewrite (collapse_cr_fixed _ H2).
    apply (crlf_to_lf_fixed (String.length (crlf_to_lf (collapse_cr data)))).
    + apply le_n.
    + exact H1.
  - intros Hlf Hcr. rewrite (collapse_cr_fixed _ Hcr).
    apply (crlf_to_lf_fixed (String.length data)); [apply le_n | exact Hlf].
Qed.

Lemma strip_from_skip (a : string) : forall b,
  strip_from (String.length a) (a +:+ b) = strip_from 0 b.
Proof.
  induction a as [| c a IH]; intros b; [reflexivity |].
  change (String c a +:+ b)%string with (String c (a +:+ b)).
  cbn [String.length strip_from]. apply IH.
Qed.

Lemma ansi_match_other (c : ascii) (s : string) :
  Ascii.eqb c ESC = false -> ansi_match (String c s) = None.
Proof.
  intros Hc. unfold ansi_match. destruct s; [reflexivity |].
  now rewrite Hc.
Qed.

Lemma strip_from_plain (pre : string) : forall s,
  occurs ESC pre = false ->
  strip_from 0 (pre +:+ s) = (pre +:+ strip_from 0 s)%string.
Proof.
  induction pre as [| c pre IH]; intros s Hpre; [reflexivity |].
  cbn [occurs] in Hpre. apply orb_false_iff in Hpre as [Hc Hpre].
  change (String c pre +:+ s)%string with (String c (pre +:+ s)).
  cbn [strip_from]. rewrite (ansi_match_other _ _ Hc), (IH _ Hpre).
  reflexivity.
Qed.

Lemma digits_run_app (digits : string) (c : ascii) (rest : string) :
  all_digits digits = true -> is_digit c = false ->
  digits_run (digits +:+ String c rest) = String.length digits /\
  String.get (String.length digits) (digits +:+ String c rest) = Some c.
Proof.
  intros Hd Hc. induction digits as [| d digits IH].
  - change ("" +:+ String c rest)%string with (String c rest).
    cbn [digits_run String.length String.get]. now rewrite Hc.
  - cbn [all_digits] in Hd. apply andb_true_iff in Hd as [Hd Hds].
    destruct (IH Hds) as [Hrun Hget].
    change (String d digits +:+ String c rest)%string
      with (String d (digits +:+ String c rest)).
    cbn [digits_run String.length String.get]. rewrite Hd, Hrun.
    split; [reflexivity | exact Hget].
Qed.

Lemma strip_from_match (c : ascii) (rest : string) (len : nat) :
  ansi_match (String c rest) = Some len ->
  strip_from 0 (String c rest) = strip_from (len - 1) rest.
Proof.
  intros Hm.
  change (strip_from 0 (String c rest))
    with (match ansi_match (String c rest) with
          | Some len => strip_from (len - 1) rest
          | None => String c (strip_from 0 rest)
          end).
  now rewrite Hm.
Qed.

Lemma ansi_match_sequence (digits : string) (final : ascii) (rest : string) :
  all_digits digits = true -> is_word final = true ->
  is_digit final = false ->
  ansi_match (String ESC (String "[" (digits +:+ String final rest)))
  = Some (2 + String.length digits + 1)%nat.
Proof.
  intros Hdigits Hword Hnodigit.
  destruct (digits_run_app digits final rest Hdigits Hnodigit)
    as [Hrun Hget].
  unfold ansi_match. rewrite !Ascii.eqb_refl. cbn [andb]. cbv zeta.
  now rewrite Hrun, Hget, Hword.
Qed.

(** X17: [InteractiveSSH._strip_ansi_sequences]
    ([qalib/corelibs/ssh/__init__.py], lines 700-705 and again
    885-890): a text without the escape character is returned as it
    is, and an escape sequence made of the escape character, an opening
    square bracket, digits (or none) and a final letter or underscore
    is taken out whole, with the text before it kept and the text after
    it stripped in turn. *)
Theorem _strip_ansi_sequences_removes_sequence
    (pre digits : string) (final : ascii) (rest : string) :
  occurs ESC pre = false ->
  all_digits digits = true ->
  is_word final = true -> is_digit final = false ->
  _strip_ansi_sequences pre = pre /\
  _strip_ansi_sequences
    (pre +:+ String ESC (String "[" (digits +:+ String final rest)))
  = (pre +:+ _strip_ansi_sequences rest)%string.
Proof.
  intros Hpre Hdigits Hword Hnodigit. unfold _strip_ansi_sequences. split.
  - rewrite <- (string_app_empty_r pre) at 1.
    rewrite (strip_from_plain pre "" Hpre). cbn [strip_from].
    apply string_app_empty_r.
  - rewrite (strip_from_plain pre _ Hpre). f_equal.
    rewrite (strip_from_match _ _ _
               (ansi_match_sequence digits final rest Hdigits Hword
                                    Hnodigit)).
    replace (2 + String.length digits + 1 - 1)%nat
      with (String.length (String "[" (digits +:+ String final "")))
      by (cbn [String.length]; rewrite length_app_str; simpl; lia).
    replace (String "[" (digits +:+ String final rest))
      with ((String "[" (digits +:+ String final "")) +:+ rest)%string.
    + apply strip_from_skip.
    + change (String "[" (digits +:+ String final "") +:+ rest)%string
        with (String "[" ((digits +:+ String final "") +:+ rest)).
      rewrite string_app_assoc. reflexivity.
Qed.

Lemma _strip_ansi_sequences_witness :
  _strip_ansi_sequences "green" = "green" /\
  _strip_ansi_sequences
    ("green" +:+ String ESC (String "[" ("32" +:+ String "m" "text")))
  = ("green" +:+ _strip_ansi_sequences "text")%string.
Proof.
  apply (_strip_ansi_sequences_removes_sequence "green" "32" "m" "text");
    reflexivity.
Defined.

Lemma is_word_false_not_digit (c : ascii) :
  is_word c = false -> is_digit c = false.
Proof.
  unfold is_word. intros Hw.
  apply orb_false_iff in Hw as [Hw _].
  apply orb_false_iff in Hw as [Hw _].
  apply orb_false_iff in Hw as [Hw _]. exact Hw.
Qed.

Lemma ansi_match_parameters (digits : string) (sep : ascii) (rest : string) :
  all_digits digits = true -> is_word sep = false ->
  ansi_match (String ESC (String "[" (digits +:+ String sep rest)))
  = if (0 <? String.length digits)%nat
    then Some (2 + String.length digits)%nat else None.
Proof.
  intros Hdigits Hsep.
  destruct (digits_run_app digits sep rest Hdigits
              (is_word_false_not_digit sep Hsep)) as [Hrun Hget].
  unfold ansi_match. rewrite !Ascii.eqb_refl. cbn [andb]. cbv zeta.
  now rewrite Hrun, Hget, Hsep.
Qed.

(** X18: [InteractiveSSH._strip_ansi_sequences] takes out at most one
    parameter: in a sequence whose digits are followed by a character
    that is neither a letter, a digit nor an underscore (the semicolon
    of a colour sequence with two parameters, say), only the escape
    character, the bracket and the digits go, and the separator and all
    that follows it stay in the text; and when no digit stands before
    the separator nothing is removed at all. *)
Theorem _strip_ansi_sequences_leaves_parameters
    (pre digits : string) (sep : ascii) (rest : string) :
  occurs ESC pre = false ->
  all_digits digits = true -> digits <> ""%string ->
  is_word sep = false -> Ascii.eqb sep ESC = false ->
  _strip_ansi_sequences
    (pre +:+ String ESC (String "[" (digits +:+ String sep rest)))
  = (pre +:+ String sep (_strip_ansi_sequences rest))%string /\
  _strip_ansi_sequences
    (pre +:+ String ESC (String "[" (String sep rest)))
  = (pre +:+ String ESC
               (String "[" (String sep (_strip_ansi_sequences rest))))%string.
Proof.
  intros Hpre Hdigits Hne Hsep Hesc. unfold _strip_ansi_sequences. split.
  - rewrite (strip_from_plain pre _ Hpre). f_equal.
    pose proof (ansi_match_parameters digits sep rest Hdigits Hsep) as Hm.
    assert (Hlen : (0 <? String.length digits)%nat = true).
    { destruct digits; [congruence | reflexivity]. }
    rewrite Hlen in Hm.
    rewrite (strip_from_match _ _ _ Hm).
    replace (2 + String.length digits - 1)%nat
      with (String.length (String "[" digits))
      by (cbn [String.length]; lia).
    change (String "[" (digits +:+ String sep rest))
      with ((String "[" digits) +:+ String sep rest)%string.
    rewrite strip_from_skip.
    cbn [strip_from]. now rewrite (ansi_match_other _ _ Hesc).
  - rewrite (strip_from_plain pre _ Hpre). f_equal.
    pose proof (ansi_match_parameters "" sep rest eq_refl Hsep) as Hm.
    change ("" +:+ String sep rest)%string with (String sep rest) in Hm.
    cbn [String.length Nat.ltb Nat.leb] in Hm.
    change (strip_from 0 (String ESC (String "[" (String sep rest))))
      with (match ansi_match (String ESC (String "[" (String sep rest))) with
            | Some len => strip_from (len - 1) (String "[" (String sep rest))
            | None => String ESC (strip_from 0 (String "[" (String sep rest)))
            end).
    rewrite Hm. f_equal.
    change (strip_from 0 (String "[" (String sep rest)))
      with (match ansi_match (String "[" (String sep rest)) with
            | Some len => strip_from (len - 1) (String sep rest)
            | None => String "[" (strip_from 0 (String sep rest))
            end).
    rewrite (ansi_match_other "[" _ eq_refl). f_equal.
    cbn [strip_from]. now rewrite (ansi_match_other _ _ Hesc).
Qed.

Lemma _strip_ansi_sequences_parameters_witness :
  _strip_ansi_sequences
    ("" +:+ String ESC (String "[" ("1" +:+ String ";" "32mOK")))
  = ("" +:+ String ";" (_strip_ansi_sequences "32mOK"))%string /\
  _strip_ansi_sequences
    ("" +:+ String ESC (String "[" (String ";" "32mOK")))
  = ("" +:+ String ESC
              (String "[" (String ";" (_strip_ansi_sequences "32mOK"))))%string.
Proof.
  apply (_strip_ansi_sequences_leaves_parameters "" "1" ";" "32mOK");
    try reflexivity.
  discriminate.
Defined.

(** ** The life cycle of an asynchronous command *)

(** Once the clean-up has run, [kill] does nothing and [wait] gives the
    stored status without asking the connection. *)
Lemma calls_after_cleanup open_session remote_status (status : Z)
    (cs : list Call) : forall ops,
  calls open_session remote_status cs
        (mkHandle None None false None (Some status), ops)
  = inr (repeat (Some status)
                (List.length
                   (List.filter (fun c => match c with
                                          | Wait => true
                                          | Kill => false
                                          end) cs)),
         (mkHandle None None false None (Some status), ops)).
Proof.
  induction cs as [| [|] cs IH]; intros ops.
  - reflexivity.
  - cbn [calls kill _thread fst negb List.filter]. apply IH.
  - cbn [calls wait _wait_for_exit_status _exit_status _close_and_cleanup
         _thread _session _tp fst List.filter List.length repeat].
    now rewrite IH.
Qed.

(** X19: [Async.kill], [Async.wait] and [Async._close_and_cleanup]
    ([qalib/corelibs/ssh/__init__.py], lines 417-491), on a connection
    that lets the kill command through: whatever calls of [kill] and
    [wait] follow the start of a command, in any order and number,
    they join the output thread once, close the session and the
    transport once each, ask the session for the exit status at most
    once (not at all when the output thread stored it already), and
    send the kill command only when the first call is a [kill].  Every
    [wait] gives the same status, and all four of [_tp], [_session],
    [_thread] and [_pid] end up cleared. *)
Theorem async_released_exactly_once
    (tp session : nat) (pid : Z) (cached : option Z) (remote_status : Z)
    (first : Call) (rest : list Call) :
  let status := default remote_status cached in
  calls None remote_status (first :: rest) (running tp session pid cached)
  = inr (repeat (Some status)
                (List.length
                   (List.filter (fun c => match c with
                                          | Wait => true
                                          | Kill => false
                                          end) (first :: rest))),
         (mkHandle None None false None (Some status),
          match first with
          | Kill =>
              [KillCmd ("kill -9 $(pstree " +:+ str_of_int pid
                        +:+ " -p -a -l" +:+ " | cut -d, -f2 | cut -d' ' -f1)")]
          | Wait => []
          end
          ++ match cached with
             | None => [RecvExitStatus]
             | Some _ => []
             end
          ++ [JoinThread; CloseSession; CloseTransport])).
Proof.
  cbv zeta. unfold running.
  destruct first, cached as [s |];
    cbn [calls kill wait _kill_cmd _wait_for_exit_status _close_and_cleanup
         _thread _session _tp _pid _exit_status fst snd negb fmt_pid
         List.filter List.length repeat default from_option id app];
    rewrite calls_after_cleanup; reflexivity.
Qed.

(** ** [gethostbyname_retry] ([qalib/qabase/networking.py], lines 17-33) *)

Lemma advance_advance (d1 d2 : Z) (w : World) :
  advance d2 (advance d1 w) = advance (d1 + d2) w.
Proof. destruct w; unfold advance; simpl; f_equal; lia. Qed.

Lemma advance_0 (w : World) : advance 0 w = w.
Proof. destruct w; unfold advance; simpl; f_equal; lia. Qed.

Lemma gethostbyname_loop_bounded (resolver : Resolver) (hostname : string)
    (fuel : nat) :
  forall (attempts : nat) (w : World),
    (attempts <= attempts_max)%nat ->
    (Datatypes.S attempts_max <= fuel + attempts)%nat ->
    exists n : nat,
      (attempts < n <= Datatypes.S attempts_max)%nat
      /\ (forall k, (attempts < k < n)%nat ->
                    is_transient (resolver k hostname) = true)
      /\ (n = Datatypes.S attempts_max
          \/ is_transient (resolver n hostname) = false)
      /\ gethostbyname_loop resolver hostname fuel attempts w
         = (lookup_result (resolver n hostname),
            advance (2 * Z.of_nat (n - attempts - 1)) w).
Proof.
  unfold attempts_max.
  induction fuel as [|fuel IH]; intros attempts w Hle Hfuel; [lia|].
  cbn [gethostbyname_loop].
  destruct (resolver (Datatypes.S attempts) hostname) as [ip|errno e] eqn:Hr.
  - exists (Datatypes.S attempts). rewrite Hr. cbn [is_transient lookup_result].
    replace (Datatypes.S attempts - attempts - 1)%nat with 0%nat by lia.
    change (2 * Z.of_nat 0) with 0. rewrite advance_0.
    repeat split; try lia; auto.
  - destruct (isinstance e [socket_error]) eqn:Hi.
    + destruct (bool_decide (errno = Some EAI_AGAIN)) eqn:Hb.
      * unfold attempts_max.
        destruct (Nat.leb_spec (Datatypes.S attempts) 30) as [Hlt|Hge];
          cbn [andb].
        -- destruct (IH (Datatypes.S attempts) (advance 2 w))
             as (n & Hn & Hbefore & Hlast & Hrun); [lia|lia|].
           exists n. repeat split; try lia.
           ++ intros k Hk.
              destruct (decide (k = Datatypes.S attempts)) as [->|Hne].
              ** rewrite Hr. cbn [is_transient]. rewrite Hi, Hb. reflexivity.
              ** apply Hbefore. lia.
           ++ exact Hlast.
           ++ unfold bind, sleep. change (2 <? 0) with false. cbv beta iota.
              rewrite Hrun, advance_advance. do 2 f_equal. lia.
        -- exists (Datatypes.S attempts). rewrite Hr. cbn [lookup_result].
           replace (Datatypes.S attempts - attempts - 1)%nat with 0%nat by lia.
           change (2 * Z.of_nat 0) with 0. rewrite advance_0.
           repeat split; try lia.
      * cbn [andb]. exists (Datatypes.S attempts). rewrite Hr.
        cbn [is_transient lookup_result]. rewrite Hi, Hb.
        replace (Datatypes.S attempts - attempts - 1)%nat with 0%nat by lia.
        change (2 * Z.of_nat 0) with 0. rewrite advance_0.
        repeat split; try lia; auto.
    + exists (Datatypes.S attempts). rewrite Hr.
      cbn [is_transient lookup_result]. rewrite Hi.
      replace (Datatypes.S attempts - attempts - 1)%nat with 0%nat by lia.
      change (2 * Z.of_nat 0) with 0. rewrite advance_0.
      repeat split; try lia; auto.
Qed.

(** X20: [gethostbyname_retry] always ends, after at most 31 lookups: it is
    ended by the first lookup [n] that is not a [socket.error] with
    errno [EAI_AGAIN], or by the 31st lookup whatever its outcome.  It
    gives back that lookup's address or re-raises that lookup's
    exception, having slept two seconds after each of the [n - 1]
    lookups before; so a name service that stays busy costs 60 seconds
    and ends in the [EAI_AGAIN] error itself. *)
Theorem gethostbyname_retry_bounded (resolver : Resolver)
    (hostname : string) (w : World) :
  exists n : nat,
    (1 <= n <= 31)%nat
    /\ (forall k, (1 <= k < n)%nat ->
                  is_transient (resolver k hostname) = true)
    /\ (n = 31%nat \/ is_transient (resolver n hostname) = false)
    /\ gethostbyname_retry resolver hostname w
       = (lookup_result (resolver n hostname),
          advance (2 * (Z.of_nat n - 1)) w).
Proof.
  destruct (gethostbyname_loop_bounded resolver hostname
              (Datatypes.S attempts_max) 0 w)
    as (n & Hn & Hbefore & Hlast & Hrun);
    [unfold attempts_max; lia | unfold attempts_max; lia |].
  unfold attempts_max in *.
  exists n. repeat split; try lia.
  - intros k Hk. apply Hbefore. lia.
  - exact Hlast.
  - unfold gethostbyname_retry. unfold attempts_max. rewrite Hrun.
    do 3 f_equal. lia.
Qed.

(** ** [round_robin] ([qalib/qabase/algorithms.py], lines 10-49) *)

Section round_robin_facts.
Context {K T : Type} `{Countable K}.
Variable repr : K -> string.
Variable shuffle : list K -> list K.

Lemma empty_hands_from (ws : list K) : forall (m : gmap K (list T)) worker,
  foldl (fun ret worker => <[worker := []]> ret) m ws !! worker
  = if decide (worker ∈ ws) then Some [] else m !! worker.
Proof.
  induction ws as [|w ws IH]; intros m worker; simpl.
  - destruct (decide (worker ∈ [])) as [Hin|_]; [inversion Hin|reflexivity].
  - rewrite IH.
    destruct (decide (worker ∈ ws)) as [Hin|Hin];
      destruct (decide (worker ∈ w :: ws)) as [Hin'|Hin'];
      try reflexivity.
    + exfalso. apply Hin'. now right.
    + apply elem_of_cons in Hin' as [->|Hin']; [|contradiction].
      apply lookup_insert_eq.
    + rewrite lookup_insert_ne; [reflexivity|].
      intros ->. apply Hin'. now left.
Qed.

Lemma empty_hands_lookup (ws : list K) (worker : K) :
  empty_hands (T:=T) ws !! worker
  = if decide (worker ∈ ws) then Some [] else None.
Proof. unfold empty_hands. rewrite empty_hands_from. now rewrite lookup_empty. Qed.

Lemma mod_same_offset (n k d : nat) :
  (d < n)%nat -> ((k + d) mod n = k mod n)%nat -> d = 0%nat.
Proof.
  intros Hd Hmod.
  pose proof (Nat.div_mod_eq (k + d) n) as H1.
  pose proof (Nat.div_mod_eq k n) as H2.
  pose proof (Nat.mod_upper_bound k n ltac:(lia)) as H3.
  rewrite Hmod in H1.
  assert (((k + d) / n = k / n)%nat \/ (k / n < (k + d) / n)%nat
          \/ ((k + d) / n < k / n)%nat) as [He|[Hl|Hl]] by lia.
  - rewrite He in H1. lia.
  - nia.
  - nia.
Qed.

Lemma deal_spec (order : list K) (n : nat) :
  n = List.length order -> (0 < n)%nat ->
  forall (ts : list T) (k : nat) (ret : gmap K (list T)),
    (forall worker, worker ∈ order -> is_Some (ret !! worker)) ->
    exists ret',
      deal repr order n k ts ret = inr ret'
      /\ forall worker,
           match ret !! worker with
           | None => ret' !! worker = None
           | Some l =>
               exists add,
                 ret' !! worker = Some (l ++ add)
                 /\ (forall i t, ts !! i = Some t ->
                       order !! ((k + i) mod n)%nat = Some worker ->
                       t ∈ add)
                 /\ (NoDup order ->
                     forall j d, order !! j = Some worker ->
                       (d < n)%nat -> ((k + d) mod n)%nat = j ->
                       forall q, add !! q = ts !! (d + q * n)%nat)
           end.
Proof.
  intros Hn Hpos.
  induction ts as [|t rest IH]; intros k ret Hkeys.
  - exists ret. split; [reflexivity|]. intros worker.
    destruct (ret !! worker) as [l|] eqn:Hl; [|reflexivity].
    exists []. rewrite app_nil_r. repeat split; auto.
    intros i t Hi. discriminate.
  - cbn [deal].
    destruct (Nat.eqb_spec n 0) as [Hz|_]; [lia|].
    assert (Hlt : (k mod n < List.length order)%nat).
    { rewrite <- Hn. apply Nat.mod_upper_bound. lia. }
    destruct (lookup_lt_is_Some_2 order _ Hlt) as [w Hw]. rewrite Hw.
    destruct (Hkeys w (list_elem_of_lookup_2 _ _ _ Hw)) as [l0 Hl0].
    rewrite Hl0.
    destruct (IH (Datatypes.S k) (<[w := l0 ++ [t]]> ret))
      as (ret' & Hrun & Hspec).
    { intros worker Hin. destruct (decide (worker = w)) as [->|Hne].
      - rewrite lookup_insert_eq. eauto.
      - rewrite lookup_insert_ne by congruence. auto. }
    exists ret'. split; [exact Hrun|]. intros worker.
    specialize (Hspec worker).
    destruct (decide (worker = w)) as [->|Hne].
    + rewrite lookup_insert_eq in Hspec. rewrite Hl0.
      destruct Hspec as (add' & Hret' & Hmem & Hturn).
      exists (t :: add'). split; [|split].
      * rewrite Hret', <- app_assoc. reflexivity.
      * intros [|i] t' Hi Ho.
        -- injection Hi as <-. now left.
        -- right. apply (Hmem i t' Hi).
           replace (Datatypes.S k + i)%nat with (k + Datatypes.S i)%nat by lia.
           exact Ho.
      * intros Hnd j d Hj Hd Hmod.
        assert (j = (k mod n)%nat) as Hjk
          by exact (NoDup_lookup _ _ _ _ Hnd Hj Hw).
        assert (d = 0%nat) as -> by (apply (mod_same_offset n k); lia).
        intros [|q].
        -- reflexivity.
        -- cbn [lookup list_lookup].
           rewrite (Hturn Hnd j (n - 1)%nat Hj ltac:(lia)).
           ++ replace (0 + Datatypes.S q * n)%nat
                with (Datatypes.S (n - 1 + q * n)) by lia.
              reflexivity.
           ++ replace (Datatypes.S k + (n - 1))%nat with (k + 1 * n)%nat by lia.
              rewrite Nat.Div0.mod_add. lia.
    + rewrite lookup_insert_ne in Hspec by congruence.
      destruct (ret !! worker) as [l|] eqn:Hl; [|exact Hspec].
      destruct Hspec as (add' & Hret' & Hmem & Hturn).
      exists add'. split; [exact Hret'|split].
      * intros [|i] t' Hi Ho.
        -- rewrite Nat.add_0_r in Ho. congruence.
        -- apply (Hmem i t' Hi).
           replace (Datatypes.S k + i)%nat with (k + Datatypes.S i)%nat by lia.
           exact Ho.
      * intros Hnd j d Hj Hd Hmod q.
        destruct d as [|d].
        { rewrite Nat.add_0_r in Hmod. subst j. congruence. }
        rewrite (Hturn Hnd j d Hj ltac:(lia)).
        -- reflexivity.
        -- replace (Datatypes.S k + d)%nat with (k + Datatypes.S d)%nat by lia.
           exact Hmod.
Qed.

End round_robin_facts.

(** X21: [round_robin] deals the targets to the workers in turn.  For a
    list of distinct workers, not empty (and, with [no_empty], not
    longer than the target list), the call returns a dictionary whose
    keys are exactly the workers, and the worker at position [j] of the
    order used (the list as given, or as [random.shuffle] left it)
    holds the targets number [j], [j + n], [j + 2n], ... of the target
    list, in that order, [n] being the number of workers: every target
    is handed out once, and two workers' shares differ by at most one
    target. *)
Theorem round_robin_deals_in_turn {K T : Type} `{Countable K}
    (repr : K -> string) (shuffle : list K -> list K)
    (worker_list : list K) (target_list : list T)
    (randomize no_empty : bool) :
  worker_list <> [] ->
  NoDup worker_list ->
  Permutation (shuffle worker_list) worker_list ->
  (no_empty = true ->
   (List.length worker_list <= List.length target_list)%nat) ->
  exists ret,
    round_robin repr shuffle worker_list target_list randomize no_empty
    = inr ret
    /\ (forall worker, is_Some (ret !! worker) <-> worker ∈ worker_list)
    /\ forall j worker,
         (if randomize then shuffle worker_list else worker_list) !! j
         = Some worker ->
         exists l,
           ret !! worker = Some l
           /\ forall q,
                l !! q
                = target_list !! (j + q * List.length worker_list)%nat.
Proof.
  intros Hne Hnd Hperm Hlen.
  unfold round_robin.
  destruct (Nat.eqb_spec (List.length worker_list) 0) as [Hz|Hnz].
  { destruct worker_list; [congruence|discriminate]. }
  assert (no_empty
          && (List.length target_list <? List.length worker_list)%nat
          = false) as ->.
  { destruct no_empty; [|reflexivity]. cbn [andb].
    apply Nat.ltb_ge. auto. }
  set (order := if randomize then shuffle worker_list else worker_list).
  assert (Hperm' : Permutation order worker_list)
    by (subst order; destruct randomize; [exact Hperm|reflexivity]).
  assert (Hlen' : List.length order = List.length worker_list)
    by (apply Permutation_length; exact Hperm').
  assert (Hnd' : NoDup order) by (rewrite Hperm'; exact Hnd).
  cbv zeta.
  destruct (deal_spec repr order (List.length order) eq_refl ltac:(lia)
              target_list 0%nat (empty_hands order))
    as (ret & Hrun & Hspec).
  { intros worker Hin. rewrite empty_hands_lookup.
    destruct (decide (worker ∈ order)); [eauto|contradiction]. }
  exists ret. split; [exact Hrun|split].
  - intros worker. specialize (Hspec worker).
    rewrite empty_hands_lookup in Hspec.
    destruct (decide (worker ∈ order)) as [Hin|Hin].
    + destruct Hspec as (add & -> & _). rewrite <- Hperm'.
      split; [intros _; exact Hin|eauto].
    + rewrite Hspec, <- Hperm'. split; [intros [? ?]; discriminate|].
      intros ?; contradiction.
  - intros j worker Hj. specialize (Hspec worker).
    rewrite empty_hands_lookup in Hspec.
    destruct (decide (worker ∈ order)) as [Hin|Hin].
    + destruct Hspec as (add & -> & _ & Hturn).
      exists add. split; [reflexivity|]. intros q. rewrite <- Hlen'.
      apply (Hturn Hnd' j j Hj).
      * apply lookup_lt_Some in Hj. exact Hj.
      * apply Nat.mod_small. apply lookup_lt_Some in Hj. exact Hj.
    + exfalso. apply Hin. exact (list_elem_of_lookup_2 _ _ _ Hj).
Qed.

Lemma round_robin_deals_in_turn_witness :
  exists ret,
    round_robin id reverse ["c_1"; "c_2"] ["vol_1"; "vol_2"; "vol_3"]
                true true
    = inr ret
    /\ (forall worker,
          is_Some (ret !! worker) <-> worker ∈ ["c_1"; "c_2"])
    /\ forall j worker,
         reverse ["c_1"; "c_2"] !! j = Some worker ->
         exists l,
           ret !! worker = Some l
           /\ forall q,
                l !! q = ["vol_1"; "vol_2"; "vol_3"] !! (j + q * 2)%nat.
Proof.
  apply (round_robin_deals_in_turn id reverse ["c_1"; "c_2"]
           ["vol_1"; "vol_2"; "vol_3"] true true).
  - discriminate.
  - apply NoDup_cons. split; [|apply NoDup_singleton].
    intros Hin. apply list_elem_of_singleton in Hin. discriminate.
  - apply Permutation_swap.
  - intros _. simpl. lia.
Defined.

(** X22: With [no_empty] set, [round_robin] leaves no worker without a
    target: it raises [ValueError] exactly when the worker list is
    empty or longer than the target list, and otherwise every worker
    has at least one target in the dictionary returned, also when a
    worker is listed more than once. *)
Theorem round_robin_no_empty_uses_every_worker {K T : Type} `{Countable K}
    (repr : K -> string) (shuffle : list K -> list K)
    (worker_list : list K) (target_list : list T) (randomize : bool) :
  Permutation (shuffle worker_list) worker_list ->
  match round_robin repr shuffle worker_list target_list randomize true with
  | inl e =>
      exn_class e = ValueError
      /\ (worker_list = []
          \/ (List.length target_list < List.length worker_list)%nat)
  | inr ret =>
      worker_list <> []
      /\ (List.length worker_list <= List.length target_list)%nat
      /\ forall worker, worker ∈ worker_list ->
           exists t l, ret !! worker = Some (t :: l)
  end.
Proof.
  intros Hperm. unfold round_robin.
  destruct (Nat.eqb_spec (List.length worker_list) 0) as [Hz|Hnz].
  { split; [reflexivity|]. left.
    destruct worker_list; [reflexivity|discriminate]. }
  cbn [andb].
  destruct (Nat.ltb_spec (List.length target_list) (List.length worker_list))
    as [Hlt|Hge].
  { split; [reflexivity|]. right. exact Hlt. }
  set (order := if randomize then shuffle worker_list else worker_list).
  assert (Hperm' : Permutation order worker_list)
    by (subst order; destruct randomize; [exact Hperm|reflexivity]).
  assert (Hlen' : List.length order = List.length worker_list)
    by (apply Permutation_length; exact Hperm').
  cbv zeta.
  destruct (deal_spec repr order (List.length order) eq_refl ltac:(lia)
              target_list 0%nat (empty_hands order))
    as (ret & Hrun & Hspec).
  { intros worker Hin. rewrite empty_hands_lookup.
    destruct (decide (worker ∈ order)); [eauto|contradiction]. }
  rewrite Hrun. split; [|split; [exact Hge|]].
  { intros ->. simpl in Hnz. congruence. }
  intros worker Hin. rewrite <- Hperm' in Hin.
  specialize (Hspec worker). rewrite empty_hands_lookup in Hspec.
  destruct (decide (worker ∈ order)) as [_|]; [|contradiction].
  destruct Hspec as (add & Hret & Hmem & _).
  apply list_elem_of_lookup_1 in Hin as [j Hj].
  assert (Hjlt : (j < List.length order)%nat)
    by (apply lookup_lt_Some in Hj; exact Hj).
  destruct (lookup_lt_is_Some_2 target_list j ltac:(lia)) as [t Ht].
  assert (Hin : t ∈ add).
  { apply (Hmem j t Ht). cbn [Nat.add].
    rewrite Nat.mod_small by exact Hjlt. exact Hj. }
  destruct add as [|t0 add]; [inversion Hin|].
  exists t0, add. exact Hret.
Qed.

Lemma round_robin_no_empty_witness :
  match round_robin id reverse ["c_1"; "c_2"; "c_1"]
                    ["vol_1"; "vol_2"; "vol_3"] true true with
  | inl e =>
      exn_class e = ValueError
      /\ (["c_1"; "c_2"; "c_1"] = []
          \/ (List.length ["vol_1"; "vol_2"; "vol_3"]
              < List.length ["c_1"; "c_2"; "c_1"])%nat)
  | inr ret =>
      ["c_1"; "c_2"; "c_1"] <> []
      /\ (List.length ["c_1"; "c_2"; "c_1"]
          <= List.length ["vol_1"; "vol_2"; "vol_3"])%nat
      /\ forall worker, worker ∈ ["c_1"; "c_2"; "c_1"] ->
           exists t l, ret !! worker = Some (t :: l)
  end.
Proof.
  apply (round_robin_no_empty_uses_every_worker id reverse
           ["c_1"; "c_2"; "c_1"] ["vol_1"; "vol_2"; "vol_3"] true).
  reflexivity.
Defined.
